(** * WeaverFi: query executor, token valuation engine and project handlers

    A shallow embedding of [src/functions.ts] and of the project handlers
    [projects/poly/iron.ts] and [projects/{poly,eth}/pooltogether.ts],
    followed by the properties proved of them.

    Conventions of the embedding.
    - A JavaScript [number] is modelled by [number]: an exact rational
      extended with [NaN] and the two infinities.  Division,
      multiplication and addition follow IEEE 754 on the special values
      (x/0, 0/0, 0*Infinity, Infinity-Infinity, ...).  The rounding of
      finite results is not modelled, so an equation between computed
      numbers is an equation between their exact values; zero is
      unsigned (every quantity read from a chain is a non-negative
      integer).  Where rounding decides a property, the arithmetic is
      given again in binary64 ([Binary64]).
    - [QueryExecutor.query] is the retry loop of [query], run against a
      network that answers or throws at each attempt.  A loop that may
      not end is given fuel.
    - The functions of the engine are asynchronous; they are modelled in
      a state-and-exception monad [M].  The state holds the process-wide
      price cache, the trace of the contract reads and the console.  To
      the engine a contract read is the value [query] returned for it.
    - The token catalog, the project catalog, the on-chain state and the
      external price source are collaborators of the engine; they are the
      fields of a [World]. *)

From Stdlib Require Import ZArith QArith Qcanon Qpower String Ascii List Bool Lia.
From Stdlib Require Floats.
From stdpp Require Import base option list gmap strings countable.
Import ListNotations.

Set Warnings "-register-all".

Local Open Scope string_scope.
Local Open Scope list_scope.

(* ===================================================================== *)
(** ** Basic types *)
(* ===================================================================== *)

Definition Address := string.
Definition URL := string.

(** [EVMChain] of [types.ts]: the chains of [getChainTokenData]. *)
Inductive EVMChain := eth | bsc | poly | ftm | avax | one | cronos.

Definition chain_eqb (a b : EVMChain) : bool :=
  match a, b with
  | eth, eth | bsc, bsc | poly, poly | ftm, ftm
  | avax, avax | one, one | cronos, cronos => true
  | _, _ => false
  end.

#[global] Instance EVMChain_eq_dec : EqDecision EVMChain.
Proof. intros a b. unfold Decision. decide equality. Defined.

Definition chain_index (c : EVMChain) : nat :=
  match c with
  | eth => 0 | bsc => 1 | poly => 2 | ftm => 3
  | avax => 4 | one => 5 | cronos => 6
  end.

Definition chain_of_index (n : nat) : EVMChain :=
  match n with
  | 0 => eth | 1 => bsc | 2 => poly | 3 => ftm
  | 4 => avax | 5 => one | _ => cronos
  end.

#[global] Instance EVMChain_countable : Countable EVMChain.
Proof.
  apply (inj_countable' chain_index chain_of_index).
  intros c. destruct c; reflexivity.
Defined.

(** The chain's name as the string the source holds. *)
Definition chain_name (c : EVMChain) : string :=
  match c with
  | eth => "eth" | bsc => "bsc" | poly => "poly" | ftm => "ftm"
  | avax => "avax" | one => "one" | cronos => "cronos"
  end.

(** [String.prototype.toLowerCase] / [toUpperCase] on ASCII text
    (addresses are hexadecimal strings, chain names are ASCII). *)
Definition lower_ascii (c : ascii) : ascii :=
  let n := nat_of_ascii c in
  if (65 <=? n)%nat && (n <=? 90)%nat then ascii_of_nat (n + 32) else c.

Definition upper_ascii (c : ascii) : ascii :=
  let n := nat_of_ascii c in
  if (97 <=? n)%nat && (n <=? 122)%nat then ascii_of_nat (n - 32) else c.

Fixpoint toLowerCase (s : string) : string :=
  match s with
  | EmptyString => EmptyString
  | String c r => String (lower_ascii c) (toLowerCase r)
  end.

Fixpoint toUpperCase (s : string) : string :=
  match s with
  | EmptyString => EmptyString
  | String c r => String (upper_ascii c) (toUpperCase r)
  end.

(* ===================================================================== *)
(** ** JavaScript numbers *)
(* ===================================================================== *)

Inductive number :=
| Fin (q : Qc)
| PInf
| NInf
| NaN.

Definition ofZ (z : Z) : number := Fin (Q2Qc (inject_Z z)).

Definition isFinite (n : number) : bool :=
  match n with Fin _ => true | _ => false end.

(** JavaScript [/]. *)
Definition num_div (a b : number) : number :=
  match a, b with
  | NaN, _ | _, NaN => NaN
  | Fin x, Fin y =>
      match Qccompare y 0 with
      | Eq => match Qccompare x 0 with
              | Gt => PInf
              | Lt => NInf
              | Eq => NaN
              end
      | _ => Fin (x / y)
      end
  | Fin _, PInf | Fin _, NInf => Fin 0
  | PInf, Fin y => match Qccompare y 0 with Lt => NInf | _ => PInf end
  | NInf, Fin y => match Qccompare y 0 with Lt => PInf | _ => NInf end
  | PInf, PInf | PInf, NInf | NInf, PInf | NInf, NInf => NaN
  end.

(** JavaScript [*]. *)
Definition num_mul (a b : number) : number :=
  match a, b with
  | NaN, _ | _, NaN => NaN
  | Fin x, Fin y => Fin (x * y)
  | Fin x, PInf | PInf, Fin x =>
      match Qccompare x 0 with Gt => PInf | Lt => NInf | Eq => NaN end
  | Fin x, NInf | NInf, Fin x =>
      match Qccompare x 0 with Gt => NInf | Lt => PInf | Eq => NaN end
  | PInf, PInf | NInf, NInf => PInf
  | PInf, NInf | NInf, PInf => NInf
  end.

(** JavaScript [+]  on numbers. *)
Definition num_add (a b : number) : number :=
  match a, b with
  | NaN, _ | _, NaN => NaN
  | Fin x, Fin y => Fin (x + y)
  | PInf, NInf | NInf, PInf => NaN
  | PInf, _ | _, PInf => PInf
  | NInf, _ | _, NInf => NInf
  end.

(** [a > 0] on numbers ([NaN > 0] is false). *)
Definition num_gt0 (a : number) : bool :=
  match a with
  | Fin x => match Qccompare x 0 with Gt => true | _ => false end
  | PInf => true
  | _ => false
  end.

(** [a >= 0] on numbers. *)
Definition num_ge0 (a : number) : bool :=
  match a with
  | Fin x => match Qccompare x 0 with Lt => false | _ => true end
  | PInf => true
  | _ => false
  end.

(** The result of [parseInt]: an integer or [NaN].  Every [decimals]
    variable of the engine holds such a value (the literal 18, a catalog
    entry, or a [parseInt] result). *)
Inductive jsint :=
| IntVal (z : Z)
| IntNaN.

Definition int_to_number (i : jsint) : number :=
  match i with IntVal z => ofZ z | IntNaN => NaN end.

(** [10 ** decimals]. *)
Definition pow10 (d : jsint) : number :=
  match d with
  | IntVal z => Fin (Q2Qc (Qpower (inject_Z 10) z))
  | IntNaN => NaN
  end.

(* ===================================================================== *)
(** ** Decoded values, ABIs and diagnostics *)
(* ===================================================================== *)

(** What [contract[method](...args)] of ethers decodes to. *)
Inductive JsVal :=
| VUndefined
| VBool (b : bool)
| VNumber (n : number)        (* uint8 ... uint48 are decoded to numbers *)
| VString (s : string)        (* string and address results *)
| VBigNumber (z : Z)          (* wider integers: a BigNumber object *)
| VResult (l : list JsVal).   (* tuples, arrays and structs *)

(** JavaScript truthiness ([!result] is [negb (truthy result)]). *)
Definition truthy (v : JsVal) : bool :=
  match v with
  | VUndefined => false
  | VBool b => b
  | VNumber (Fin x) => match Qccompare x 0 with Eq => false | _ => true end
  | VNumber NaN => false
  | VNumber _ => true
  | VString s => negb (String.eqb s "")
  | VBigNumber _ => true
  | VResult _ => true
  end.

(** The ABI fragments of [./ABIs], by name (pure data). *)
Inductive ABI :=
| minABI | lpABI | aave_lpABI | balancer_tokenABI | balancer_vaultABI
| curve_registryABI | curve_polyTokenABI | curve_ftmTokenABI
| curve_avaxTokenABI | curve_minterABI | curve_intermediaryABI
| iron_registryABI | iron_lendingABI | iron_marketABI | iron_stakingABI
| iron_tokenABI | iron_swapABI.

(** Console output, one constructor per message of the source. *)
Inductive Diagnostic :=
| (* console.error(`Error Calling ${method}(${args}) on ${address} (Chain: ...)`) *)
  QueryError (method : string) (args : list JsVal) (address : Address) (chain : string)
| (* console.warn(`Invalid Project Queried: ${project} (Chain: ...)`) *)
  InvalidProject (project : string) (chain : string)
| (* console.warn(`Unidentified Curve Token: ${address}`) *)
  UnidentifiedCurveToken (address : Address)
| (* console.error(`Error fetching ${project} balances on ${chain}.`) *)
  FetchError (project : string) (chain : string).

(* ===================================================================== *)
(** ** The endpoint-failover query executor ([query]) *)
(* ===================================================================== *)

Definition maxQueryRetries : nat := 3.

Record IgnoredError := { ie_chain : EVMChain; ie_address : Address }.

Definition ignoredErrors : list IgnoredError :=
  [ {| ie_chain := poly; ie_address := "0x8aaa5e259f74c8114e0a471d9f2adfc66bfe09ed" |};
    {| ie_chain := poly; ie_address := "0x9dd12421c637689c3fc6e661c9e2f02c2f61b3eb" |} ].

(** [ignoredErrors.find(i => i.chain === chain && i.address === address.toLowerCase())],
    as a truth value. *)
Definition isIgnored (chain : EVMChain) (address : Address) : bool :=
  existsb (fun i => chain_eqb (ie_chain i) chain
                    && String.eqb (ie_address i) (toLowerCase address))
          ignoredErrors.

(** One attempt either decodes a value or throws (transport error,
    timeout, revert, wrong ABI: the [catch] makes no distinction). *)
Inductive Outcome :=
| Returns (v : JsVal)
| Throws.

Module QueryExecutor.
Section Query.

(** [chains[chain].rpcs]: the chain registry (external configuration). *)
Variable rpcs : EVMChain -> list URL.

(** The network: the outcome of the [n]-th attempt (counted from 0) of
    this call when sent to the given endpoint; the endpoint is
    [rpcs[rpcID]], [None] standing for [undefined] past the end of the
    list. *)
Variable contract_call :
  nat -> option URL -> Address -> ABI -> string -> list JsVal -> Outcome.

(** The local variables of [query], with a count of the attempts made
    and the console lines written. *)
Record Locals := {
  result : JsVal;
  errors : nat;
  rpcID : nat;
  attempts : nat;
  console : list Diagnostic
}.

Definition init : Locals :=
  {| result := VUndefined; errors := 0; rpcID := 0;
     attempts := 0; console := [] |}.

(** The loop condition [!result && errors < maxQueryRetries]. *)
Definition continues (st : Locals) : bool :=
  negb (truthy (result st)) && (errors st <? maxQueryRetries)%nat.

(** One execution of the loop body: the [try] block and its [catch]. *)
Definition body (chain : EVMChain) (address : Address) (abi : ABI)
    (method : string) (args : list JsVal) (st : Locals) : Locals :=
  match contract_call (attempts st) (rpcs chain !! rpcID st)
                      address abi method args with
  | Returns v =>
      {| result := v; errors := errors st; rpcID := rpcID st;
         attempts := S (attempts st); console := console st |}
  | Throws =>
      let rpcID' := S (rpcID st) in
      if (length (rpcs chain) <=? rpcID')%nat then
        let errors' := S (errors st) in
        if (maxQueryRetries <=? errors')%nat then
          {| result := result st; errors := errors'; rpcID := rpcID';
             attempts := S (attempts st);
             console :=
               if isIgnored chain address then console st
               else console st ++
                    [QueryError method args address
                                (toUpperCase (chain_name chain))] |}
        else
          {| result := result st; errors := errors'; rpcID := 0;
             attempts := S (attempts st); console := console st |}
      else
        {| result := result st; errors := errors st; rpcID := rpcID';
           attempts := S (attempts st); console := console st |}
  end.

(** The [while] loop; [None] when [fuel] iterations do not end it. *)
Fixpoint loop (fuel : nat) (chain : EVMChain) (address : Address)
    (abi : ABI) (method : string) (args : list JsVal) (st : Locals)
    : option Locals :=
  if continues st then
    match fuel with
    | O => None
    | S fuel' =>
        loop fuel' chain address abi method args
             (body chain address abi method args st)
    end
  else Some st.

(** [query]: the returned value, the number of attempts made and the
    console lines written; [None] when the loop is still running after
    [fuel] iterations. *)
Definition query (fuel : nat) (chain : EVMChain) (address : Address)
    (abi : ABI) (method : string) (args : list JsVal)
    : option (JsVal * nat * list Diagnostic) :=
  match loop fuel chain address abi method args init with
  | Some st => Some (result st, attempts st, console st)
  | None => None
  end.

End Query.
End QueryExecutor.

(* ===================================================================== *)
(** ** Tokens *)
(* ===================================================================== *)

Definition defaultTokenLogo : URL :=
  "https://cdn.jsdelivr.net/gh/atomiclabs/cryptocurrency-icons@d5c68edec1f5eaec59ac77ff2b48144679cebca1/32/icon/generic.png".
Definition defaultAddress : Address := "0xeeeeeeeeeeeeeeeeeeeeeeeeeeeeeeeeeeeeeeee".
Definition zero : Address := "0x0000000000000000000000000000000000000000".

(** [TokenType] and [TokenStatus] of [types.ts]. *)
Inductive TokenType := ty_nativeToken | ty_token | ty_lpToken | ty_debt | ty_xToken.
Inductive TokenStatus := st_none | st_staked | st_lent | st_borrowed | st_unclaimed.

(** A symbol read from a contract is [undefined] ([None]) when the read
    was abandoned. *)
Definition Symbol := option string.

(** [TokenData] and the per-chain data of [./tokens]. *)
Record TokenData := {
  td_symbol : string;
  td_address : Address;
  td_decimals : Z;
  td_logo : URL
}.

Record LogoData := { ld_symbol : string; ld_logo : URL }.

Record ChainTokenData := {
  cd_tokens : list TokenData;
  cd_logos : list LogoData
}.

Record PricedToken := {
  pt_symbol : Symbol;
  pt_address : Address;
  pt_balance : number;
  pt_price : number;
  pt_logo : URL
}.

(** [Token] (also the shape of [NativeToken] and [DebtToken]). *)
Record Token := {
  t_type : TokenType;
  t_chain : EVMChain;
  t_location : string;
  t_status : TokenStatus;
  t_owner : Address;
  t_symbol : Symbol;
  t_address : Address;
  t_balance : number;
  t_price : number;
  t_logo : URL
}.

Record LPToken := {
  lp_type : TokenType;
  lp_chain : EVMChain;
  lp_location : string;
  lp_status : TokenStatus;
  lp_owner : Address;
  lp_symbol : Symbol;
  lp_address : Address;
  lp_balance : number;
  lp_token0 : PricedToken;
  lp_token1 : PricedToken
}.

Record XToken := {
  x_type : TokenType;
  x_chain : EVMChain;
  x_location : string;
  x_status : TokenStatus;
  x_owner : Address;
  x_symbol : Symbol;
  x_address : Address;
  x_balance : number;
  x_logo : URL;
  x_underlyingToken : PricedToken;
  x_info : option jsint           (* [info.unlock], when a handler sets it *)
}.

(** [Token | LPToken | DebtToken | XToken]. *)
Inductive AnyToken :=
| IsToken (t : Token)
| IsLPToken (t : LPToken)
| IsXToken (t : XToken).

(* ===================================================================== *)
(** ** Contract reads and the on-chain state *)
(* ===================================================================== *)

(** [getPoolTokens] of the Balancer vault. *)
Record PoolInfo := { pi_tokens : list Address; pi_balances : list Z }.

(** [locked] of the Iron staking contract. *)
Record LockedBalance := { lk_amount : Z; lk_end : Z }.

(** The contract methods the modelled functions call, with their
    arguments. *)
Inductive Method :=
| m_symbol
| m_decimals
| m_totalSupply
| m_balanceOf (holder : Address)
| m_getReserves
| m_token0
| m_token1
| m_getPoolTokens (id : Address)
| m_get_pool_from_lp_token (lp : Address)
| m_get_underlying_coins (pool : option Address)
| m_get_underlying_balances (pool : option Address)
| m_get_virtual_price_from_lp_token (lp : Address)
| m_minter
| m_get_virtual_price
| m_coins (i : nat)
| m_underlying_coins (i : nat)
| m_balances (i : nat)
| m_UNDERLYING_ASSET_ADDRESS
| m_rewardAccrued (wallet : Address)
| m_locked (wallet : Address).

(** The decoded type of each method's result. *)
Definition ret (m : Method) : Type :=
  match m with
  | m_symbol => string
  | m_decimals | m_totalSupply | m_balanceOf _ => Z
  | m_getReserves => (Z * Z)%type
  | m_token0 | m_token1 => Address
  | m_getPoolTokens _ => PoolInfo
  | m_get_pool_from_lp_token _ => Address
  | m_get_underlying_coins _ => list Address
  | m_get_underlying_balances _ => list Z
  | m_get_virtual_price_from_lp_token _ => Z
  | m_minter => Address
  | m_get_virtual_price => Z
  | m_coins _ | m_underlying_coins _ => Address
  | m_balances _ => Z
  | m_UNDERLYING_ASSET_ADDRESS => Address
  | m_rewardAccrued _ => Z
  | m_locked _ => LockedBalance
  end.

Record QueryRecord := {
  qr_chain : EVMChain;
  qr_address : option Address;
  qr_abi : ABI;
  qr_method : Method
}.

(** The collaborators of the engine:
    - [eth_data] ... [cronos_data]: the known-token catalog of [./tokens];
    - [projects]: the project names of each chain, of [./projects];
    - [onchain]: what [query] returns for a read in the current on-chain
      state, the decoded value or [None] for [undefined];
    - [priceSource]: the price the resolver computes on a cache miss,
      from the external price source. *)
Record World := {
  eth_data : ChainTokenData;
  bsc_data : ChainTokenData;
  poly_data : ChainTokenData;
  ftm_data : ChainTokenData;
  avax_data : ChainTokenData;
  one_data : ChainTokenData;
  cronos_data : ChainTokenData;
  projects : EVMChain -> list string;
  onchain : EVMChain -> Address -> forall m : Method, option (ret m);
  priceSource : EVMChain -> Address -> jsint -> number
}.

(* ===================================================================== *)
(** ** The monad of the engine: state and exceptions *)
(* ===================================================================== *)

(** The process-wide state: the price cache, the trace of the contract
    reads made, and the console lines written by the engine and the
    handlers themselves (the error lines of the retry loop are those of
    [QueryExecutor.query]). *)
Record Store := {
  priceCache : gmap (EVMChain * string) number;
  queryTrace : list QueryRecord;
  consoleLog : list Diagnostic
}.

Definition emptyStore : Store :=
  {| priceCache := ∅; queryTrace := []; consoleLog := [] |}.

(** The store after one more console line. *)
Definition logged (s : Store) (d : Diagnostic) : Store :=
  {| priceCache := priceCache s; queryTrace := queryTrace s;
     consoleLog := consoleLog s ++ [d] |}.

(** A JavaScript exception (a rejected promise). *)
Inductive Exn :=
| TypeError (what : string)
| Rejected (what : string).

Inductive Res (A : Type) :=
| Ok (a : A)
| Throw (e : Exn).
Arguments Ok {A} a.
Arguments Throw {A} e.

Definition M (A : Type) : Type := Store -> Res A * Store.

#[global] Instance M_ret : MRet M := fun A a s => (Ok a, s).

#[global] Instance M_bind : MBind M := fun A B f m s =>
  match m s with
  | (Ok a, s') => f a s'
  | (Throw e, s') => (Throw e, s')
  end.

#[global] Instance M_fmap : FMap M := fun A B f m s =>
  match m s with
  | (Ok a, s') => (Ok (f a), s')
  | (Throw e, s') => (Throw e, s')
  end.

Definition throw {A : Type} (e : Exn) : M A := fun s => (Throw e, s).

(** Reading through a value that may be [undefined]
    ([x[0]], [x.length], [x.toLowerCase()], ...). *)
Definition defined {A : Type} (what : string) (x : option A) : M A :=
  match x with
  | Some a => mret a
  | None => throw (TypeError what)
  end.

(** [console.warn] and [console.error]. *)
Definition console_log (d : Diagnostic) : M unit := fun s =>
  (Ok tt, logged s d).

(** [parseInt] of a query result. *)
Definition parseInt (x : option Z) : jsint :=
  match x with Some z => IntVal z | None => IntNaN end.

(** A query result used as a number ([undefined / y] is [NaN]). *)
Definition toNumber (x : option Z) : number :=
  match x with Some z => ofZ z | None => NaN end.

(* ===================================================================== *)
(** ** The token valuation engine ([functions.ts]) *)
(* ===================================================================== *)

Section Engine.

Variable W : World.

(** The value [query] returns to the engine.  The retry loop is
    [QueryExecutor.query]; here only its returned value matters, and
    the read is recorded in the trace.  A run of the engine is a run in
    which every read has returned; the error line that the retry loop
    writes for an abandoned read is not repeated in [consoleLog], which
    holds the lines of the engine's own [console] calls. *)
Definition query (chain : EVMChain) (address : Address) (abi : ABI)
    (m : Method) : M (option (ret m)) := fun s =>
  (Ok (onchain W chain address m),
   {| priceCache := priceCache s;
      queryTrace := queryTrace s ++
        [{| qr_chain := chain; qr_address := Some address;
            qr_abi := abi; qr_method := m |}];
      consoleLog := consoleLog s |}).

(** [query] at an address that was itself read from a contract.  With
    an [undefined] address the contract cannot be built, so every
    attempt throws and the call is abandoned.  Looking the call up in
    [ignoredErrors] then lower-cases the address for each entry of the
    same chain, which throws on [undefined]; for the other chains the
    result is [undefined]. *)
Definition query_at (chain : EVMChain) (address : option Address)
    (abi : ABI) (m : Method) : M (option (ret m)) :=
  match address with
  | Some a => query chain a abi m
  | None => fun s =>
      let s' :=
        {| priceCache := priceCache s;
           queryTrace := queryTrace s ++
             [{| qr_chain := chain; qr_address := None;
                 qr_abi := abi; qr_method := m |}];
           consoleLog := consoleLog s |} in
      if existsb (fun i => chain_eqb (ie_chain i) chain) ignoredErrors
      then (Throw (TypeError "address.toLowerCase"), s')
      else (Ok None, s')
  end.

(** Modelled from the spec: [getTokenPrice] of [./prices], which is not
    among the sources.  The resolver reads the process-wide cache under
    the key (chain, lower-cased address); on a miss it computes the
    price from the price source and writes it through to the cache.
    Entries are never evicted. *)
Definition getTokenPrice (chain : EVMChain) (address : Address)
    (decimals : jsint) : M number := fun s =>
  match priceCache s !! (chain, toLowerCase address) with
  | Some price => (Ok price, s)
  | None =>
      let price := priceSource W chain address decimals in
      (Ok price,
       {| priceCache := <[(chain, toLowerCase address) := price]> (priceCache s);
          queryTrace := queryTrace s;
          consoleLog := consoleLog s |})
  end.

Definition getChainTokenData (chain : EVMChain) : option ChainTokenData :=
  match chain with
  | eth => Some (eth_data W)
  | bsc => Some (bsc_data W)
  | poly => Some (poly_data W)
  | ftm => Some (ftm_data W)
  | avax => Some (avax_data W)
  | one => Some (one_data W)
  | cronos => Some (cronos_data W)
  end.

Definition getTokens (chain : EVMChain) : list TokenData :=
  match getChainTokenData chain with
  | Some chainTokenData => cd_tokens chainTokenData
  | None => []
  end.

(** [s === symbol], the symbol possibly [undefined]. *)
Definition symbol_is (symbol : Symbol) (s : string) : bool :=
  match symbol with
  | Some x => String.eqb s x
  | None => false
  end.

Definition getTokenLogo (chain : EVMChain) (symbol : Symbol) : URL :=
  let logo := defaultTokenLogo in
  match getChainTokenData chain with
  | Some data =>
      match List.find (fun token => symbol_is symbol (td_symbol token))
                      (cd_tokens data) with
      | Some trackedToken => td_logo trackedToken
      | None =>
          match List.find (fun i => symbol_is symbol (ld_symbol i))
                          (cd_logos data) with
          | Some token => ld_logo token
          | None => logo
          end
      end
  | None => logo
  end.

Definition getTrackedTokenInfo (chain : EVMChain) (address : Address)
    : option TokenData :=
  match getChainTokenData chain with
  | Some data =>
      List.find (fun token =>
                   String.eqb (toLowerCase (td_address token))
                              (toLowerCase address))
                (cd_tokens data)
  | None => None
  end.

Definition getNativeTokenSymbol (chain : EVMChain) : string :=
  match chain with
  | bsc => "BNB"
  | poly => "MATIC"
  | cronos => "CRO"
  | _ => toUpperCase (chain_name chain)
  end.

(** The symbol, decimals and logo found by [addToken] and
    [addDebtToken] (their "Finding Token Info" block). *)
Definition findTokenInfo (chain : EVMChain) (address : Address)
    : M (Symbol * jsint * URL) :=
  if String.eqb (toLowerCase address) defaultAddress then
    let symbol := Some (getNativeTokenSymbol chain) in
    mret (symbol, IntVal 18, getTokenLogo chain symbol)
  else
    match getTrackedTokenInfo chain address with
    | Some token =>
        mret (Some (td_symbol token), IntVal (td_decimals token), td_logo token)
    | None =>
        symbol ← query chain address minABI m_symbol;
        decimals ← query chain address minABI m_decimals;
        mret (symbol, parseInt decimals, getTokenLogo chain symbol)
    end.

Definition addToken (chain : EVMChain) (location : string)
    (status : TokenStatus) (address : Address) (rawBalance : number)
    (owner : Address) : M Token :=
  '(symbol, decimals, logo) ← findTokenInfo chain address;
  let balance := num_div rawBalance (pow10 decimals) in
  price ← getTokenPrice chain address decimals;
  mret {| t_type := ty_token; t_chain := chain; t_location := location;
          t_status := status; t_owner := owner; t_symbol := symbol;
          t_address := address; t_balance := balance; t_price := price;
          t_logo := logo |}.

Definition addDebtToken (chain : EVMChain) (location : string)
    (address : Address) (rawBalance : number) (owner : Address) : M Token :=
  '(symbol, decimals, logo) ← findTokenInfo chain address;
  let balance := num_div rawBalance (pow10 decimals) in
  price ← getTokenPrice chain address decimals;
  mret {| t_type := ty_debt; t_chain := chain; t_location := location;
          t_status := st_borrowed; t_owner := owner; t_symbol := symbol;
          t_address := address; t_balance := balance; t_price := price;
          t_logo := logo |}.

Definition addTrackedToken (chain : EVMChain) (location : string)
    (status : TokenStatus) (token : TokenData) (rawBalance : number)
    (owner : Address) : M Token :=
  let address := td_address token in
  let symbol := td_symbol token in
  let logo := td_logo token in
  let decimals := IntVal (td_decimals token) in
  let balance := num_div rawBalance (pow10 decimals) in
  price ← getTokenPrice chain address decimals;
  mret {| t_type := ty_token; t_chain := chain; t_location := location;
          t_status := status; t_owner := owner; t_symbol := Some symbol;
          t_address := address; t_balance := balance; t_price := price;
          t_logo := logo |}.

(** [getTrackedTokenInfo] at an address that was itself read from a
    contract.  The lookup lower-cases the address for each catalog
    token it visits, which throws on [undefined] at the first one; over
    an empty catalog no token is visited and nothing is found. *)
Definition getTrackedTokenInfo_at (chain : EVMChain)
    (address : option Address) : M (option TokenData) :=
  match address with
  | Some a => mret (getTrackedTokenInfo chain a)
  | None =>
      match getTokens chain with
      | [] => mret None
      | _ :: _ => throw (TypeError "address.toLowerCase")
      end
  end.

(** The symbol and decimals of one side of a pair, from the catalog or
    from the chain. *)
Definition pairedTokenInfo (chain : EVMChain) (address : option Address)
    (trackedToken : option TokenData) : M (Symbol * jsint) :=
  match trackedToken with
  | Some t => mret (Some (td_symbol t), IntVal (td_decimals t))
  | None =>
      symbol ← query_at chain address minABI m_symbol;
      decimals ← query_at chain address minABI m_decimals;
      mret (symbol, parseInt decimals)
  end.

Definition addLPToken (chain : EVMChain) (location : string)
    (status : TokenStatus) (address : Address) (rawBalance : number)
    (owner : Address) : M LPToken :=
  symbol ← query chain address minABI m_symbol;
  decimals ← parseInt <$> query chain address minABI m_decimals;
  let balance := num_div rawBalance (pow10 decimals) in
  lpTokenReserves ← query chain address lpABI m_getReserves;
  totalSupply ← query chain address lpABI m_totalSupply;
  let lpTokenSupply := num_div (toNumber totalSupply) (pow10 decimals) in
  address0 ← query chain address lpABI m_token0;
  address1 ← query chain address lpABI m_token1;
  trackedToken0 ← getTrackedTokenInfo_at chain address0;
  trackedToken1 ← getTrackedTokenInfo_at chain address1;
  '(symbol0, decimals0) ← pairedTokenInfo chain address0 trackedToken0;
  '(symbol1, decimals1) ← pairedTokenInfo chain address1 trackedToken1;
  reserves ← defined "lpTokenReserves[0]" lpTokenReserves;
  let supply0 := num_div (ofZ (fst reserves)) (pow10 decimals0) in
  let supply1 := num_div (ofZ (snd reserves)) (pow10 decimals1) in
  (* getTokenPrice lower-cases its address *)
  address0 ← defined "address.toLowerCase" address0;
  price0 ← getTokenPrice chain address0 decimals0;
  let token0 :=
    {| pt_symbol := symbol0; pt_address := address0;
       pt_balance := num_mul supply0 (num_div balance lpTokenSupply);
       pt_price := price0; pt_logo := getTokenLogo chain symbol0 |} in
  address1 ← defined "address.toLowerCase" address1;
  price1 ← getTokenPrice chain address1 decimals1;
  let token1 :=
    {| pt_symbol := symbol1; pt_address := address1;
       pt_balance := num_mul supply1 (num_div balance lpTokenSupply);
       pt_price := price1; pt_logo := getTokenLogo chain symbol1 |} in
  mret {| lp_type := ty_lpToken; lp_chain := chain; lp_location := location;
          lp_status := status; lp_owner := owner; lp_symbol := symbol;
          lp_address := address; lp_balance := balance;
          lp_token0 := token0; lp_token1 := token1 |}.

Definition addXToken (chain : EVMChain) (location : string)
    (status : TokenStatus) (address : Address) (rawBalance : number)
    (owner : Address) (underlyingAddress : Address)
    (underlyingRawBalance : number) : M XToken :=
  symbol ← query chain address minABI m_symbol;
  decimals ← parseInt <$> query chain address minABI m_decimals;
  let balance := num_div rawBalance (pow10 decimals) in
  let logo := getTokenLogo chain symbol in
  '(underlyingSymbol, underlyingDecimals, underlyingLogo) ←
    match getTrackedTokenInfo chain address with
    | Some token =>
        mret (Some (td_symbol token), IntVal (td_decimals token), td_logo token)
    | None =>
        underlyingSymbol ← query chain underlyingAddress minABI m_symbol;
        underlyingDecimals ← query chain underlyingAddress minABI m_decimals;
        mret (underlyingSymbol, parseInt underlyingDecimals,
              getTokenLogo chain underlyingSymbol)
    end;
  price ← getTokenPrice chain underlyingAddress underlyingDecimals;
  let underlyingToken :=
    {| pt_symbol := underlyingSymbol; pt_address := underlyingAddress;
       pt_balance := num_div underlyingRawBalance (pow10 underlyingDecimals);
       pt_price := price; pt_logo := underlyingLogo |} in
  mret {| x_type := ty_xToken; x_chain := chain; x_location := location;
          x_status := status; x_owner := owner; x_symbol := symbol;
          x_address := address; x_balance := balance; x_logo := logo;
          x_underlyingToken := underlyingToken; x_info := None |}.

Definition addTraderJoeToken (chain : EVMChain) (location : string)
    (status : TokenStatus) (rawBalance : number) (owner : Address)
    : M XToken :=
  let xjoe : Address := "0x57319d41F71E81F3c65F2a47CA4e001EbAFd4F33" in
  let joe : Address := "0x6e84a6216eA6dACC71eE8E6b0a5B7322EEbC0fDd" in
  joeStaked ← parseInt <$> query chain joe minABI (m_balanceOf xjoe);
  xjoeSupply ← parseInt <$> query chain xjoe minABI m_totalSupply;
  addXToken chain location status xjoe rawBalance owner joe
    (num_mul rawBalance
       (num_div (int_to_number joeStaked) (int_to_number xjoeSupply))).

(** The token returned when no strategy applies ("No Token Identified"). *)
Definition unidentifiedToken (chain : EVMChain) (location : string)
    (owner : Address) (address : Address) : Token :=
  {| t_type := ty_token; t_chain := chain; t_location := location;
     t_status := st_none; t_owner := owner; t_symbol := Some "???";
     t_address := address; t_balance := ofZ 0; t_price := ofZ 0;
     t_logo := defaultTokenLogo |}.

(** [getTokenPrice] at an address read from a contract; the resolver
    lower-cases its address, which throws on [undefined]. *)
Definition getTokenPrice_at (chain : EVMChain) (address : option Address)
    (decimals : jsint) : M number :=
  address ← defined "address.toLowerCase" address;
  getTokenPrice chain address decimals.

(** [parseInt(x[i])] for an array of integers ([x[i]] is [undefined]
    past the end). *)
Definition parseIntAt (x : list Z) (i : nat) : jsint := parseInt (x !! i).

(** The loop of [addBalancerLikeToken] over [poolInfo.tokens], from
    index [i] on; [todo] are the tokens from that index. *)
Fixpoint balancerPriceSum (chain : EVMChain) (poolInfo : PoolInfo)
    (i : nat) (todo : list Address) (priceSum : number) : M number :=
  match todo with
  | [] => mret priceSum
  | token :: rest =>
      tokenDecimals ← parseInt <$> query chain token minABI m_decimals;
      tokenPrice ← getTokenPrice chain token tokenDecimals;
      balancerPriceSum chain poolInfo (S i) rest
        (num_add priceSum
           (num_mul (num_div (int_to_number (parseIntAt (pi_balances poolInfo) i))
                             (pow10 tokenDecimals))
                    tokenPrice))
  end.

Definition addBalancerLikeToken (chain : EVMChain) (location : string)
    (status : TokenStatus) (address : Address) (rawBalance : number)
    (owner : Address) (id : Address) (vault : Address) : M AnyToken :=
  poolInfo ← query chain vault balancer_vaultABI (m_getPoolTokens id);
  symbol ← query chain address minABI m_symbol;
  decimals ← parseInt <$> query chain address minABI m_decimals;
  let balance := num_div rawBalance (pow10 decimals) in
  lpTokenSupply ← parseInt <$> query chain address minABI m_totalSupply;
  poolInfo ← defined "poolInfo.tokens" poolInfo;
  match pi_tokens poolInfo with
  | _ :: _ :: _ :: _ =>
      (* poolInfo.tokens.length > 2 *)
      let logo := getTokenLogo chain symbol in
      priceSum ← balancerPriceSum chain poolInfo 0 (pi_tokens poolInfo) (ofZ 0);
      let price :=
        num_div priceSum (num_div (int_to_number lpTokenSupply) (pow10 decimals)) in
      mret (IsToken
              {| t_type := ty_token; t_chain := chain; t_location := location;
                 t_status := status; t_owner := owner; t_symbol := symbol;
                 t_address := address; t_balance := balance; t_price := price;
                 t_logo := logo |})
  | [address0; address1] =>
      (* poolInfo.tokens.length === 2 *)
      symbol0 ← query chain address0 minABI m_symbol;
      symbol1 ← query chain address1 minABI m_symbol;
      decimals0 ← parseInt <$> query chain address0 minABI m_decimals;
      decimals1 ← parseInt <$> query chain address1 minABI m_decimals;
      price0 ← getTokenPrice chain address0 decimals0;
      let token0 :=
        {| pt_symbol := symbol0; pt_address := address0;
           pt_balance :=
             num_div (num_mul (int_to_number (parseIntAt (pi_balances poolInfo) 0))
                              (num_div balance (int_to_number lpTokenSupply)))
                     (pow10 decimals0);
           pt_price := price0; pt_logo := getTokenLogo chain symbol0 |} in
      price1 ← getTokenPrice chain address1 decimals1;
      let token1 :=
        {| pt_symbol := symbol1; pt_address := address1;
           pt_balance :=
             num_div (num_mul (int_to_number (parseIntAt (pi_balances poolInfo) 1))
                              (num_div balance (int_to_number lpTokenSupply)))
                     (pow10 decimals1);
           pt_price := price1; pt_logo := getTokenLogo chain symbol1 |} in
      mret (IsLPToken
              {| lp_type := ty_lpToken; lp_chain := chain;
                 lp_location := location; lp_status := status;
                 lp_owner := owner; lp_symbol := symbol;
                 lp_address := address; lp_balance := balance;
                 lp_token0 := token0; lp_token1 := token1 |})
  | _ =>
      (* No Token Identified *)
      mret (IsToken (unidentifiedToken chain location owner address))
  end.

Definition addBalancerToken (chain : EVMChain) (location : string)
    (status : TokenStatus) (address : Address) (rawBalance : number)
    (owner : Address) (id : Address) : M AnyToken :=
  addBalancerLikeToken chain location status address rawBalance owner id
    "0xBA12222222228d8Ba445958a75a0704d566BF2C8".

(** [address.toLowerCase() === literal.toLowerCase()]. *)
Definition sameAddress (address literal : Address) : bool :=
  String.eqb (toLowerCase address) (toLowerCase literal).

(** [getPrice] of [addCurveToken]: synthetic assets are priced as the
    asset they track. *)
Definition getPrice (chain : EVMChain) (address : Address)
    (decimals : jsint) : M number :=
  if sameAddress address "0xbBC455cb4F1B9e4bFC4B73970d360c8f032EfEE6" then
    getTokenPrice chain "0x514910771af9ca656af840dff83e8264ecf986ca" decimals
  else if sameAddress address "0xfE18be6b3Bd88A2D2A7f928d00292E7a9963CfC6" then
    getTokenPrice chain "0x2260fac5e5542a773aa44fbcfedf7c193bc2c599" decimals
  else if sameAddress address "0xd71ecff9342a5ced620049e616c5035f1db98620" then
    getTokenPrice chain "0xdb25f211ab05b1c97d595516f45794528a807ad8" decimals
  else
    getTokenPrice chain address decimals.

(** The loop of the Ethereum 3+ asset branch of [addCurveToken]. *)
Fixpoint curvePriceSum (chain : EVMChain) (reserves : list Z) (i : nat)
    (todo : list Address) (price : number) : M number :=
  match todo with
  | [] => mret price
  | token :: rest =>
      tokenDecimals ← parseInt <$> query chain token minABI m_decimals;
      tokenPrice ← getPrice chain token tokenDecimals;
      curvePriceSum chain reserves (S i) rest
        (num_add price
           (num_mul (num_div (int_to_number (parseIntAt reserves i))
                             (pow10 tokenDecimals))
                    tokenPrice))
  end.

(** A [Token] of [addCurveToken] (the value of its [return] statements
    of type 'token'). *)
Definition curveToken (chain : EVMChain) (location : string)
    (status : TokenStatus) (owner : Address) (symbol : Symbol)
    (address : Address) (balance price : number) (logo : URL) : AnyToken :=
  IsToken {| t_type := ty_token; t_chain := chain; t_location := location;
             t_status := status; t_owner := owner; t_symbol := symbol;
             t_address := address; t_balance := balance; t_price := price;
             t_logo := logo |}.

Definition curveLPToken (chain : EVMChain) (location : string)
    (status : TokenStatus) (owner : Address) (symbol : Symbol)
    (address : Address) (balance : number) (token0 token1 : PricedToken)
    : AnyToken :=
  IsLPToken {| lp_type := ty_lpToken; lp_chain := chain;
               lp_location := location; lp_status := status;
               lp_owner := owner; lp_symbol := symbol;
               lp_address := address; lp_balance := balance;
               lp_token0 := token0; lp_token1 := token1 |}.

(** One paired token of the Polygon, Fantom and Avalanche pair
    branches: balance [(supply * (balance / lpTokenSupply)) / 10 ** decimals]. *)
Definition curvePairedToken (chain : EVMChain) (symbol : Symbol)
    (address : option Address) (supply balance lpTokenSupply : number)
    (decimals : jsint) : M PricedToken :=
  address ← defined "address.toLowerCase" address;
  price ← getTokenPrice chain address decimals;
  mret {| pt_symbol := symbol; pt_address := address;
          pt_balance :=
            num_div (num_mul supply (num_div balance lpTokenSupply))
                    (pow10 decimals);
          pt_price := price; pt_logo := getTokenLogo chain symbol |}.

(** The btcCRV (Ren) branches; [tokenABI] is the chain's token ABI, and
    the pool's coins are read with [underlying_coins] (Polygon,
    Avalanche) or with [coins] (Fantom). *)
Definition curveRenToken (chain : EVMChain) (location : string)
    (status : TokenStatus) (address : Address) (owner : Address)
    (symbol : Symbol) (decimals : jsint) (balance : number)
    (tokenABI : ABI) (underlying : bool) : M AnyToken :=
  lpTokenSupply ← toNumber <$> query chain address lpABI m_totalSupply;
  let lpTokenSupply := num_div lpTokenSupply (pow10 decimals) in
  minter ← query chain address tokenABI m_minter;
  address0 ← (if underlying
              then query_at chain minter curve_minterABI (m_underlying_coins 0)
              else query_at chain minter curve_minterABI (m_coins 0));
  address1 ← (if underlying
              then query_at chain minter curve_minterABI (m_underlying_coins 1)
              else query_at chain minter curve_minterABI (m_coins 1));
  symbol0 ← query_at chain address0 minABI m_symbol;
  symbol1 ← query_at chain address1 minABI m_symbol;
  decimals0 ← parseInt <$> query_at chain address0 minABI m_decimals;
  decimals1 ← parseInt <$> query_at chain address1 minABI m_decimals;
  supply0 ← toNumber <$> query_at chain minter curve_minterABI (m_balances 0);
  let supply0 := num_div supply0 (pow10 decimals) in
  supply1 ← toNumber <$> query_at chain minter curve_minterABI (m_balances 1);
  let supply1 := num_div supply1 (pow10 decimals) in
  token0 ← curvePairedToken chain symbol0 address0 supply0 balance lpTokenSupply decimals0;
  token1 ← curvePairedToken chain symbol1 address1 supply1 balance lpTokenSupply decimals1;
  mret (curveLPToken chain location status owner symbol address balance token0 token1).

(** The am3CRV and g3CRV branches: the price is the minter's virtual
    price. *)
Definition curveVirtualPriceToken (chain : EVMChain) (location : string)
    (status : TokenStatus) (address : Address) (owner : Address)
    (symbol : Symbol) (decimals : jsint) (balance : number)
    (tokenABI : ABI) : M AnyToken :=
  let logo := getTokenLogo chain symbol in
  minter ← query chain address tokenABI m_minter;
  price ← parseInt <$> query_at chain minter curve_minterABI m_get_virtual_price;
  let price := num_div (int_to_number price) (pow10 decimals) in
  mret (curveToken chain location status owner symbol address balance price logo).

(** The crvUSDBTCETH (Atricrypto) branches of Polygon and Avalanche. *)
Definition curveAtricryptoToken (chain : EVMChain) (location : string)
    (status : TokenStatus) (address : Address) (owner : Address)
    (symbol : Symbol) (decimals : jsint) (balance : number)
    (tokenABI : ABI) : M AnyToken :=
  let logo := getTokenLogo chain symbol in
  lpTokenSupply ← toNumber <$> query chain address minABI m_totalSupply;
  let lpTokenSupply := num_div lpTokenSupply (pow10 decimals) in
  minter ← query chain address tokenABI m_minter;
  multiplier ← parseInt <$> query_at chain minter curve_minterABI m_get_virtual_price;
  let multiplier := num_div (int_to_number multiplier) (pow10 decimals) in
  address0 ← query_at chain minter curve_minterABI (m_coins 0);
  address1 ← query_at chain minter curve_minterABI (m_coins 1);
  address2 ← query_at chain minter curve_minterABI (m_coins 2);
  token0 ← query_at chain address0 tokenABI m_minter;
  token1 ← query_at chain address1 curve_intermediaryABI m_UNDERLYING_ASSET_ADDRESS;
  token2 ← query_at chain address2 curve_intermediaryABI m_UNDERLYING_ASSET_ADDRESS;
  let decimals0 := IntVal 18 in
  decimals1 ← parseInt <$> query_at chain token1 minABI m_decimals;
  decimals2 ← parseInt <$> query_at chain token2 minABI m_decimals;
  supply0 ← parseInt <$> query_at chain minter curve_minterABI (m_balances 0);
  let supply0 := num_div (int_to_number supply0) (pow10 decimals0) in
  supply1 ← parseInt <$> query_at chain minter curve_minterABI (m_balances 1);
  let supply1 := num_div (int_to_number supply1) (pow10 decimals1) in
  supply2 ← parseInt <$> query_at chain minter curve_minterABI (m_balances 2);
  let supply2 := num_div (int_to_number supply2) (pow10 decimals2) in
  price0 ← parseInt <$> query_at chain token0 curve_minterABI m_get_virtual_price;
  let price0 := num_div (int_to_number price0) (pow10 decimals0) in
  price1 ← getTokenPrice_at chain token1 decimals1;
  price2 ← getTokenPrice_at chain token2 decimals2;
  let price :=
    num_mul multiplier
      (num_div (num_add (num_add (num_mul supply0 price0) (num_mul supply1 price1))
                        (num_mul supply2 price2))
               lpTokenSupply) in
  mret (curveToken chain location status owner symbol address balance price logo).

(** The crvEURTUSD branch of Polygon. *)
Definition curveEURTUSDToken (chain : EVMChain) (location : string)
    (status : TokenStatus) (address : Address) (owner : Address)
    (symbol : Symbol) (decimals : jsint) (balance : number) : M AnyToken :=
  let logo := getTokenLogo chain symbol in
  lpTokenSupply ← toNumber <$> query chain address minABI m_totalSupply;
  let lpTokenSupply := num_div lpTokenSupply (pow10 decimals) in
  minter ← query chain address curve_polyTokenABI m_minter;
  multiplier ← parseInt <$> query_at chain minter curve_minterABI m_get_virtual_price;
  let multiplier := num_div (int_to_number multiplier) (pow10 decimals) in
  token0 ← query_at chain minter curve_minterABI (m_coins 0);
  address1 ← query_at chain minter curve_minterABI (m_coins 1);
  token1 ← query_at chain address1 curve_polyTokenABI m_minter;
  decimals0 ← parseInt <$> query_at chain token0 minABI m_decimals;
  let decimals1 := IntVal 18 in
  supply0 ← parseInt <$> query_at chain minter curve_minterABI (m_balances 0);
  let supply0 := num_div (int_to_number supply0) (pow10 decimals0) in
  supply1 ← parseInt <$> query_at chain minter curve_minterABI (m_balances 1);
  let supply1 := num_div (int_to_number supply1) (pow10 decimals1) in
  price0 ← getTokenPrice_at chain token0 decimals0;
  price1 ← parseInt <$> query_at chain token1 curve_minterABI m_get_virtual_price;
  let price1 := num_div (int_to_number price1) (pow10 decimals1) in
  let price :=
    num_mul multiplier
      (num_div (num_add (num_mul supply0 price0) (num_mul supply1 price1))
               lpTokenSupply) in
  mret (curveToken chain location status owner symbol address balance price logo).

(** The DAI+USDC (2pool) branch of Fantom: the token is its own pool. *)
Definition curve2poolToken (chain : EVMChain) (location : string)
    (status : TokenStatus) (address : Address) (owner : Address)
    (symbol : Symbol) (decimals : jsint) (balance : number) : M AnyToken :=
  lpTokenSupply ← toNumber <$> query chain address lpABI m_totalSupply;
  let lpTokenSupply := num_div lpTokenSupply (pow10 decimals) in
  address0 ← query chain address curve_ftmTokenABI (m_coins 0);
  address1 ← query chain address curve_ftmTokenABI (m_coins 1);
  symbol0 ← query_at chain address0 minABI m_symbol;
  symbol1 ← query_at chain address1 minABI m_symbol;
  decimals0 ← parseInt <$> query_at chain address0 minABI m_decimals;
  decimals1 ← parseInt <$> query_at chain address1 minABI m_decimals;
  supply0 ← toNumber <$> query chain address curve_ftmTokenABI (m_balances 0);
  let supply0 := num_div supply0 (pow10 decimals) in
  supply1 ← toNumber <$> query chain address curve_ftmTokenABI (m_balances 1);
  let supply1 := num_div supply1 (pow10 decimals) in
  token0 ← curvePairedToken chain symbol0 address0 supply0 balance lpTokenSupply decimals0;
  token1 ← curvePairedToken chain symbol1 address1 supply1 balance lpTokenSupply decimals1;
  mret (curveLPToken chain location status owner symbol address balance token0 token1).

(** The crv3crypto (Tricrypto) branch of Fantom. *)
Definition curveTricryptoToken (chain : EVMChain) (location : string)
    (status : TokenStatus) (address : Address) (owner : Address)
    (symbol : Symbol) (decimals : jsint) (balance : number) : M AnyToken :=
  let logo := getTokenLogo chain symbol in
  lpTokenSupply ← toNumber <$> query chain address minABI m_totalSupply;
  let lpTokenSupply := num_div lpTokenSupply (pow10 decimals) in
  minter ← query chain address curve_ftmTokenABI m_minter;
  multiplier ← parseInt <$> query_at chain minter curve_minterABI m_get_virtual_price;
  let multiplier := num_div (int_to_number multiplier) (pow10 decimals) in
  token0 ← query_at chain minter curve_minterABI (m_coins 0);
  token1 ← query_at chain minter curve_minterABI (m_coins 1);
  token2 ← query_at chain minter curve_minterABI (m_coins 2);
  decimals0 ← parseInt <$> query_at chain token0 minABI m_decimals;
  decimals1 ← parseInt <$> query_at chain token1 minABI m_decimals;
  decimals2 ← parseInt <$> query_at chain token2 minABI m_decimals;
  supply0 ← parseInt <$> query_at chain minter curve_minterABI (m_balances 0);
  let supply0 := num_div (int_to_number supply0) (pow10 decimals0) in
  supply1 ← parseInt <$> query_at chain minter curve_minterABI (m_balances 1);
  let supply1 := num_div (int_to_number supply1) (pow10 decimals1) in
  supply2 ← parseInt <$> query_at chain minter curve_minterABI (m_balances 2);
  let supply2 := num_div (int_to_number supply2) (pow10 decimals2) in
  price0 ← getTokenPrice_at chain token0 decimals0;
  price1 ← getTokenPrice_at chain token1 decimals1;
  price2 ← getTokenPrice_at chain token2 decimals2;
  let price :=
    num_mul multiplier
      (num_div (num_add (num_add (num_mul supply0 price0) (num_mul supply1 price1))
                        (num_mul supply2 price2))
               lpTokenSupply) in
  mret (curveToken chain location status owner symbol address balance price logo).

(** One side of the Ethereum pair branch: ETH itself, or a token read
    from the chain. *)
Definition curveEthSide (chain : EVMChain) (address : Address)
    : M (Symbol * jsint) :=
  if String.eqb (toLowerCase address) defaultAddress then
    mret (Some "ETH", IntVal 18)
  else
    decimals ← parseInt <$> query chain address minABI m_decimals;
    symbol ← query chain address minABI m_symbol;
    mret (symbol, decimals).

(** The Ethereum branch, up to its two [return]s; [None] when the
    branch falls through to "No Token Identified". *)
Definition curveEthToken (chain : EVMChain) (location : string)
    (status : TokenStatus) (address : Address) (rawBalance : number)
    (owner : Address) : M (option AnyToken) :=
  let registry : Address := "0x90E00ACe148ca3b23Ac1bC8C240C2a7Dd9c2d7f5" in
  decimals ← parseInt <$> query chain address minABI m_decimals;
  let balance := num_div rawBalance (pow10 decimals) in
  symbol ← query chain address minABI m_symbol;
  lpTokenSupply ← toNumber <$> query chain address minABI m_totalSupply;
  let lpTokenSupply := num_div lpTokenSupply (pow10 decimals) in
  poolAddress ← query chain registry curve_registryABI (m_get_pool_from_lp_token address);
  tokens ← query chain registry curve_registryABI (m_get_underlying_coins poolAddress);
  tokens ← defined "(...).filter" tokens;
  let tokens := filter (fun token => token ≠ zero) tokens in
  reserves ← query chain registry curve_registryABI (m_get_underlying_balances poolAddress);
  reserves ← defined "(...).filter" reserves;
  let reserves := filter (fun balance => balance ≠ 0%Z) reserves in
  multiplier ← parseInt <$> query chain registry curve_registryABI
                              (m_get_virtual_price_from_lp_token address);
  let multiplier := num_div (int_to_number multiplier) (pow10 decimals) in
  match tokens with
  | _ :: _ :: _ :: _ =>
      (* tokens.length > 2 *)
      let logo := getTokenLogo chain symbol in
      price ← curvePriceSum chain reserves 0 tokens (ofZ 0);
      let price := num_div price lpTokenSupply in
      let price := num_mul price multiplier in
      mret (Some (curveToken chain location status owner symbol address balance price logo))
  | [address0; address1] =>
      (* tokens.length === 2 *)
      '(symbol0, decimals0) ← curveEthSide chain address0;
      '(symbol1, decimals1) ← curveEthSide chain address1;
      price0 ← getTokenPrice chain address0 decimals0;
      let token0 :=
        {| pt_symbol := symbol0; pt_address := address0;
           pt_balance :=
             num_mul (num_div (int_to_number (parseIntAt reserves 0)) (pow10 (IntVal 18)))
                     (num_div balance lpTokenSupply);
           pt_price := price0; pt_logo := getTokenLogo chain symbol0 |} in
      price1 ← getTokenPrice chain address1 decimals1;
      let token1 :=
        {| pt_symbol := symbol1; pt_address := address1;
           pt_balance :=
             num_mul (num_div (int_to_number (parseIntAt reserves 1)) (pow10 (IntVal 18)))
                     (num_div balance lpTokenSupply);
           pt_price := price1; pt_logo := getTokenLogo chain symbol1 |} in
      mret (Some (curveLPToken chain location status owner symbol address balance token0 token1))
  | _ => mret None
  end.

(** The branches of Polygon, Fantom and Avalanche: each reads the
    symbol and decimals, then dispatches on the address. *)
Definition curveSideChainToken (chain : EVMChain) (location : string)
    (status : TokenStatus) (address : Address) (rawBalance : number)
    (owner : Address) : M (option AnyToken) :=
  symbol ← query chain address minABI m_symbol;
  decimals ← parseInt <$> query chain address minABI m_decimals;
  let balance := num_div rawBalance (pow10 decimals) in
  match chain with
  | poly =>
      if sameAddress address "0xdAD97F7713Ae9437fa9249920eC8507e5FbB23d3" then
        Some <$> curveAtricryptoToken chain location status address owner
                   symbol decimals balance curve_polyTokenABI
      else if sameAddress address "0xE7a24EF0C5e95Ffb0f6684b813A78F2a3AD7D171" then
        Some <$> curveVirtualPriceToken chain location status address owner
                   symbol decimals balance curve_polyTokenABI
      else if sameAddress address "0xf8a57c1d3b9629b77b6726a042ca48990A84Fb49" then
        Some <$> curveRenToken chain location status address owner
                   symbol decimals balance curve_polyTokenABI true
      else if sameAddress address "0x600743B1d8A96438bD46836fD34977a00293f6Aa" then
        Some <$> curveEURTUSDToken chain location status address owner
                   symbol decimals balance
      else mret None
  | ftm =>
      if sameAddress address "0x27E611FD27b276ACbd5Ffd632E5eAEBEC9761E40" then
        Some <$> curve2poolToken chain location status address owner
                   symbol decimals balance
      else if sameAddress address "0x92D5ebF3593a92888C25C0AbEF126583d4b5312E" then
        (* fUSDT+DAI+USDC: the logo is looked up before the symbol is replaced *)
        let logo := getTokenLogo chain symbol in
        let symbol := Some "fUSDTCRV" in
        price ← parseInt <$> query chain address curve_ftmTokenABI m_get_virtual_price;
        let price := num_div (int_to_number price) (pow10 decimals) in
        mret (Some (curveToken chain location status owner symbol address balance price logo))
      else if sameAddress address "0x5B5CFE992AdAC0C9D48E05854B2d91C73a003858" then
        Some <$> curveRenToken chain location status address owner
                   symbol decimals balance curve_ftmTokenABI false
      else if sameAddress address "0x58e57cA18B7A47112b877E31929798Cd3D703b0f" then
        Some <$> curveTricryptoToken chain location status address owner
                   symbol decimals balance
      else if sameAddress address "0xD02a30d33153877BC20e5721ee53DeDEE0422B2F" then
        Some <$> curveVirtualPriceToken chain location status address owner
                   symbol decimals balance curve_ftmTokenABI
      else mret None
  | avax =>
      if sameAddress address "0x1daB6560494B04473A0BE3E7D83CF3Fdf3a51828" then
        Some <$> curveAtricryptoToken chain location status address owner
                   symbol decimals balance curve_avaxTokenABI
      else if sameAddress address "0x1337BedC9D22ecbe766dF105c9623922A27963EC" then
        Some <$> curveVirtualPriceToken chain location status address owner
                   symbol decimals balance curve_avaxTokenABI
      else if sameAddress address "0xC2b1DF84112619D190193E48148000e3990Bf627" then
        Some <$> curveRenToken chain location status address owner
                   symbol decimals balance curve_avaxTokenABI true
      else mret None
  | _ => mret None
  end.

Definition addCurveToken (chain : EVMChain) (location : string)
    (status : TokenStatus) (address : Address) (rawBalance : number)
    (owner : Address) : M AnyToken :=
  identified ←
    match chain with
    | eth => curveEthToken chain location status address rawBalance owner
    | poly | ftm | avax =>
        curveSideChainToken chain location status address rawBalance owner
    | _ => mret None
    end;
  match identified with
  | Some newToken => mret newToken
  | None =>
      (* No Token Identified *)
      console_log (UnidentifiedCurveToken address);;
      mret (IsToken (unidentifiedToken chain location owner address))
  end.

End Engine.

(* ===================================================================== *)
(** ** The project balance dispatcher ([getProjectBalance]) *)
(* ===================================================================== *)

Section Dispatcher.

Variable W : World.

(** [(await import(`./projects/${chain}/${project}`)).get]: the module
    registry. *)
Variable dapp : EVMChain -> string -> Address -> M (list AnyToken).

Definition getProjectBalance (chain : EVMChain) (wallet : Address)
    (project : string) : M (list AnyToken) :=
  let projectBalance : list AnyToken := [] in
  if existsb (String.eqb project) (projects W chain) then
    balance ← dapp chain project wallet;
    mret (projectBalance ++ balance)
  else
    console_log (InvalidProject project (toUpperCase (chain_name chain)));;
    mret projectBalance.

End Dispatcher.

(* ===================================================================== *)
(** ** Project handlers *)
(* ===================================================================== *)

(** The [try] block of a handler's [get]: one
    [balance.push(...(await step(wallet)))] per step.  It yields the
    array [balance] as the block left it, and whether the block was left
    by an exception. *)
Fixpoint tryPushAll (steps : list (M (list AnyToken)))
    (balance : list AnyToken) (s : Store) : list AnyToken * bool * Store :=
  match steps with
  | [] => (balance, false, s)
  | step :: rest =>
      match step s with
      | (Ok found, s') => tryPushAll rest (balance ++ found) s'
      | (Throw _, s') => (balance, true, s')
      end
  end.

(** [get] of a handler: the [try] block over an empty [balance], the
    [catch] that writes to the console, and [return balance]. *)
Definition handlerGet (chain : EVMChain) (project : string)
    (steps : list (M (list AnyToken))) : M (list AnyToken) := fun s =>
  match tryPushAll steps [] s with
  | (balance, true, s') =>
      (Ok balance,
       logged s' (FetchError project (toUpperCase (chain_name chain))))
  | (balance, false, s') => (Ok balance, s')
  end.

(** [a > 0] for a [parseInt] result. *)
Definition int_gt0 (a : jsint) : bool :=
  match a with IntVal z => (0 <? z)%Z | IntNaN => false end.

(** [projects/poly/iron.ts]. *)
Module Iron.
Section Handler.

Variable W : World.

Definition chain : EVMChain := poly.
Definition project : string := "iron".
Definition registry : Address := "0x1fD1259Fa8CdC60c6E8C86cfA592CA1b8403DFaD".
Definition lending : Address := "0xF20fcd005AFDd3AD48C85d0222210fe168DDd10c".
Definition blueice : Address := "0xB1Bf26c7B43D2485Fa07694583d2F17Df0DDe010".
Definition ice : Address := "0x4A81f8796e0c6Ad4877A51C86693B0dE8093F2ef".

(** [getFarmBalances] and [getMarketBalances] fan out over the farms
    and markets with [Promise.all]; [get] observes of each only its
    outcome, a list of tokens or a rejection. *)
Variable getFarmBalances : Address -> M (list AnyToken).
Variable getMarketBalances : Address -> M (list AnyToken).

Definition getMarketRewards (wallet : Address) : M (list AnyToken) :=
  rewards ← parseInt <$> query W chain lending iron_lendingABI (m_rewardAccrued wallet);
  if int_gt0 rewards then
    newToken ← addToken W chain project st_unclaimed ice (int_to_number rewards) wallet;
    mret [IsToken newToken]
  else
    mret [].

Definition getStakedICE (wallet : Address) : M (list AnyToken) :=
  balance ← parseInt <$> query W chain blueice minABI (m_balanceOf wallet);
  if int_gt0 balance then
    locked ← query W chain blueice iron_stakingABI (m_locked wallet);
    locked ← defined "locked.amount" locked;
    newToken ← addXToken W chain project st_staked blueice (int_to_number balance)
                 wallet ice (ofZ (lk_amount locked));
    mret [IsXToken
            {| x_type := x_type newToken; x_chain := x_chain newToken;
               x_location := x_location newToken; x_status := x_status newToken;
               x_owner := x_owner newToken; x_symbol := x_symbol newToken;
               x_address := x_address newToken; x_balance := x_balance newToken;
               x_logo := x_logo newToken;
               x_underlyingToken := x_underlyingToken newToken;
               x_info := Some (IntVal (lk_end locked)) |}]
  else
    mret [].

Definition get (wallet : Address) : M (list AnyToken) :=
  handlerGet chain project
    [ getFarmBalances wallet;
      getMarketBalances wallet;
      getMarketRewards wallet;
      getStakedICE wallet ].

End Handler.
End Iron.

(** [projects/poly/pooltogether.ts] and [projects/eth/pooltogether.ts],
    which differ in their three constants. *)
Module PoolTogether.
Section Handler.

Variable W : World.
Variables (chain : EVMChain) (poolV4 usdc : Address).

Definition project : string := "pooltogether".

Definition getPoolBalanceV4 (wallet : Address) : M (list AnyToken) :=
  balance ← parseInt <$> query W chain poolV4 minABI (m_balanceOf wallet);
  if int_gt0 balance then
    newToken ← addToken W chain project st_staked usdc (int_to_number balance) wallet;
    mret [IsToken newToken]
  else
    mret [].

Definition get (wallet : Address) : M (list AnyToken) :=
  handlerGet chain project [ getPoolBalanceV4 wallet ].

End Handler.

Definition get_poly (W : World) : Address -> M (list AnyToken) :=
  get W poly "0x6a304dFdb9f808741244b6bfEe65ca7B3b3A6076"
      "0x2791Bca1f2de4661ED88A30C99A7a9449Aa84174".

Definition get_eth (W : World) : Address -> M (list AnyToken) :=
  get W eth "0xdd4d117723C257CEe402285D3aCF218E9A8236E1"
      "0xA0b86991c6218b36c1d19D4a2e9Eb0cE3606eB48".

End PoolTogether.

(* ===================================================================== *)
(** ** The arithmetic of [addLPToken] in binary64 *)
(* ===================================================================== *)

(** The numbers [addLPToken] computes, each operation rounded as
    JavaScript rounds it (IEEE 754 binary64, round to nearest, ties to
    even).  The inputs are the numbers the function holds once its
    reads are done: the raw balance, the total supply and the two
    reserves, and the three powers of ten [10 ** decimals],
    [10 ** decimals0] and [10 ** decimals1] (ECMAScript leaves the last
    bits of [**] to the implementation, so the powers are inputs; the
    powers of ten up to [10 ** 22] are exact in binary64). *)
Module Binary64.
Import PrimFloat.

Record LPNumbers := {
  balance : float;          (* rawBalance / (10 ** decimals) *)
  lpTokenSupply : float;    (* totalSupply / (10 ** decimals) *)
  supply0 : float;          (* lpTokenReserves[0] / (10 ** decimals0) *)
  supply1 : float;          (* lpTokenReserves[1] / (10 ** decimals1) *)
  balance0 : float;         (* token0.balance *)
  balance1 : float          (* token1.balance *)
}.

Definition addLPToken_numbers
    (rawBalance totalSupply reserve0 reserve1 pow pow0 pow1 : float)
    : LPNumbers :=
  let balance := (rawBalance / pow)%float in
  let lpTokenSupply := (totalSupply / pow)%float in
  let supply0 := (reserve0 / pow0)%float in
  let supply1 := (reserve1 / pow1)%float in
  {| balance := balance;
     lpTokenSupply := lpTokenSupply;
     supply0 := supply0;
     supply1 := supply1;
     balance0 := (supply0 * (balance / lpTokenSupply))%float;
     balance1 := (supply1 * (balance / lpTokenSupply))%float |}.

End Binary64.

(* ===================================================================== *)
(** ** Notions used in the statements *)
(* ===================================================================== *)

(** The console of a [query] call that was abandoned. *)
Definition abandoned_console (chain : EVMChain) (address : Address)
    (method : string) (args : list JsVal) : list Diagnostic :=
  if isIgnored chain address then []
  else [QueryError method args address (toUpperCase (chain_name chain))].

(** [raw / 10^d] as an exact rational: the normalized amount of a raw
    integer amount [raw] of a token with [d] decimals. *)
Definition normalized (raw d : Z) : Qc :=
  (Q2Qc (inject_Z raw) / Q2Qc (Qpower (inject_Z 10) d))%Qc.

(** The decimals [addLPToken] uses for one side of a pair: the catalog
    entry of that side's address, or else the [decimals()] read. *)
Definition pairedDecimals (W : World) (chain : EVMChain) (address : Address)
    : jsint :=
  match getTrackedTokenInfo W chain address with
  | Some t => IntVal (td_decimals t)
  | None => parseInt (onchain W chain address m_decimals)
  end.

Definition pairedSymbol (W : World) (chain : EVMChain) (address : Address)
    : Symbol :=
  match getTrackedTokenInfo W chain address with
  | Some t => Some (td_symbol t)
  | None => onchain W chain address m_symbol
  end.

(** The trace entry of a read. *)
Definition readOf (chain : EVMChain) (address : Address) (abi : ABI)
    (m : Method) : QueryRecord :=
  {| qr_chain := chain; qr_address := Some address; qr_abi := abi;
     qr_method := m |}.

(** The addresses for which [addCurveToken] has a branch, per chain
    (Ethereum dispatches on the registry's answer instead). *)
Definition knownCurveTokens (chain : EVMChain) : list Address :=
  match chain with
  | poly =>
      [ "0xdAD97F7713Ae9437fa9249920eC8507e5FbB23d3";
        "0xE7a24EF0C5e95Ffb0f6684b813A78F2a3AD7D171";
        "0xf8a57c1d3b9629b77b6726a042ca48990A84Fb49";
        "0x600743B1d8A96438bD46836fD34977a00293f6Aa" ]
  | ftm =>
      [ "0x27E611FD27b276ACbd5Ffd632E5eAEBEC9761E40";
        "0x92D5ebF3593a92888C25C0AbEF126583d4b5312E";
        "0x5B5CFE992AdAC0C9D48E05854B2d91C73a003858";
        "0x58e57cA18B7A47112b877E31929798Cd3D703b0f";
        "0xD02a30d33153877BC20e5721ee53DeDEE0422B2F" ]
  | avax =>
      [ "0x1daB6560494B04473A0BE3E7D83CF3Fdf3a51828";
        "0x1337BedC9D22ecbe766dF105c9623922A27963EC";
        "0xC2b1DF84112619D190193E48148000e3990Bf627" ]
  | _ => []
  end.

Definition matchesNoCurveRule (chain : EVMChain) (address : Address) : bool :=
  forallb (fun literal => negb (sameAddress address literal))
          (knownCurveTokens chain).

(** [allFound steps s founds s']: run in turn from the store [s], every
    step returns; [founds] are the lists they return and [s'] is the
    store they leave. *)
Inductive allFound :
  list (M (list AnyToken)) -> Store -> list (list AnyToken) -> Store -> Prop :=
| allFound_nil (s : Store) : allFound [] s [] s
| allFound_cons (step : M (list AnyToken)) (rest : list (M (list AnyToken)))
    (s s1 s2 : Store) (found : list AnyToken) (founds : list (list AnyToken)) :
    step s = (Ok found, s1) ->
    allFound rest s1 founds s2 ->
    allFound (step :: rest) s (found :: founds) s2.

(** A computation is repeatable when it only ever adds to the price
    cache, and when any later run, from a store whose cache extends the
    one it left, has the same outcome and leaves the cache as it found
    it. *)
Definition repeatable {A : Type} (m : M A) : Prop :=
  forall s : Store,
  exists (r : Res A) (s1 : Store),
    m s = (r, s1)
    /\ priceCache s ⊆ priceCache s1
    /\ forall s2 : Store,
         priceCache s1 ⊆ priceCache s2 ->
         exists s2' : Store,
           m s2 = (r, s2') /\ priceCache s2' = priceCache s2.

(* ===================================================================== *)
(** ** Sample inputs *)
(* ===================================================================== *)

(** The address of some token contract. *)
Definition sample_token : Address := "0x1111111111111111111111111111111111111111".

(** A network on which every attempt throws. *)
Definition unreachable
    (n : nat) (u : option URL) (a : Address) (abi : ABI) (m : string)
    (args : list JsVal) : Outcome := Throws.

(** A network on which [decimals()] decodes to the number 0 (a token
    with no decimal places) at every endpoint. *)
Definition zero_decimals
    (n : nat) (u : option URL) (a : Address) (abi : ABI) (m : string)
    (args : list JsVal) : Outcome := Returns (VNumber (ofZ 0)).

Definition two_endpoints (c : EVMChain) : list URL :=
  ["https://rpc-a.example"; "https://rpc-b.example"].

Definition no_endpoints (c : EVMChain) : list URL := [].

Definition sample_wallet : Address := "0x5f5b35611f822a83578347e41fee3ca13a7a6436".
Definition sample_pair : Address := "0x34965ba0ac2451A34a0471F04CCa3F990b8dea27".
Definition sample_tokenA : Address := "0x7ceB23fD6bC0adD59E62ac25578270cFf1b9f619".
Definition sample_tokenB : Address := "0x2791Bca1f2de4661ED88A30C99A7a9449Aa84174".
Definition sample_tokenC : Address := "0x8f3Cf7ad23Cd3CaDbD9735AFf958023239c6A063".
Definition sample_vault : Address := "0xBA12222222228d8Ba445958a75a0704d566BF2C8".
Definition sample_pool3 : Address := "0x06Df3b2bbB68adc8B0e302443692037ED9f91b42".
Definition sample_empty_pool : Address := "0x0297e37f1873D2DAb4487Aa67cD56B58E2F27875".

Definition sample_usdc : TokenData :=
  {| td_symbol := "USDC"; td_address := sample_tokenB; td_decimals := 6;
     td_logo := "https://example.org/usdc.png" |}.

Definition sample_no_tokens : ChainTokenData :=
  {| cd_tokens := []; cd_logos := [] |}.

(** A pair with reserves of 5 and 7 tokens and the given total supply;
    a Balancer pool of three assets and one without tokens; a staking
    contract whose [locked] read is abandoned. *)
Definition sample_onchain (supply : Z) (chain : EVMChain) (address : Address)
    (m : Method) : option (ret m) :=
  match m return option (ret m) with
  | m_symbol => Some "SMPL"
  | m_decimals => Some 18%Z
  | m_totalSupply => Some supply
  | m_balanceOf _ => Some 2000000000000000000%Z
  | m_getReserves => Some (5000000000000000000, 7000000000000000000)%Z
  | m_token0 => Some sample_tokenA
  | m_token1 => Some sample_tokenC
  | m_getPoolTokens id =>
      if String.eqb id sample_pool3 then
        Some {| pi_tokens := [sample_tokenA; sample_tokenB; sample_tokenC];
                pi_balances := [1000000000000000000; 2000000; 3000000000000000000]%Z |}
      else
        Some {| pi_tokens := []; pi_balances := [] |}
  | m_rewardAccrued _ => Some 0%Z
  | _ => None
  end.

Definition sample_world (supply : Z) : World :=
  {| eth_data := sample_no_tokens;
     bsc_data := sample_no_tokens;
     poly_data := {| cd_tokens := [sample_usdc]; cd_logos := [] |};
     ftm_data := sample_no_tokens;
     avax_data := sample_no_tokens;
     one_data := sample_no_tokens;
     cronos_data := sample_no_tokens;
     projects := fun _ => ["iron"; "pooltogether"];
     onchain := sample_onchain supply;
     priceSource := fun _ _ _ => ofZ 2 |}.

(** Sample steps of a handler: a farm position, and no market position. *)
Definition sample_farm_token : AnyToken :=
  IsToken {| t_type := ty_token; t_chain := poly; t_location := "iron";
             t_status := st_staked; t_owner := sample_wallet;
             t_symbol := Some "IS3USD";
             t_address := "0xb4d09ff3dA7f9e9A2BA029cb0A81A989fd7B8f17";
             t_balance := ofZ 3; t_price := ofZ 1;
             t_logo := defaultTokenLogo |}.

Definition sample_getFarmBalances (wallet : Address) : M (list AnyToken) :=
  mret [sample_farm_token].

Definition sample_getMarketBalances (wallet : Address) : M (list AnyToken) :=
  mret [].

(** A module registry in which no module can be loaded. *)
Definition sample_dapp (chain : EVMChain) (project : string)
    (wallet : Address) : M (list AnyToken) :=
  throw (Rejected "Cannot find module").

(* ===================================================================== *)
(** ** The wallet's native balance and staked-share tokens *)
(* ===================================================================== *)

Section NativeAndStaked.

Variable W : World.

Definition addNativeToken (chain : EVMChain) (rawBalance : number)
    (owner : Address) : M Token :=
  let address := defaultAddress in
  let decimals := IntVal 18 in
  let balance := num_div rawBalance (pow10 decimals) in
  price ← getTokenPrice W chain defaultAddress decimals;
  let symbol := getNativeTokenSymbol chain in
  let logo := getTokenLogo W chain (Some symbol) in
  mret {| t_type := ty_nativeToken; t_chain := chain; t_location := "wallet";
          t_status := st_none; t_owner := owner; t_symbol := Some symbol;
          t_address := address; t_balance := balance; t_price := price;
          t_logo := logo |}.

Definition addSpookyToken (chain : EVMChain) (location : string)
    (status : TokenStatus) (rawBalance : number) (owner : Address)
    : M XToken :=
  let xboo : Address := "0xa48d959AE2E88f1dAA7D5F611E01908106dE7598" in
  let boo : Address := "0x841FAD6EAe12c286d1Fd18d1d525DFfA75C7EFFE" in
  booStaked ← parseInt <$> query W chain boo minABI (m_balanceOf xboo);
  xbooSupply ← parseInt <$> query W chain xboo minABI m_totalSupply;
  addXToken W chain location status xboo rawBalance owner boo
    (num_mul rawBalance
       (num_div (int_to_number booStaked) (int_to_number xbooSupply))).

End NativeAndStaked.

(** [getWalletNativeTokenBalance] and [getWalletBalance].  The loop is
    that of [query] with two differences: the [catch] goes back to the
    first endpoint at the end of every pass, and it writes nothing. *)
Module WalletNative.
Section Balance.

Variable W : World.

(** [chains[chain].rpcs]. *)
Variable rpcs : EVMChain -> list URL.

(** The network: what [provider.getBalance(wallet)] answers at the
    [n]-th attempt (counted from 0) when sent to the given endpoint: the
    balance in wei, or [None] when the call throws. *)
Variable getBalance : nat -> option URL -> Address -> option Z.

(** [getWalletTokenBalance] fans out over the catalog with one multicall
    and [Promise.all]; [getWalletBalance] observes only its outcome. *)
Variable getWalletTokenBalance : EVMChain -> Address -> M (list AnyToken).

(** The local variables of the loop ([balance] is [undefined] until an
    attempt answers), with a count of the attempts made. *)
Record Locals := {
  balance : option Z;
  errors : nat;
  rpcID : nat;
  attempts : nat
}.

Definition init : Locals :=
  {| balance := None; errors := 0; rpcID := 0; attempts := 0 |}.

(** [!balance]: [undefined] and the number 0 are not truthy. *)
Definition falsy (balance : option Z) : bool :=
  match balance with
  | None => true
  | Some z => (z =? 0)%Z
  end.

(** The loop condition [!balance && errors < maxQueryRetries]. *)
Definition continues (st : Locals) : bool :=
  falsy (balance st) && (errors st <? maxQueryRetries)%nat.

(** One execution of the loop body. *)
Definition body (chain : EVMChain) (wallet : Address) (st : Locals)
    : Locals :=
  match getBalance (attempts st) (rpcs chain !! rpcID st) wallet with
  | Some z =>
      {| balance := Some z; errors := errors st; rpcID := rpcID st;
         attempts := S (attempts st) |}
  | None =>
      let rpcID' := S (rpcID st) in
      if (length (rpcs chain) <=? rpcID')%nat then
        {| balance := balance st; errors := S (errors st); rpcID := 0;
           attempts := S (attempts st) |}
      else
        {| balance := balance st; errors := errors st; rpcID := rpcID';
           attempts := S (attempts st) |}
  end.

(** The [while] loop; [None] when [fuel] iterations do not end it. *)
Fixpoint loop (fuel : nat) (chain : EVMChain) (wallet : Address)
    (st : Locals) : option Locals :=
  if continues st then
    match fuel with
    | O => None
    | S fuel' => loop fuel' chain wallet (body chain wallet st)
    end
  else Some st.

(** [getWalletNativeTokenBalance]: [None] when the loop is still running
    after [fuel] iterations, and otherwise what follows the loop. *)
Definition getWalletNativeTokenBalance (fuel : nat) (chain : EVMChain)
    (wallet : Address) : option (M (list AnyToken)) :=
  match loop fuel chain wallet init with
  | Some st =>
      Some (match balance st with
            | Some z =>
                if negb (falsy (Some z)) && (0 <? z)%Z then
                  newToken ← addNativeToken W chain (ofZ z) wallet;
                  mret [IsToken newToken]
                else mret []
            | None => mret []
            end)
  | None => None
  end.

Definition getWalletBalance (fuel : nat) (chain : EVMChain)
    (wallet : Address) : option (M (list AnyToken)) :=
  match getWalletNativeTokenBalance fuel chain wallet with
  | Some native =>
      Some (let walletBalance : list AnyToken := [] in
            found ← native;
            let walletBalance := walletBalance ++ found in
            tokens ← getWalletTokenBalance chain wallet;
            mret (walletBalance ++ tokens))
  | None => None
  end.

End Balance.
End WalletNative.

(* ===================================================================== *)
(** ** Further notions used in the statements *)
(* ===================================================================== *)

(** A token with its type and status set as [addDebtToken] sets them. *)
Definition asDebt (t : Token) : Token :=
  {| t_type := ty_debt; t_chain := t_chain t; t_location := t_location t;
     t_status := st_borrowed; t_owner := t_owner t; t_symbol := t_symbol t;
     t_address := t_address t; t_balance := t_balance t;
     t_price := t_price t; t_logo := t_logo t |}.

(** The reads [addToken] and [addDebtToken] make for an address: none
    for the native address and for a catalog token, and otherwise
    [symbol()] and [decimals()]. *)
Definition tokenInfoReads (W : World) (chain : EVMChain) (address : Address)
    : list QueryRecord :=
  if String.eqb (toLowerCase address) defaultAddress then []
  else match getTrackedTokenInfo W chain address with
       | Some _ => []
       | None => [readOf chain address minABI m_symbol;
                  readOf chain address minABI m_decimals]
       end.

(** The decimals [addToken] and [addDebtToken] resolve for an address:
    18 for the native address, the catalog's for a catalog token, and
    otherwise the [decimals()] read ([NaN] when it was abandoned). *)
Definition tokenDecimals (W : World) (chain : EVMChain) (address : Address)
    : jsint :=
  if String.eqb (toLowerCase address) defaultAddress then IntVal 18
  else match getTrackedTokenInfo W chain address with
       | Some token => IntVal (td_decimals token)
       | None => parseInt (onchain W chain address m_decimals)
       end.

(** A computation is silent when it writes nothing to the console,
    whether it returns or throws. *)
Definition silent {A : Type} (m : M A) : Prop :=
  forall s : Store, consoleLog (snd (m s)) = consoleLog s.

(** The Curve registry of Ethereum. *)
Definition curveRegistry : Address :=
  "0x90E00ACe148ca3b23Ac1bC8C240C2a7Dd9c2d7f5".

(** The underlying coins and balances the registry lists for an LP
    token, without their zero entries; [None] when the list cannot be
    read. *)
Definition registryCoins (W : World) (address : Address)
    : option (list Address) :=
  filter (fun token => token ≠ zero) <$>
    onchain W eth curveRegistry
      (m_get_underlying_coins
         (onchain W eth curveRegistry (m_get_pool_from_lp_token address))).

Definition registryBalances (W : World) (address : Address)
    : option (list Z) :=
  filter (fun balance => balance ≠ 0%Z) <$>
    onchain W eth curveRegistry
      (m_get_underlying_balances
         (onchain W eth curveRegistry (m_get_pool_from_lp_token address))).

(* ===================================================================== *)
(** ** Further sample inputs *)
(* ===================================================================== *)

(** A network on which the attempts before the [m]-th throw, and the
    later ones decode [v]. *)
Definition answers_from (m : nat) (v : JsVal)
    (n : nat) (u : option URL) (a : Address) (abi : ABI) (method : string)
    (args : list JsVal) : Outcome :=
  if (n <? m)%nat then Throws else Returns v.

(** A network on which the first attempt decodes the number 0 and every
    later attempt throws. *)
Definition zero_then_throws
    (n : nat) (u : option URL) (a : Address) (abi : ABI) (method : string)
    (args : list JsVal) : Outcome :=
  match n with
  | O => Returns (VNumber (ofZ 0))
  | S _ => Throws
  end.

(** Balance queries: a node that never answers, a wallet without native
    coins, and a wallet holding [z] wei seen by the second endpoint
    only. *)
Definition no_answer (n : nat) (u : option URL) (wallet : Address)
    : option Z := None.

Definition empty_wallet (n : nat) (u : option URL) (wallet : Address)
    : option Z := Some 0%Z.

Definition funded_wallet (z : Z) (n : nat) (u : option URL)
    (wallet : Address) : option Z :=
  if (n <? 1)%nat then None else Some z.

Definition sample_getWalletTokenBalance (chain : EVMChain)
    (wallet : Address) : M (list AnyToken) :=
  mret [].

(** A Balancer pool of two assets, and a Curve LP token of Ethereum
    whose pool holds two coins, the first with an empty reserve. *)
Definition sample_pool2 : Address := "0x0b09deA16768f0799065C475bE02919503cB2a35".
Definition sample_curve_pool : Address := "0xDC24316b9AE028F1497c275EB9192a3Ea0f67022".

Definition sample_onchain2 (chain : EVMChain) (address : Address)
    (m : Method) : option (ret m) :=
  match m return option (ret m) with
  | m_symbol => Some "SMPL"
  | m_decimals => Some 18%Z
  | m_totalSupply => Some 4000000000000000000%Z
  | m_balanceOf _ => Some 1000000%Z
  | m_getPoolTokens id =>
      Some {| pi_tokens := [sample_tokenA; sample_tokenC];
              pi_balances := [6000000000000000000; 8000000000000000000]%Z |}
  | m_get_pool_from_lp_token _ => Some sample_curve_pool
  | m_get_underlying_coins _ =>
      Some [sample_tokenA; sample_tokenC; zero; zero]
  | m_get_underlying_balances _ =>
      Some [0; 9000000000000000000; 0; 0]%Z
  | m_get_virtual_price_from_lp_token _ => Some 1000000000000000000%Z
  | m_locked _ => Some {| lk_amount := 5000000000000000000; lk_end := 1700000000 |}
  | m_rewardAccrued _ => Some 0%Z
  | _ => None
  end.

Definition sample_world2 : World :=
  {| eth_data := sample_no_tokens;
     bsc_data := sample_no_tokens;
     poly_data := {| cd_tokens := [sample_usdc]; cd_logos := [] |};
     ftm_data := sample_no_tokens;
     avax_data := sample_no_tokens;
     one_data := sample_no_tokens;
     cronos_data := sample_no_tokens;
     projects := fun _ => ["iron"; "pooltogether"];
     onchain := sample_onchain2;
     priceSource := fun _ _ _ => ofZ 2 |}.

(** The sample chain state when the Curve registry knows no pool: every
    slot of its coin and balance lists is zero. *)
Definition sample_onchain_unlisted (chain : EVMChain) (address : Address)
    (m : Method) : option (ret m) :=
  match m as m' return option (ret m') with
  | m_get_underlying_coins _ => Some [zero; zero; zero; zero]
  | m_get_underlying_balances _ => Some [0; 0; 0; 0]%Z
  | m_get_pool_from_lp_token _ => Some zero
  | other => sample_onchain2 chain address other
  end.

Definition sample_world_unlisted : World :=
  {| eth_data := sample_no_tokens;
     bsc_data := sample_no_tokens;
     poly_data := sample_no_tokens;
     ftm_data := sample_no_tokens;
     avax_data := sample_no_tokens;
     one_data := sample_no_tokens;
     cronos_data := sample_no_tokens;
     projects := fun _ => [];
     onchain := sample_onchain_unlisted;
     priceSource := fun _ _ _ => ofZ 2 |}.

(** A module registry whose every handler finds one position. *)
Definition sample_dapp_found (chain : EVMChain) (project : string)
    (wallet : Address) : M (list AnyToken) :=
  mret [sample_farm_token].

(** A module registry of handlers of the source's shape: under every
    name, the two steps of Iron that are modelled. *)
Definition sample_handlers (W : World) (chain : EVMChain) (project : string)
    (wallet : Address) : M (list AnyToken) :=
  handlerGet chain project
    [ Iron.getMarketRewards W wallet; Iron.getStakedICE W wallet ].

(* ===================================================================== *)
(** * Properties *)
(* ===================================================================== *)

Lemma chain_eqb_spec a b : reflect (a = b) (chain_eqb a b).
Proof. destruct a, b; simpl; constructor; congruence. Qed.

(* --------------------------------------------------------------------- *)
(** ** The query executor *)
(* --------------------------------------------------------------------- *)

Module QueryExecutorFacts.
Import QueryExecutor.

Section Failing.

Variable rpcs : EVMChain -> list URL.
Variable contract_call :
  nat -> option URL -> Address -> ABI -> string -> list JsVal -> Outcome.
Variables (chain : EVMChain) (address : Address) (abi : ABI)
          (method : string) (args : list JsVal).

Hypothesis always_throws :
  forall n u, contract_call n u address abi method args = Throws.

(** From any point of the three passes, an always-throwing call uses up
    the attempts that are left and is then abandoned. *)
Lemma loop_always_throws (fuel : nat) :
  forall (st : Locals) (left : nat),
    result st = VUndefined ->
    (errors st < 3)%nat ->
    (rpcID st < Nat.max 1 (length (rpcs chain)))%nat ->
    left = ((3 - errors st) * Nat.max 1 (length (rpcs chain)) - rpcID st)%nat ->
    (left <= fuel)%nat ->
    exists st',
      loop rpcs contract_call fuel chain address abi method args st = Some st'
      /\ result st' = VUndefined
      /\ attempts st' = (attempts st + left)%nat
      /\ console st' = console st ++ abandoned_console chain address method args.
Proof.
  induction fuel as [|fuel IH]; intros st left Hres Herr Hrpc Hleft Hfuel.
  - exfalso. destruct (errors st) as [|[|[|e]]]; simpl in Hleft; lia.
  - simpl. unfold continues. rewrite Hres. simpl.
    assert (Hlt : (errors st <? maxQueryRetries)%nat = true)
      by (apply Nat.ltb_lt; unfold maxQueryRetries; lia).
    rewrite Hlt. unfold body. rewrite always_throws.
    destruct (Nat.leb_spec (length (rpcs chain)) (S (rpcID st))) as [Hwrap|Hin].
    + destruct (Nat.leb_spec maxQueryRetries (S (errors st))) as [Hlast|Hmore];
        unfold maxQueryRetries in *.
      * (* the last endpoint of the third pass *)
        assert (He : errors st = 2%nat) by lia.
        rewrite He in Hleft. simpl in Hleft.
        destruct fuel as [|fuel']; simpl; unfold continues; simpl;
          rewrite Hres, He; simpl;
          (eexists; split; [reflexivity|]; simpl;
           split; [reflexivity|]; split; [lia|];
           unfold abandoned_console;
           destruct (isIgnored chain address);
           [rewrite app_nil_r|]; reflexivity).
      * (* the last endpoint of an earlier pass: back to endpoint 0 *)
        destruct (IH {| result := result st; errors := S (errors st);
                        rpcID := 0; attempts := S (attempts st);
                        console := console st |} (left - 1)%nat)
          as (st' & Hrun & Hr & Ha & Hc); simpl;
          try assumption; try lia.
        exists st'. split; [exact Hrun|]. split; [exact Hr|].
        split; [|exact Hc]. simpl in Ha. rewrite Ha.
        destruct (errors st) as [|[|[|e]]]; simpl in *; lia.
    + (* the next endpoint of the same pass *)
      destruct (IH {| result := result st; errors := errors st;
                      rpcID := S (rpcID st); attempts := S (attempts st);
                      console := console st |} (left - 1)%nat)
        as (st' & Hrun & Hr & Ha & Hc); simpl;
        try assumption; try lia.
      exists st'. split; [exact Hrun|]. split; [exact Hr|].
      split; [|exact Hc]. simpl in Ha. rewrite Ha.
      destruct (errors st) as [|[|[|e]]]; simpl in *; lia.
Qed.

End Failing.

Section Succeeding.

Variable rpcs : EVMChain -> list URL.
Variable contract_call :
  nat -> option URL -> Address -> ABI -> string -> list JsVal -> Outcome.
Variables (chain : EVMChain) (address : Address) (abi : ABI)
          (method : string) (args : list JsVal).

(** While the first endpoints throw, the loop walks down the list. *)
Lemma loop_first_success (k : nat) (v : JsVal) :
  (k < length (rpcs chain))%nat ->
  (forall i, (i < k)%nat ->
     contract_call i (rpcs chain !! i) address abi method args = Throws) ->
  contract_call k (rpcs chain !! k) address abi method args = Returns v ->
  truthy v = true ->
  forall (fuel j : nat) (log : list Diagnostic),
    (j <= k)%nat -> (k - j < fuel)%nat ->
    loop rpcs contract_call fuel chain address abi method args
         {| result := VUndefined; errors := 0; rpcID := j;
            attempts := j; console := log |}
    = Some {| result := v; errors := 0; rpcID := k;
              attempts := S k; console := log |}.
Proof.
  intros Hk Hthrow Hret Htruthy.
  induction fuel as [|fuel IH]; intros j log Hj Hfuel; [lia|].
  simpl. unfold continues. simpl. unfold body. simpl.
  destruct (Nat.eq_dec j k) as [->|Hne].
  - rewrite Hret.
    destruct fuel; simpl; unfold continues; simpl; rewrite Htruthy;
      reflexivity.
  - rewrite (Hthrow j) by lia.
    destruct (Nat.leb_spec (length (rpcs chain)) (S j)); [lia|].
    apply IH; lia.
Qed.

(** A value that is not truthy does not end the loop and moves none of
    its counters: if every attempt decodes such a value, no amount of
    fuel ends the loop. *)
Lemma loop_falsy_forever :
  (forall n u, exists v,
      contract_call n u address abi method args = Returns v
      /\ truthy v = false) ->
  forall (fuel : nat) (st : Locals),
    truthy (result st) = false ->
    (errors st < maxQueryRetries)%nat ->
    loop rpcs contract_call fuel chain address abi method args st = None.
Proof.
  intros Hfalsy.
  induction fuel as [|fuel IH]; intros st Hres Herr; simpl;
    unfold continues; rewrite Hres; simpl;
    apply Nat.ltb_lt in Herr as Hlt; rewrite Hlt; [reflexivity|].
  unfold body.
  destruct (Hfalsy (attempts st) (rpcs chain !! rpcID st)) as (v & -> & Hv).
  apply IH; simpl; assumption.
Qed.

(** Every execution of the loop body is one attempt. *)
Lemma body_attempts (st : Locals) :
  attempts (body rpcs contract_call chain address abi method args st)
  = S (attempts st).
Proof.
  unfold body.
  destruct (contract_call (attempts st) (rpcs chain !! rpcID st)
                          address abi method args); [reflexivity|].
  destruct (length (rpcs chain) <=? S (rpcID st))%nat; [|reflexivity].
  destruct (maxQueryRetries <=? S (errors st))%nat; reflexivity.
Qed.

Lemma loop_attempts_grow (fuel : nat) :
  forall st st' : Locals,
    loop rpcs contract_call fuel chain address abi method args st = Some st' ->
    (attempts st <= attempts st')%nat.
Proof.
  induction fuel as [|fuel IH]; intros st st'; simpl;
    destruct (continues st); try discriminate;
    try (intros [= <-]; lia).
  intros Hrun. apply IH in Hrun. rewrite body_attempts in Hrun. lia.
Qed.

End Succeeding.

(** C1.  On a chain whose endpoint list has [N >= 1] entries, a call
    that throws on every attempt is abandoned after exactly [N * 3]
    attempts, three full passes over the list.  [query] then returns
    [undefined] without raising, and has written exactly one
    diagnostic, or none when the chain and the address are on
    [ignoredErrors]. *)
Theorem query_always_failing
    (rpcs : EVMChain -> list URL)
    (contract_call :
       nat -> option URL -> Address -> ABI -> string -> list JsVal -> Outcome)
    (chain : EVMChain) (address : Address) (abi : ABI)
    (method : string) (args : list JsVal) (fuel : nat) :
  (forall n u, contract_call n u address abi method args = Throws) ->
  (1 <= length (rpcs chain))%nat ->
  (length (rpcs chain) * 3 <= fuel)%nat ->
  query rpcs contract_call fuel chain address abi method args
  = Some (VUndefined,
          (length (rpcs chain) * 3)%nat,
          if isIgnored chain address then []
          else [QueryError method args address (toUpperCase (chain_name chain))]).
Proof.
  intros Hthrow Hlist Hfuel. unfold query.
  destruct (loop_always_throws rpcs contract_call chain address abi method
              args Hthrow fuel init (length (rpcs chain) * 3)%nat)
    as (st' & Hrun & Hr & Ha & Hc); simpl; try lia; try reflexivity.
  rewrite Hrun, Hr, Ha, Hc. reflexivity.
Qed.

Lemma query_always_failing_witness :
  query two_endpoints unreachable 6 eth
        sample_token minABI "symbol" []
  = Some (VUndefined, 6%nat,
          [QueryError "symbol" [] sample_token "ETH"]).
Proof.
  apply (query_always_failing two_endpoints unreachable eth
           sample_token minABI "symbol" [] 6).
  - reflexivity.
  - simpl. lia.
  - simpl. lia.
Defined.

(** Were an endpoint list empty, the loop would still make one attempt
    per pass, against an undefined endpoint. *)
Lemma query_empty_endpoint_list :
  query no_endpoints unreachable 10 eth
        sample_token minABI "symbol" []
  = Some (VUndefined, 3%nat, [QueryError "symbol" [] sample_token "ETH"]).
Proof. reflexivity. Qed.

(** The part of C2 that the code does satisfy: when the first [k]
    endpoints throw and endpoint [k] decodes a truthy value, that value
    is returned after [k + 1] attempts, with nothing written to the
    console. *)
Lemma query_first_truthy_success
    (rpcs : EVMChain -> list URL)
    (contract_call :
       nat -> option URL -> Address -> ABI -> string -> list JsVal -> Outcome)
    (chain : EVMChain) (address : Address) (abi : ABI)
    (method : string) (args : list JsVal) (k fuel : nat) (v : JsVal) :
  (k < length (rpcs chain))%nat ->
  (forall i, (i < k)%nat ->
     contract_call i (rpcs chain !! i) address abi method args = Throws) ->
  contract_call k (rpcs chain !! k) address abi method args = Returns v ->
  truthy v = true ->
  (k < fuel)%nat ->
  query rpcs contract_call fuel chain address abi method args
  = Some (v, S k, []).
Proof.
  intros Hk Hthrow Hret Htruthy Hfuel. unfold query, init.
  rewrite (loop_first_success rpcs contract_call chain address abi method
             args k v Hk Hthrow Hret Htruthy fuel 0 []) by lia.
  reflexivity.
Qed.

(** Where C2 fails: a first attempt that decodes a value that is not
    truthy (the number 0, the empty string, [false]) is not the last
    one; if [query] returns at all, it has made a second attempt. *)
Lemma query_falsy_value_is_retried
    (rpcs : EVMChain -> list URL)
    (contract_call :
       nat -> option URL -> Address -> ABI -> string -> list JsVal -> Outcome)
    (chain : EVMChain) (address : Address) (abi : ABI)
    (method : string) (args : list JsVal) (v : JsVal) :
  contract_call 0%nat (rpcs chain !! 0%nat) address abi method args = Returns v ->
  truthy v = false ->
  forall (fuel : nat) (r : JsVal) (n : nat) (log : list Diagnostic),
    query rpcs contract_call fuel chain address abi method args
    = Some (r, n, log) ->
    (2 <= n)%nat.
Proof.
  intros Hret Hfalsy fuel r n log. unfold query.
  destruct fuel as [|fuel]; [discriminate|].
  cbn [loop]. change (continues init) with true. cbv iota.
  set (st1 := body rpcs contract_call chain address abi method args init).
  assert (Hst1 : result st1 = v /\ errors st1 = 0%nat /\ attempts st1 = 1%nat)
    by (unfold st1, body; simpl; rewrite Hret; auto).
  destruct Hst1 as (Hres & Herr & Hatt).
  assert (Hcont : continues st1 = true)
    by (unfold continues; rewrite Hres, Herr, Hfalsy; reflexivity).
  destruct fuel as [|fuel]; cbn [loop]; rewrite Hcont; [discriminate|].
  destruct (loop rpcs contract_call fuel chain address abi method args
              (body rpcs contract_call chain address abi method args st1))
    as [st'|] eqn:Hrun; [|discriminate].
  apply loop_attempts_grow in Hrun. rewrite body_attempts, Hatt in Hrun.
  intros [= _ <- _]. exact Hrun.
Qed.

(** C2, at the failing input.  [decimals()] of a token with no decimal
    places decodes successfully to the number 0 on the first attempt
    (k = 0); the value is not returned: the loop sends the same call to
    the same endpoint again, and no number of iterations ends it. *)
Theorem query_zero_value_never_returned (fuel : nat) :
  query two_endpoints zero_decimals fuel eth
        sample_token minABI "decimals" []
  = None.
Proof.
  unfold query.
  rewrite (loop_falsy_forever two_endpoints zero_decimals eth
             sample_token minABI "decimals" []).
  - reflexivity.
  - intros n u. exists (VNumber (ofZ 0)). split; reflexivity.
  - reflexivity.
  - unfold maxQueryRetries. simpl. lia.
Qed.

End QueryExecutorFacts.

(* --------------------------------------------------------------------- *)
(** ** Numbers *)
(* --------------------------------------------------------------------- *)

Section NumberFacts.

Lemma pow10_pos (d : Z) : (0 < Q2Qc (Qpower (inject_Z 10) d))%Qc.
Proof.
  unfold Qclt, Q2Qc, this. rewrite !Qred_correct.
  apply Qpower_0_lt. reflexivity.
Qed.

Lemma pow10_compare (d : Z) :
  Qccompare (Q2Qc (Qpower (inject_Z 10) d)) 0 = Gt.
Proof. apply Qcgt_alt. apply pow10_pos. Qed.

Lemma pow10_nonzero (d : Z) : Q2Qc (Qpower (inject_Z 10) d) <> 0%Qc.
Proof.
  intros H. pose proof (pow10_pos d) as Hpos. rewrite H in Hpos.
  apply (Qclt_not_le _ _ Hpos). apply Qcle_refl.
Qed.

(** [raw / 10 ** decimals] for an integer [decimals]. *)
Lemma num_div_pow10 (raw d : Z) :
  num_div (ofZ raw) (pow10 (IntVal d)) = Fin (normalized raw d).
Proof.
  unfold num_div, ofZ, pow10. rewrite pow10_compare. reflexivity.
Qed.

Lemma ofZ_compare (z : Z) : Qccompare (Q2Qc (inject_Z z)) 0 = (z ?= 0)%Z.
Proof.
  unfold Qccompare, Q2Qc, this. rewrite !Qred_correct.
  unfold Qcompare. simpl. rewrite Z.mul_1_r. reflexivity.
Qed.

Lemma normalized_nonneg (raw d : Z) :
  (0 <= raw)%Z -> (0 <= normalized raw d)%Qc.
Proof.
  intros Hraw. unfold normalized, Qcle, Qcdiv, Qcmult, Qcinv, Q2Qc, this.
  rewrite !Qred_correct.
  apply Qmult_le_0_compat.
  - unfold Qle. simpl. lia.
  - apply Qinv_le_0_compat. apply Qlt_le_weak.
    apply Qpower_0_lt. reflexivity.
Qed.

Lemma normalized_zero_iff (raw d : Z) :
  normalized raw d = 0%Qc <-> raw = 0%Z.
Proof.
  unfold normalized. split.
  - intros H.
    assert (Hm : (Q2Qc (inject_Z raw) / Q2Qc (Qpower (inject_Z 10) d)
                  * Q2Qc (Qpower (inject_Z 10) d))%Qc = 0%Qc)
      by (rewrite H; apply Qcmult_0_l).
    unfold Qcdiv in Hm.
    rewrite <- Qcmult_assoc, Qcmult_inv_l, Qcmult_1_r in Hm
      by apply pow10_nonzero.
    apply Qceq_alt in Hm. rewrite ofZ_compare in Hm.
    apply Z.compare_eq_iff. exact Hm.
  - intros ->. unfold Qcdiv. apply Qcmult_0_l.
Qed.

(** Dividing by zero never yields a finite number. *)
Lemma div_zero_not_finite (a : number) :
  isFinite (num_div a (Fin 0)) = false.
Proof.
  destruct a as [x| | |]; simpl; try reflexivity.
  destruct (Qccompare x 0); reflexivity.
Qed.

(** [0 / 10 ** decimals] is 0, or [NaN] when [decimals] is [NaN]. *)
Lemma zero_normalized (decimals : jsint) :
  num_div (ofZ 0) (pow10 decimals) = Fin 0 \/
  num_div (ofZ 0) (pow10 decimals) = NaN.
Proof.
  destruct decimals as [d|]; [left|right; reflexivity].
  rewrite num_div_pow10. f_equal. apply normalized_zero_iff. reflexivity.
Qed.

Lemma div_by_zero_supply_not_finite (a : number) (decimals : jsint) :
  isFinite (num_div a (num_div (ofZ 0) (pow10 decimals))) = false.
Proof.
  destruct (zero_normalized decimals) as [-> | ->].
  - apply div_zero_not_finite.
  - destruct a; reflexivity.
Qed.

Lemma div_not_finite_l (a b : number) :
  isFinite a = false -> isFinite (num_div a b) = false.
Proof.
  destruct a as [x| | |]; simpl; intros H; try discriminate;
    destruct b as [y| | |]; simpl; try reflexivity;
    destruct (Qccompare y 0); reflexivity.
Qed.

Lemma mul_not_finite_r (a b : number) :
  isFinite b = false -> isFinite (num_mul a b) = false.
Proof.
  destruct b as [y| | |]; simpl; intros H; try discriminate;
    destruct a as [x| | |]; simpl; try reflexivity;
    destruct (Qccompare x 0); reflexivity.
Qed.

End NumberFacts.

(* --------------------------------------------------------------------- *)
(** ** The monad *)
(* --------------------------------------------------------------------- *)

Lemma bind_run {A B : Type} (m : M A) (f : A -> M B) (s : Store) :
  (m ≫= f) s =
  match m s with
  | (Ok a, s') => f a s'
  | (Throw e, s') => (Throw e, s')
  end.
Proof. reflexivity. Qed.

Lemma fmap_run {A B : Type} (f : A -> B) (m : M A) (s : Store) :
  (f <$> m) s =
  match m s with
  | (Ok a, s') => (Ok (f a), s')
  | (Throw e, s') => (Throw e, s')
  end.
Proof. reflexivity. Qed.

Lemma ret_run {A : Type} (a : A) (s : Store) : (mret a : M A) s = (Ok a, s).
Proof. reflexivity. Qed.

(** Unfold one layer of monadic plumbing. *)
Ltac mstep :=
  repeat first
    [ rewrite bind_run | rewrite fmap_run | rewrite ret_run ].

Section PriceFacts.

Variable W : World.

(** The resolver always answers, and touches neither log. *)
Lemma getTokenPrice_returns chain address decimals (s : Store) :
  exists price s',
    getTokenPrice W chain address decimals s = (Ok price, s')
    /\ queryTrace s' = queryTrace s
    /\ consoleLog s' = consoleLog s.
Proof.
  unfold getTokenPrice.
  destruct (priceCache s !! (chain, toLowerCase address)) as [p|];
    eexists; eexists; split; try reflexivity; split; reflexivity.
Qed.

End PriceFacts.

(* --------------------------------------------------------------------- *)
(** ** Normalized balances *)
(* --------------------------------------------------------------------- *)

Lemma num_ge0_normalized (b d : Z) :
  (0 <= b)%Z -> num_ge0 (Fin (normalized b d)) = true.
Proof.
  intros Hb. simpl.
  pose proof (normalized_nonneg b d Hb) as Hle.
  destruct (Qccompare (normalized b d) 0) eqn:Hc; try reflexivity.
  apply Qclt_alt in Hc. destruct (Qclt_not_le _ _ Hc Hle).
Qed.

Example normalized_one_million : normalized 1000000 6 = 1%Qc.
Proof. apply Qc_is_canon. reflexivity. Qed.

(** C8.  For a raw integer balance [b >= 0]:
    - [addTrackedToken] returns a token of type 'token' whose balance is
      [b / 10^d] for the catalog's decimals [d], and it is [>= 0];
    - [addToken] does the same for the decimals [d] it resolves (18 for
      the native address, the catalog entry, or the [decimals()] read);
    - a raw balance of 1_000_000 with 6 decimals gives the balance 1. *)
Theorem balance_is_normalized
    (W : World) (chain : EVMChain) (location : string)
    (status : TokenStatus) (owner : Address) (b : Z) :
  (0 <= b)%Z ->
  (forall (token : TokenData) (s : Store),
     exists tok s',
       addTrackedToken W chain location status token (ofZ b) owner s = (Ok tok, s')
       /\ t_type tok = ty_token
       /\ t_balance tok = Fin (normalized b (td_decimals token))
       /\ num_ge0 (t_balance tok) = true
       /\ (b = 1000000%Z -> td_decimals token = 6%Z -> t_balance tok = Fin 1))
  /\
  (forall (address : Address) (s s0 : Store) (symbol : Symbol) (d : Z) (logo : URL),
     findTokenInfo W chain address s = (Ok (symbol, IntVal d, logo), s0) ->
     exists tok s',
       addToken W chain location status address (ofZ b) owner s = (Ok tok, s')
       /\ t_type tok = ty_token
       /\ t_balance tok = Fin (normalized b d)
       /\ num_ge0 (t_balance tok) = true
       /\ (b = 1000000%Z -> d = 6%Z -> t_balance tok = Fin 1)).
Proof.
  intros Hb. split.
  - intros token s. unfold addTrackedToken. mstep.
    destruct (getTokenPrice_returns W chain (td_address token)
                (IntVal (td_decimals token)) s) as (p & s' & -> & _ & _).
    eexists; eexists; split; [reflexivity|]. cbn [t_type t_balance].
    rewrite num_div_pow10.
    repeat split; auto using num_ge0_normalized.
    intros -> ->. f_equal. apply normalized_one_million.
  - intros address s s0 symbol d logo Hinfo. unfold addToken. mstep.
    rewrite Hinfo.
    destruct (getTokenPrice_returns W chain address (IntVal d) s0)
      as (p & s' & Hp & _ & _).
    mstep. rewrite Hp.
    eexists; eexists; split; [reflexivity|]. cbn [t_type t_balance].
    rewrite num_div_pow10.
    repeat split; auto using num_ge0_normalized.
    intros -> ->. f_equal. apply normalized_one_million.
Qed.

Lemma balance_is_normalized_witness :
  exists tok s',
    addToken (sample_world 1) poly "wallet" st_none sample_tokenB
             (ofZ 1000000) sample_wallet emptyStore = (Ok tok, s')
    /\ t_type tok = ty_token
    /\ t_balance tok = Fin 1.
Proof.
  assert (Hb : (0 <= 1000000)%Z) by lia.
  destruct (balance_is_normalized (sample_world 1) poly "wallet" st_none
              sample_wallet 1000000 Hb) as [_ Htoken].
  edestruct (Htoken sample_tokenB emptyStore) as (tok & s' & Hrun & Hty & _ & _ & Hone);
    [reflexivity|].
  exists tok, s'. split; [exact Hrun|]. split; [exact Hty|].
  apply Hone; reflexivity.
Defined.

(** The decimals [addToken] and [addDebtToken] resolve: 18 for the
    native address, the catalog's for a tracked token, and otherwise
    the result of [parseInt] on the [decimals()] read, which is [NaN]
    when that read was abandoned. *)
Lemma findTokenInfo_decimals (W : World) chain address (s : Store) :
  exists symbol logo s',
    findTokenInfo W chain address s
    = (Ok (symbol,
           (if String.eqb (toLowerCase address) defaultAddress then IntVal 18
            else match getTrackedTokenInfo W chain address with
                 | Some token => IntVal (td_decimals token)
                 | None => parseInt (onchain W chain address m_decimals)
                 end),
           logo), s').
Proof.
  unfold findTokenInfo.
  destruct (String.eqb (toLowerCase address) defaultAddress).
  - eexists; eexists; eexists. reflexivity.
  - destruct (getTrackedTokenInfo W chain address) as [token|].
    + eexists; eexists; eexists. reflexivity.
    + unfold query. mstep. eexists; eexists; eexists. reflexivity.
Qed.

(** With the [decimals()] read abandoned, the balance of the token that
    [addToken] returns is [NaN]. *)
Lemma addToken_unresolved_decimals (W : World) chain location status address
    rawBalance owner (s : Store) :
  String.eqb (toLowerCase address) defaultAddress = false ->
  getTrackedTokenInfo W chain address = None ->
  onchain W chain address m_decimals = None ->
  exists tok s',
    addToken W chain location status address rawBalance owner s = (Ok tok, s')
    /\ t_balance tok = NaN.
Proof.
  intros Hnative Htracked Hdecimals.
  unfold addToken, findTokenInfo, query. rewrite Hnative, Htracked.
  mstep. rewrite Hdecimals.
  match goal with
  | |- context [getTokenPrice W chain address ?d ?st] =>
      destruct (getTokenPrice_returns W chain address d st)
        as (p & s' & -> & _ & _)
  end.
  eexists; eexists; split; [reflexivity|]. cbn [t_balance].
  destruct rawBalance; reflexivity.
Qed.

(* --------------------------------------------------------------------- *)
(** ** Liquidity-pool pairs *)
(* --------------------------------------------------------------------- *)

#[local] Arguments num_div : simpl never.
#[local] Arguments num_mul : simpl never.
#[local] Arguments num_add : simpl never.
#[local] Arguments pow10 : simpl never.
#[local] Arguments ofZ : simpl never.
#[local] Arguments getTokenLogo : simpl never.
#[local] Arguments getTrackedTokenInfo : simpl never.
#[local] Arguments toLowerCase : simpl never.

Section PairFacts.

Variable W : World.

Lemma pairedTokenInfo_run chain address (s : Store) :
  exists s',
    pairedTokenInfo W chain (Some address)
                    (getTrackedTokenInfo W chain address) s
    = (Ok (pairedSymbol W chain address, pairedDecimals W chain address), s')
    /\ priceCache s' = priceCache s
    /\ consoleLog s' = consoleLog s.
Proof.
  unfold pairedTokenInfo, pairedSymbol, pairedDecimals.
  destruct (getTrackedTokenInfo W chain address) as [t|].
  - exists s. repeat split.
  - eexists. unfold query_at, query. mstep. simpl. repeat split.
Qed.

(** What [addLPToken] computes once the reserves and both token
    addresses have been read. *)
Lemma addLPToken_balances chain location status address rawBalance owner
    (s : Store) (reserves : Z * Z) (address0 address1 : Address) :
  onchain W chain address m_getReserves = Some reserves ->
  onchain W chain address m_token0 = Some address0 ->
  onchain W chain address m_token1 = Some address1 ->
  let decimals := parseInt (onchain W chain address m_decimals) in
  let balance := num_div rawBalance (pow10 decimals) in
  let lpTokenSupply :=
    num_div (toNumber (onchain W chain address m_totalSupply)) (pow10 decimals) in
  let supply0 :=
    num_div (ofZ (fst reserves)) (pow10 (pairedDecimals W chain address0)) in
  let supply1 :=
    num_div (ofZ (snd reserves)) (pow10 (pairedDecimals W chain address1)) in
  exists tok s',
    addLPToken W chain location status address rawBalance owner s = (Ok tok, s')
    /\ lp_type tok = ty_lpToken
    /\ lp_balance tok = balance
    /\ pt_balance (lp_token0 tok) = num_mul supply0 (num_div balance lpTokenSupply)
    /\ pt_balance (lp_token1 tok) = num_mul supply1 (num_div balance lpTokenSupply)
    /\ consoleLog s' = consoleLog s.
Proof.
  intros Hres H0 H1. simpl.
  unfold addLPToken, query. mstep. simpl.
  rewrite Hres, H0, H1. unfold getTrackedTokenInfo_at. mstep.
  match goal with
  | |- context [pairedTokenInfo W chain (Some address0) _ ?st] =>
      destruct (pairedTokenInfo_run chain address0 st) as (sa & -> & Hca & Hla)
  end.
  mstep.
  match goal with
  | |- context [pairedTokenInfo W chain (Some address1) _ ?st] =>
      destruct (pairedTokenInfo_run chain address1 st) as (sb & -> & Hcb & Hlb)
  end.
  mstep. simpl. mstep.
  match goal with
  | |- context [getTokenPrice W chain address0 ?d ?st] =>
      destruct (getTokenPrice_returns W chain address0 d st)
        as (p0 & sc & -> & _ & Hlc)
  end.
  mstep.
  match goal with
  | |- context [getTokenPrice W chain address1 ?d ?st] =>
      destruct (getTokenPrice_returns W chain address1 d st)
        as (p1 & sd & -> & _ & Hld)
  end.
  mstep.
  eexists; eexists; split; [reflexivity|]. simpl.
  repeat split. rewrite Hld, Hlc, Hlb, Hla. reflexivity.
Qed.

End PairFacts.

Lemma num_div_fin (x y : Qc) :
  y <> 0%Qc -> num_div (Fin x) (Fin y) = Fin (x / y).
Proof.
  intros Hy. unfold num_div.
  destruct (Qccompare y 0) eqn:Hc; try reflexivity.
  apply Qceq_alt in Hc. contradiction.
Qed.




Module Binary64Facts.
Import PrimFloat Binary64.

(** In binary64 too, the paired balances are the values of
    [supply_i * (balance / lpTokenSupply)]. *)
Lemma addLPToken_numbers_formula
    (rawBalance totalSupply reserve0 reserve1 pow pow0 pow1 : float) :
  let n :=
    addLPToken_numbers rawBalance totalSupply reserve0 reserve1 pow pow0 pow1 in
  balance0 n = (supply0 n * (balance n / lpTokenSupply n))%float
  /\ balance1 n = (supply1 n * (balance n / lpTokenSupply n))%float.
Proof. split; reflexivity. Qed.


End Binary64Facts.

(* --------------------------------------------------------------------- *)
(** ** Composite tokens *)
(* --------------------------------------------------------------------- *)

Section XTokenFacts.

Variable W : World.

Lemma addXToken_tracked chain location status address rawBalance owner
    underlyingAddress underlyingRawBalance (s : Store) (token : TokenData) :
  getTrackedTokenInfo W chain address = Some token ->
  exists tok price s',
    addXToken W chain location status address rawBalance owner
              underlyingAddress underlyingRawBalance s = (Ok tok, s')
    /\ x_underlyingToken tok =
         {| pt_symbol := Some (td_symbol token);
            pt_address := underlyingAddress;
            pt_balance := num_div underlyingRawBalance
                                  (pow10 (IntVal (td_decimals token)));
            pt_price := price;
            pt_logo := td_logo token |}
    /\ queryTrace s' = queryTrace s ++
         [readOf chain address minABI m_symbol;
          readOf chain address minABI m_decimals]
    /\ consoleLog s' = consoleLog s.
Proof.
  intros Htracked. unfold addXToken, query. mstep. simpl. mstep.
  rewrite Htracked. mstep.
  match goal with
  | |- context [getTokenPrice W chain underlyingAddress ?d ?st] =>
      destruct (getTokenPrice_returns W chain underlyingAddress d st)
        as (p & s' & -> & Ht & Hl)
  end.
  mstep. eexists; exists p, s'. split; [reflexivity|]. simpl.
  split; [reflexivity|]. rewrite Ht, Hl. simpl.
  rewrite <- app_assoc. split; reflexivity.
Qed.

Lemma addXToken_untracked chain location status address rawBalance owner
    underlyingAddress underlyingRawBalance (s : Store) :
  getTrackedTokenInfo W chain address = None ->
  exists tok price s',
    addXToken W chain location status address rawBalance owner
              underlyingAddress underlyingRawBalance s = (Ok tok, s')
    /\ x_underlyingToken tok =
         {| pt_symbol := onchain W chain underlyingAddress m_symbol;
            pt_address := underlyingAddress;
            pt_balance :=
              num_div underlyingRawBalance
                (pow10 (parseInt (onchain W chain underlyingAddress m_decimals)));
            pt_price := price;
            pt_logo := getTokenLogo W chain
                         (onchain W chain underlyingAddress m_symbol) |}
    /\ queryTrace s' = queryTrace s ++
         [readOf chain address minABI m_symbol;
          readOf chain address minABI m_decimals;
          readOf chain underlyingAddress minABI m_symbol;
          readOf chain underlyingAddress minABI m_decimals]
    /\ consoleLog s' = consoleLog s.
Proof.
  intros Htracked. unfold addXToken, query. mstep. simpl. mstep.
  rewrite Htracked. mstep. simpl. mstep.
  match goal with
  | |- context [getTokenPrice W chain underlyingAddress ?d ?st] =>
      destruct (getTokenPrice_returns W chain underlyingAddress d st)
        as (p & s' & -> & Ht & Hl)
  end.
  mstep. eexists; exists p, s'. split; [reflexivity|]. simpl.
  split; [reflexivity|]. rewrite Ht, Hl. simpl.
  rewrite <- !app_assoc. split; reflexivity.
Qed.

End XTokenFacts.

(** C10.  In [addXToken], when the outer address is in the chain's
    catalog, the underlying token's symbol and logo, and the decimals
    that normalize the underlying balance, are those of the outer
    address's catalog entry, and the only reads made are the outer
    token's [symbol()] and [decimals()].  When the outer address is not
    in the catalog, the underlying token's own [symbol()] and
    [decimals()] are read and used. *)
Theorem addXToken_underlying_info
    (W : World) (chain : EVMChain) (location : string) (status : TokenStatus)
    (address : Address) (rawBalance : number) (owner : Address)
    (underlyingAddress : Address) (underlyingRawBalance : number) (s : Store) :
  exists tok s',
    addXToken W chain location status address rawBalance owner
              underlyingAddress underlyingRawBalance s = (Ok tok, s')
    /\ pt_address (x_underlyingToken tok) = underlyingAddress
    /\ match getTrackedTokenInfo W chain address with
       | Some token =>
           pt_symbol (x_underlyingToken tok) = Some (td_symbol token)
           /\ pt_logo (x_underlyingToken tok) = td_logo token
           /\ pt_balance (x_underlyingToken tok) =
                num_div underlyingRawBalance (pow10 (IntVal (td_decimals token)))
           /\ queryTrace s' = queryTrace s ++
                [readOf chain address minABI m_symbol;
                 readOf chain address minABI m_decimals]
       | None =>
           pt_symbol (x_underlyingToken tok) =
             onchain W chain underlyingAddress m_symbol
           /\ pt_logo (x_underlyingToken tok) =
                getTokenLogo W chain (onchain W chain underlyingAddress m_symbol)
           /\ pt_balance (x_underlyingToken tok) =
                num_div underlyingRawBalance
                  (pow10 (parseInt (onchain W chain underlyingAddress m_decimals)))
           /\ queryTrace s' = queryTrace s ++
                [readOf chain address minABI m_symbol;
                 readOf chain address minABI m_decimals;
                 readOf chain underlyingAddress minABI m_symbol;
                 readOf chain underlyingAddress minABI m_decimals]
       end.
Proof.
  destruct (getTrackedTokenInfo W chain address) as [token|] eqn:Htracked.
  - destruct (addXToken_tracked W chain location status address rawBalance
                owner underlyingAddress underlyingRawBalance s token Htracked)
      as (tok & p & s' & Hrun & Hu & Ht & _).
    exists tok, s'. rewrite Hu. simpl. repeat split; assumption.
  - destruct (addXToken_untracked W chain location status address rawBalance
                owner underlyingAddress underlyingRawBalance s Htracked)
      as (tok & p & s' & Hrun & Hu & Ht & _).
    exists tok, s'. rewrite Hu. simpl. repeat split; assumption.
Qed.

(** An outer token that is in the catalog (USDC on Polygon) wrapped
    around another token: the underlying token is reported with the
    outer token's symbol and its 6 decimals. *)
Example addXToken_tracked_outer_token :
  exists tok s',
    addXToken (sample_world 1) poly "vault" st_staked sample_tokenB
              (ofZ 1000000) sample_wallet sample_tokenA (ofZ 3000000)
              emptyStore = (Ok tok, s')
    /\ pt_address (x_underlyingToken tok) = sample_tokenA
    /\ pt_symbol (x_underlyingToken tok) = Some "USDC"
    /\ pt_balance (x_underlyingToken tok) = Fin (normalized 3000000 6)
    /\ length (queryTrace s') = 2%nat.
Proof.
  destruct (addXToken_tracked (sample_world 1) poly "vault" st_staked
              sample_tokenB (ofZ 1000000) sample_wallet sample_tokenA
              (ofZ 3000000) emptyStore sample_usdc eq_refl)
    as (tok & p & s' & Hrun & Hu & Ht & _).
  exists tok, s'. split; [exact Hrun|].
  rewrite Hu, Ht. cbn [pt_address pt_symbol pt_balance].
  change (td_decimals sample_usdc) with 6%Z.
  rewrite num_div_pow10. repeat split; reflexivity.
Qed.

Section UnguardedDivision.

Variable W : World.

Lemma addXToken_underlying_balance chain location status address rawBalance
    owner underlyingAddress underlyingRawBalance (s : Store) :
  exists tok s' decimals,
    addXToken W chain location status address rawBalance owner
              underlyingAddress underlyingRawBalance s = (Ok tok, s')
    /\ pt_balance (x_underlyingToken tok) =
         num_div underlyingRawBalance (pow10 decimals)
    /\ consoleLog s' = consoleLog s.
Proof.
  destruct (getTrackedTokenInfo W chain address) as [token|] eqn:Htracked.
  - destruct (addXToken_tracked W chain location status address rawBalance
                owner underlyingAddress underlyingRawBalance s token Htracked)
      as (tok & p & s' & Hrun & Hu & _ & Hl).
    exists tok, s', (IntVal (td_decimals token)). rewrite Hu. auto.
  - destruct (addXToken_untracked W chain location status address rawBalance
                owner underlyingAddress underlyingRawBalance s Htracked)
      as (tok & p & s' & Hrun & Hu & _ & Hl).
    exists tok, s', (parseInt (onchain W chain underlyingAddress m_decimals)).
    rewrite Hu. auto.
Qed.

(** [addTraderJoeToken] with no xJOE in circulation. *)
Lemma addTraderJoeToken_zero_supply chain location status rawBalance owner
    (s : Store) :
  onchain W chain "0x57319d41F71E81F3c65F2a47CA4e001EbAFd4F33" m_totalSupply
    = Some 0%Z ->
  exists tok s',
    addTraderJoeToken W chain location status rawBalance owner s = (Ok tok, s')
    /\ isFinite (pt_balance (x_underlyingToken tok)) = false.
Proof.
  intros Hsupply. unfold addTraderJoeToken, query. mstep. simpl. mstep.
  rewrite Hsupply. simpl.
  match goal with
  | |- context [addXToken W chain location status ?a rawBalance owner ?u ?raw ?st] =>
      destruct (addXToken_underlying_balance chain location status a
                  rawBalance owner u raw st)
        as (tok & s' & dec & -> & Hbal & _)
  end.
  exists tok, s'. split; [reflexivity|]. rewrite Hbal.
  apply div_not_finite_l, mul_not_finite_r.
  apply (div_zero_not_finite _).
Qed.

(** The loop of [addBalancerLikeToken] always completes. *)
Lemma balancerPriceSum_returns chain poolInfo (todo : list Address) :
  forall (i : nat) (priceSum : number) (s : Store),
  exists total s',
    balancerPriceSum W chain poolInfo i todo priceSum s = (Ok total, s')
    /\ consoleLog s' = consoleLog s.
Proof.
  induction todo as [|token rest IH]; intros i priceSum s; simpl.
  - exists priceSum, s. split; reflexivity.
  - unfold query. mstep. simpl.
    match goal with
    | |- context [getTokenPrice W chain token ?d ?st] =>
        destruct (getTokenPrice_returns W chain token d st)
          as (p & s1 & -> & _ & Hl1)
    end.
    match goal with
    | |- context [balancerPriceSum W chain poolInfo ?j rest ?sum s1] =>
        destruct (IH j sum s1) as (total & s2 & -> & Hl2)
    end.
    exists total, s2. split; [reflexivity|]. rewrite Hl2, Hl1. reflexivity.
Qed.

(** [addBalancerLikeToken] on a pool of three or more assets whose
    share supply is zero. *)
Lemma addBalancerLikeToken_zero_supply chain location status address
    rawBalance owner id vault (s : Store) (poolInfo : PoolInfo) :
  onchain W chain vault (m_getPoolTokens id) = Some poolInfo ->
  (2 < length (pi_tokens poolInfo))%nat ->
  onchain W chain address m_totalSupply = Some 0%Z ->
  exists t s',
    addBalancerLikeToken W chain location status address rawBalance owner
                         id vault s = (Ok (IsToken t), s')
    /\ isFinite (t_price t) = false.
Proof.
  intros Hpool Hlen Hsupply.
  unfold addBalancerLikeToken, query. mstep. simpl. mstep.
  rewrite Hpool, Hsupply. simpl.
  destruct (pi_tokens poolInfo) as [|t0 [|t1 [|t2 rest]]] eqn:Htokens;
    simpl in Hlen; try lia.
  mstep.
  match goal with
  | |- context [balancerPriceSum W chain poolInfo ?j ?todo ?sum ?st] =>
      destruct (balancerPriceSum_returns chain poolInfo todo j sum st)
        as (total & s' & -> & _)
  end.
  mstep. eexists; exists s'. split; [reflexivity|]. simpl.
  apply (div_by_zero_supply_not_finite total).
Qed.

(** [addLPToken] on a pair whose total supply is zero. *)
Lemma addLPToken_zero_supply chain location status address rawBalance owner
    (s : Store) (reserves : Z * Z) (address0 address1 : Address) :
  onchain W chain address m_getReserves = Some reserves ->
  onchain W chain address m_token0 = Some address0 ->
  onchain W chain address m_token1 = Some address1 ->
  onchain W chain address m_totalSupply = Some 0%Z ->
  exists tok s',
    addLPToken W chain location status address rawBalance owner s = (Ok tok, s')
    /\ isFinite (pt_balance (lp_token0 tok)) = false
    /\ isFinite (pt_balance (lp_token1 tok)) = false.
Proof.
  intros Hres H0 H1 Hsupply.
  destruct (addLPToken_balances W chain location status address rawBalance
              owner s reserves address0 address1 Hres H0 H1)
    as (tok & s' & Hrun & _ & _ & Hc0 & Hc1 & _).
  rewrite Hsupply in Hc0, Hc1. simpl in Hc0, Hc1.
  exists tok, s'. split; [exact Hrun|].
  rewrite Hc0, Hc1.
  split; apply mul_not_finite_r, div_by_zero_supply_not_finite.
Qed.

End UnguardedDivision.

(** On the sample chain state with every supply at zero: the staked
    share of [addTraderJoeToken] and the price of a three-asset Balancer
    pool are not finite. *)
Example zero_supply_samples :
  (exists tok s',
     addTraderJoeToken (sample_world 0) avax "traderjoe" st_staked
                       (ofZ 1000000000000000000) sample_wallet emptyStore
     = (Ok tok, s')
     /\ isFinite (pt_balance (x_underlyingToken tok)) = false)
  /\
  (exists t s',
     addBalancerLikeToken (sample_world 0) eth "balancer" st_staked
       sample_pair (ofZ 1000000000000000000) sample_wallet sample_pool3
       sample_vault emptyStore = (Ok (IsToken t), s')
     /\ isFinite (t_price t) = false).
Proof.
  split.
  - apply addTraderJoeToken_zero_supply. reflexivity.
  - eapply addBalancerLikeToken_zero_supply;
      [reflexivity | simpl; lia | reflexivity].
Qed.

(** C3 (as amended).  The pricing paths divide by the supply without a
    guard.  With a total supply of zero, the balances of both paired
    tokens of [addLPToken] are [NaN] or an infinity, not 0; with no xJOE
    in circulation the underlying balance of [addTraderJoeToken] is [NaN]
    or an infinity; and with a share supply of zero the price computed by
    the 3+ asset path of [addBalancerLikeToken] is [NaN] or an
    infinity. *)
Theorem zero_supply_is_not_guarded :
  (forall (W : World) chain location status address rawBalance owner
          (s : Store) (reserves : Z * Z) (address0 address1 : Address),
     onchain W chain address m_getReserves = Some reserves ->
     onchain W chain address m_token0 = Some address0 ->
     onchain W chain address m_token1 = Some address1 ->
     onchain W chain address m_totalSupply = Some 0%Z ->
     exists tok s',
       addLPToken W chain location status address rawBalance owner s = (Ok tok, s')
       /\ isFinite (pt_balance (lp_token0 tok)) = false
       /\ isFinite (pt_balance (lp_token1 tok)) = false)
  /\
  (forall (W : World) chain location status rawBalance owner (s : Store),
     onchain W chain "0x57319d41F71E81F3c65F2a47CA4e001EbAFd4F33" m_totalSupply
       = Some 0%Z ->
     exists tok s',
       addTraderJoeToken W chain location status rawBalance owner s = (Ok tok, s')
       /\ isFinite (pt_balance (x_underlyingToken tok)) = false)
  /\
  (forall (W : World) chain location status address rawBalance owner id vault
          (s : Store) (poolInfo : PoolInfo),
     onchain W chain vault (m_getPoolTokens id) = Some poolInfo ->
     (2 < length (pi_tokens poolInfo))%nat ->
     onchain W chain address m_totalSupply = Some 0%Z ->
     exists t s',
       addBalancerLikeToken W chain location status address rawBalance owner
                            id vault s = (Ok (IsToken t), s')
       /\ isFinite (t_price t) = false).
Proof.
  split; [|split]; intros.
  - eapply addLPToken_zero_supply; eassumption.
  - apply addTraderJoeToken_zero_supply; assumption.
  - eapply addBalancerLikeToken_zero_supply; eassumption.
Qed.

Lemma zero_supply_is_not_guarded_witness :
  exists tok s',
    addLPToken (sample_world 0) poly "iron" st_staked sample_pair
               (ofZ 1000000000000000000) sample_wallet emptyStore = (Ok tok, s')
    /\ isFinite (pt_balance (lp_token0 tok)) = false
    /\ isFinite (pt_balance (lp_token1 tok)) = false.
Proof.
  apply (proj1 zero_supply_is_not_guarded (sample_world 0) poly "iron"
           st_staked sample_pair (ofZ 1000000000000000000) sample_wallet
           emptyStore (5000000000000000000, 7000000000000000000)%Z
           sample_tokenA sample_tokenC);
    reflexivity.
Defined.

(** C3 as stated fails: a holder of one pair token of a pair whose total
    supply reads zero gets paired-token balances of [Infinity], not 0. *)
Lemma addLPToken_zero_supply_gives_infinity :
  exists tok s',
    addLPToken (sample_world 0) poly "iron" st_staked sample_pair
               (ofZ 1000000000000000000) sample_wallet emptyStore = (Ok tok, s')
    /\ pt_balance (lp_token0 tok) = PInf
    /\ pt_balance (lp_token1 tok) = PInf
    /\ pt_balance (lp_token0 tok) <> Fin 0.
Proof.
  destruct (addLPToken_balances (sample_world 0) poly "iron" st_staked
              sample_pair (ofZ 1000000000000000000) sample_wallet emptyStore
              (5000000000000000000, 7000000000000000000)%Z
              sample_tokenA sample_tokenC eq_refl eq_refl eq_refl)
    as (tok & s' & Hrun & _ & _ & Hc0 & Hc1 & _).
  exists tok, s'. split; [exact Hrun|].
  assert (H0 : pt_balance (lp_token0 tok) = PInf)
    by (rewrite Hc0; vm_compute; reflexivity).
  assert (H1 : pt_balance (lp_token1 tok) = PInf)
    by (rewrite Hc1; vm_compute; reflexivity).
  rewrite H0, H1. repeat split; discriminate.
Qed.

(* --------------------------------------------------------------------- *)
(** ** Unidentified tokens *)
(* --------------------------------------------------------------------- *)

#[local] Arguments sameAddress : simpl never.

Section Unidentified.

Variable W : World.

(** When the vault read is abandoned, [addBalancerLikeToken] throws. *)
Lemma addBalancerLikeToken_undefined_pool chain location status address
    rawBalance owner id vault (s : Store) :
  onchain W chain vault (m_getPoolTokens id) = None ->
  exists s',
    addBalancerLikeToken W chain location status address rawBalance owner
                         id vault s = (Throw (TypeError "poolInfo.tokens"), s').
Proof.
  intros Hpool. unfold addBalancerLikeToken, query. mstep. simpl. mstep.
  rewrite Hpool. simpl. eexists. reflexivity.
Qed.

(** On Polygon, Fantom, Avalanche, BSC, Harmony and Cronos, an address
    with no branch of its own gets the placeholder from [addCurveToken],
    and one warning is written. *)
Lemma addCurveToken_unidentified chain location status address rawBalance
    owner (s : Store) :
  chain <> eth ->
  matchesNoCurveRule chain address = true ->
  exists s',
    addCurveToken W chain location status address rawBalance owner s
    = (Ok (IsToken (unidentifiedToken chain location owner address)), s')
    /\ consoleLog s' = consoleLog s ++ [UnidentifiedCurveToken address].
Proof.
  intros Hchain Hnone. unfold matchesNoCurveRule, knownCurveTokens in Hnone.
  destruct chain; try congruence; simpl in Hnone;
    repeat match goal with
           | H : (_ && _)%bool = true |- _ =>
               apply andb_prop in H; destruct H as [? H]
           | H : negb _ = true |- _ => apply negb_true_iff in H
           end;
    unfold addCurveToken, curveSideChainToken, query; mstep; simpl; mstep;
    repeat match goal with
           | H : sameAddress address _ = false |- _ => rewrite H; clear H
           end;
    mstep; eexists; split; reflexivity.
Qed.

(** On Ethereum the registry decides: with fewer than two non-zero
    underlying coins the placeholder is returned with a warning, but
    when the coin list cannot be read [addCurveToken] throws. *)
Lemma addCurveToken_eth_unreadable_registry location status address
    rawBalance owner (s : Store) :
  onchain W eth "0x90E00ACe148ca3b23Ac1bC8C240C2a7Dd9c2d7f5"
          (m_get_underlying_coins
             (onchain W eth "0x90E00ACe148ca3b23Ac1bC8C240C2a7Dd9c2d7f5"
                      (m_get_pool_from_lp_token address))) = None ->
  exists s',
    addCurveToken W eth location status address rawBalance owner s
    = (Throw (TypeError "(...).filter"), s').
Proof.
  intros Hcoins. unfold addCurveToken, curveEthToken, query. mstep. simpl.
  mstep. rewrite Hcoins. simpl. eexists. reflexivity.
Qed.

End Unidentified.

(** On the sample chain state, a Polygon address without a branch of
    its own: the placeholder, and one warning. *)
Example addCurveToken_unidentified_sample :
  exists s',
    addCurveToken (sample_world 1) poly "curve" st_staked sample_pair
                  (ofZ 1000000000000000000) sample_wallet emptyStore
    = (Ok (IsToken (unidentifiedToken poly "curve" sample_wallet sample_pair)), s')
    /\ consoleLog s' = [UnidentifiedCurveToken sample_pair].
Proof.
  apply (addCurveToken_unidentified (sample_world 1) poly "curve" st_staked
           sample_pair (ofZ 1000000000000000000) sample_wallet emptyStore).
  - discriminate.
  - reflexivity.
Qed.

(** C6, at the failing input.  When the vault lists fewer than two
    tokens for the pool, [addBalancerLikeToken] returns the placeholder
    (symbol "???", balance 0, price 0) and writes nothing to the
    console: the diagnostic that [addCurveToken] emits on the same path
    is missing. *)
Theorem addBalancerLikeToken_unidentified_is_silent
    (W : World) (chain : EVMChain) (location : string) (status : TokenStatus)
    (address : Address) (rawBalance : number) (owner id vault : Address)
    (s : Store) (poolInfo : PoolInfo) :
  onchain W chain vault (m_getPoolTokens id) = Some poolInfo ->
  (length (pi_tokens poolInfo) < 2)%nat ->
  exists s',
    addBalancerLikeToken W chain location status address rawBalance owner
                         id vault s
    = (Ok (IsToken (unidentifiedToken chain location owner address)), s')
    /\ t_symbol (unidentifiedToken chain location owner address) = Some "???"
    /\ t_balance (unidentifiedToken chain location owner address) = ofZ 0
    /\ t_price (unidentifiedToken chain location owner address) = ofZ 0
    /\ consoleLog s' = consoleLog s.
Proof.
  intros Hpool Hlen. unfold addBalancerLikeToken, query. mstep. simpl. mstep.
  rewrite Hpool. simpl.
  destruct (pi_tokens poolInfo) as [|t0 [|t1 rest]]; simpl in Hlen; try lia;
    mstep; eexists; repeat split; reflexivity.
Qed.

Lemma addBalancerLikeToken_unidentified_is_silent_witness :
  exists s',
    addBalancerLikeToken (sample_world 1) eth "balancer" st_staked
      sample_pair (ofZ 1000000000000000000) sample_wallet
      sample_empty_pool sample_vault emptyStore
    = (Ok (IsToken (unidentifiedToken eth "balancer" sample_wallet sample_pair)), s')
    /\ t_symbol (unidentifiedToken eth "balancer" sample_wallet sample_pair) = Some "???"
    /\ t_balance (unidentifiedToken eth "balancer" sample_wallet sample_pair) = ofZ 0
    /\ t_price (unidentifiedToken eth "balancer" sample_wallet sample_pair) = ofZ 0
    /\ consoleLog s' = [].
Proof.
  apply (addBalancerLikeToken_unidentified_is_silent (sample_world 1) eth
           "balancer" st_staked sample_pair (ofZ 1000000000000000000)
           sample_wallet sample_empty_pool sample_vault emptyStore
           {| pi_tokens := []; pi_balances := [] |}).
  - reflexivity.
  - simpl. lia.
Defined.

(* --------------------------------------------------------------------- *)
(** ** The dispatcher *)
(* --------------------------------------------------------------------- *)

(** C7.  For a project name that is not among the chain's projects,
    [getProjectBalance] returns the empty array without raising, and
    writes one warning; no handler is loaded. *)
Theorem getProjectBalance_unknown_project
    (W : World) (dapp : EVMChain -> string -> Address -> M (list AnyToken))
    (chain : EVMChain) (wallet : Address) (project : string) (s : Store) :
  ~ In project (projects W chain) ->
  getProjectBalance W dapp chain wallet project s
  = (Ok [], logged s (InvalidProject project (toUpperCase (chain_name chain)))).
Proof.
  intros Hnot. unfold getProjectBalance.
  destruct (existsb (String.eqb project) (projects W chain)) eqn:Hex.
  - exfalso. apply Hnot. apply existsb_exists in Hex.
    destruct Hex as (p & Hin & Heq). apply String.eqb_eq in Heq.
    subst p. exact Hin.
  - reflexivity.
Qed.

Lemma getProjectBalance_unknown_project_witness :
  getProjectBalance (sample_world 1) sample_dapp poly sample_wallet
                    "not-a-project" emptyStore
  = (Ok [], logged emptyStore (InvalidProject "not-a-project" "POLY")).
Proof.
  apply (getProjectBalance_unknown_project (sample_world 1) sample_dapp poly
           sample_wallet "not-a-project" emptyStore).
  simpl. intros [H|[H|[]]]; discriminate.
Defined.

(* --------------------------------------------------------------------- *)
(** ** Project handlers *)
(* --------------------------------------------------------------------- *)

Lemma tryPushAll_found (done : list (M (list AnyToken))) (s s1 : Store)
    (founds : list (list AnyToken)) :
  allFound done s founds s1 ->
  forall (rest : list (M (list AnyToken))) (balance : list AnyToken),
    tryPushAll (done ++ rest) balance s
    = tryPushAll rest (balance ++ List.concat founds) s1.
Proof.
  induction 1 as [s|step steps s sa sb found founds Hstep Hrest IH];
    intros rest balance; simpl.
  - rewrite app_nil_r. reflexivity.
  - rewrite Hstep, IH, <- app_assoc. reflexivity.
Qed.

Lemma handlerGet_failing_step chain project
    (done : list (M (list AnyToken))) (failing : M (list AnyToken))
    (rest : list (M (list AnyToken))) (s s1 s2 : Store)
    (founds : list (list AnyToken)) (e : Exn) :
  allFound done s founds s1 ->
  failing s1 = (Throw e, s2) ->
  handlerGet chain project (done ++ failing :: rest) s
  = (Ok (List.concat founds),
     logged s2 (FetchError project (toUpperCase (chain_name chain)))).
Proof.
  intros Hdone Hfail. unfold handlerGet.
  rewrite (tryPushAll_found done s s1 founds Hdone). simpl.
  rewrite Hfail. reflexivity.
Qed.

Lemma handlerGet_all_found chain project
    (steps : list (M (list AnyToken))) (s s1 : Store)
    (founds : list (list AnyToken)) :
  allFound steps s founds s1 ->
  handlerGet chain project steps s = (Ok (List.concat founds), s1).
Proof.
  intros Hall. unfold handlerGet.
  rewrite <- (app_nil_r steps).
  rewrite (tryPushAll_found steps s s1 founds Hall). reflexivity.
Qed.

Lemma handlerGet_never_throws chain project
    (steps : list (M (list AnyToken))) (s : Store) :
  exists balance s', handlerGet chain project steps s = (Ok balance, s').
Proof.
  unfold handlerGet.
  destruct (tryPushAll steps [] s) as [[balance [|]] s'];
    eexists; eexists; reflexivity.
Qed.

(** C5.  A handler's [get] never throws.  When the steps before some
    step return and that step throws, [get] returns exactly the
    positions those earlier steps found, and writes one error line: so
    for every handler built from the [try]/[catch] of the source, and so
    for Iron's four steps and for PoolTogether's single step. *)
Theorem handlers_keep_positions_found :
  (forall chain project (done : list (M (list AnyToken)))
          (failing : M (list AnyToken)) (rest : list (M (list AnyToken)))
          (s s1 s2 : Store) (founds : list (list AnyToken)) (e : Exn),
     allFound done s founds s1 ->
     failing s1 = (Throw e, s2) ->
     handlerGet chain project (done ++ failing :: rest) s
     = (Ok (List.concat founds),
        logged s2 (FetchError project (toUpperCase (chain_name chain)))))
  /\
  (forall (W : World) (getFarmBalances getMarketBalances : Address -> M (list AnyToken))
          (wallet : Address) (done : list (M (list AnyToken)))
          (failing : M (list AnyToken)) (rest : list (M (list AnyToken)))
          (s s1 s2 : Store) (founds : list (list AnyToken)) (e : Exn),
     [ getFarmBalances wallet; getMarketBalances wallet;
       Iron.getMarketRewards W wallet; Iron.getStakedICE W wallet ]
     = done ++ failing :: rest ->
     allFound done s founds s1 ->
     failing s1 = (Throw e, s2) ->
     Iron.get W getFarmBalances getMarketBalances wallet s
     = (Ok (List.concat founds), logged s2 (FetchError "iron" "POLY")))
  /\
  (forall (W : World) (getFarmBalances getMarketBalances : Address -> M (list AnyToken))
          (wallet : Address) (s : Store),
     exists balance s',
       Iron.get W getFarmBalances getMarketBalances wallet s = (Ok balance, s'))
  /\
  (forall (W : World) (chain : EVMChain) (poolV4 usdc wallet : Address)
          (s : Store),
     exists balance s',
       PoolTogether.get W chain poolV4 usdc wallet s = (Ok balance, s')).
Proof.
  split; [|split; [|split]].
  - intros. eapply handlerGet_failing_step; eassumption.
  - intros W farm market wallet done failing rest s s1 s2 founds e Hsteps
           Hdone Hfail.
    unfold Iron.get. rewrite Hsteps.
    apply (handlerGet_failing_step Iron.chain Iron.project done failing rest
             s s1 s2 founds e Hdone Hfail).
  - intros. apply handlerGet_never_throws.
  - intros. apply handlerGet_never_throws.
Qed.

(** Iron's staking step throws when the [locked] read is abandoned; the
    farm position found before it is returned. *)
Lemma handlers_keep_positions_found_witness :
  exists s2,
    Iron.get (sample_world 1) sample_getFarmBalances sample_getMarketBalances
             sample_wallet emptyStore
    = (Ok [sample_farm_token], logged s2 (FetchError "iron" "POLY")).
Proof.
  eexists.
  eapply (proj1 (proj2 handlers_keep_positions_found) (sample_world 1)
           sample_getFarmBalances sample_getMarketBalances sample_wallet
           [ sample_getFarmBalances sample_wallet;
             sample_getMarketBalances sample_wallet;
             Iron.getMarketRewards (sample_world 1) sample_wallet ]
           (Iron.getStakedICE (sample_world 1) sample_wallet) []
           emptyStore _ _ [[sample_farm_token]; []; []]
           (TypeError "locked.amount")).
  - reflexivity.
  - eapply allFound_cons; [reflexivity|].
    eapply allFound_cons; [reflexivity|].
    eapply allFound_cons; [reflexivity|].
    apply allFound_nil.
  - reflexivity.
Defined.

(* --------------------------------------------------------------------- *)
(** ** Repeated calls *)
(* --------------------------------------------------------------------- *)

Section Repeatable.

Variable W : World.

Lemma repeatable_ret {A : Type} (a : A) : repeatable (mret a : M A).
Proof.
  intros s. exists (Ok a), s. split; [reflexivity|]. split; [reflexivity|].
  intros s2 _. exists s2. split; reflexivity.
Qed.

Lemma repeatable_throw {A : Type} (e : Exn) : repeatable (throw e : M A).
Proof.
  intros s. exists (Throw e), s. split; [reflexivity|]. split; [reflexivity|].
  intros s2 _. exists s2. split; reflexivity.
Qed.

Lemma repeatable_defined {A : Type} (what : string) (x : option A) :
  repeatable (defined what x).
Proof. destruct x; [apply repeatable_ret | apply repeatable_throw]. Qed.

Lemma repeatable_query chain address abi (m : Method) :
  repeatable (query W chain address abi m).
Proof.
  intros s. eexists; eexists. split; [reflexivity|]. split; [reflexivity|].
  intros s2 _. eexists. split; reflexivity.
Qed.

Lemma repeatable_query_at chain address abi (m : Method) :
  repeatable (query_at W chain address abi m).
Proof.
  destruct address as [a|]; [apply repeatable_query|].
  intros s. unfold query_at.
  destruct (existsb (fun i => chain_eqb (ie_chain i) chain) ignoredErrors);
    (eexists; eexists; split; [reflexivity|]; split; [reflexivity|];
     intros s2 _; eexists; split; reflexivity).
Qed.

Lemma repeatable_getTrackedTokenInfo_at chain address :
  repeatable (getTrackedTokenInfo_at W chain address).
Proof.
  unfold getTrackedTokenInfo_at.
  destruct address as [a|]; [apply repeatable_ret|].
  destruct (getTokens W chain); [apply repeatable_ret|apply repeatable_throw].
Qed.

Lemma repeatable_getTokenPrice chain address decimals :
  repeatable (getTokenPrice W chain address decimals).
Proof.
  intros s. unfold getTokenPrice.
  destruct (priceCache s !! (chain, toLowerCase address)) as [p|] eqn:Hlook.
  - exists (Ok p), s. split; [reflexivity|]. split; [reflexivity|].
    intros s2 Hsub. exists s2.
    rewrite (lookup_weaken _ _ _ _ Hlook Hsub). split; reflexivity.
  - eexists; eexists. split; [reflexivity|]. simpl.
    split; [apply insert_subseteq; exact Hlook|].
    intros s2 Hsub. exists s2.
    rewrite (lookup_weaken _ _ _ _ (lookup_insert_eq _ _ _) Hsub).
    split; reflexivity.
Qed.

Lemma repeatable_bind {A B : Type} (m : M A) (f : A -> M B) :
  repeatable m -> (forall a, repeatable (f a)) -> repeatable (m ≫= f).
Proof.
  intros Hm Hf s.
  destruct (Hm s) as (r & s1 & Hrun & Hsub & Hlater).
  destruct r as [a|e].
  - destruct (Hf a s1) as (r' & s1' & Hrun' & Hsub' & Hlater').
    exists r', s1'. rewrite bind_run, Hrun. split; [exact Hrun'|].
    split; [etransitivity; eassumption|].
    intros s2 Hs2.
    destruct (Hlater s2) as (s2' & Hrun2 & Hc2);
      [etransitivity; eassumption|].
    destruct (Hlater' s2') as (s2'' & Hrun2' & Hc2');
      [rewrite Hc2; exact Hs2|].
    exists s2''. rewrite bind_run, Hrun2. split; [exact Hrun2'|].
    rewrite Hc2'. exact Hc2.
  - exists (Throw e), s1. rewrite bind_run, Hrun. split; [reflexivity|].
    split; [exact Hsub|].
    intros s2 Hs2. destruct (Hlater s2 Hs2) as (s2' & Hrun2 & Hc2).
    exists s2'. rewrite bind_run, Hrun2. split; [reflexivity|exact Hc2].
Qed.

Lemma repeatable_fmap {A B : Type} (g : A -> B) (m : M A) :
  repeatable m -> repeatable (g <$> m).
Proof.
  intros Hm s.
  destruct (Hm s) as (r & s1 & Hrun & Hsub & Hlater).
  destruct r as [a|e].
  - exists (Ok (g a)), s1. rewrite fmap_run, Hrun. split; [reflexivity|].
    split; [exact Hsub|].
    intros s2 Hs2. destruct (Hlater s2 Hs2) as (s2' & Hrun2 & Hc2).
    exists s2'. rewrite fmap_run, Hrun2. split; [reflexivity|exact Hc2].
  - exists (Throw e), s1. rewrite fmap_run, Hrun. split; [reflexivity|].
    split; [exact Hsub|].
    intros s2 Hs2. destruct (Hlater s2 Hs2) as (s2' & Hrun2 & Hc2).
    exists s2'. rewrite fmap_run, Hrun2. split; [reflexivity|exact Hc2].
Qed.

(** Decompose a computation of the engine into its reads, price
    look-ups and pure steps. *)
Ltac repeatable_step :=
  lazymatch goal with
  | |- repeatable (mbind _ _) => apply repeatable_bind; [|intros ?]
  | |- repeatable (fmap _ _) => apply repeatable_fmap
  | |- repeatable (mret _) => apply repeatable_ret
  | |- repeatable (throw _) => apply repeatable_throw
  | |- repeatable (defined _ _) => apply repeatable_defined
  | |- repeatable (query _ ?c ?a ?abi ?m) => exact (repeatable_query c a abi m)
  | |- repeatable (query_at _ ?c ?a ?abi ?m) =>
      exact (repeatable_query_at c a abi m)
  | |- repeatable (getTrackedTokenInfo_at _ _ _) =>
      apply repeatable_getTrackedTokenInfo_at
  | |- repeatable (getTokenPrice _ _ _ _) => apply repeatable_getTokenPrice
  | |- repeatable (let '(_, _) := ?x in _) => destruct x
  | |- repeatable (match ?x with _ => _ end) => destruct x
  | |- repeatable (if ?b then _ else _) => destruct b
  | |- repeatable (let _ := _ in _) => cbv zeta
  end.

Ltac repeatable_steps := repeat repeatable_step.

Lemma repeatable_findTokenInfo chain address :
  repeatable (findTokenInfo W chain address).
Proof. unfold findTokenInfo. repeatable_steps. Qed.

Lemma repeatable_addToken chain location status address rawBalance owner :
  repeatable (addToken W chain location status address rawBalance owner).
Proof.
  unfold addToken.
  apply repeatable_bind; [apply repeatable_findTokenInfo|].
  intros [[symbol decimals] logo]. repeatable_steps.
Qed.

Lemma repeatable_addDebtToken chain location address rawBalance owner :
  repeatable (addDebtToken W chain location address rawBalance owner).
Proof.
  unfold addDebtToken.
  apply repeatable_bind; [apply repeatable_findTokenInfo|].
  intros [[symbol decimals] logo]. repeatable_steps.
Qed.

Lemma repeatable_pairedTokenInfo chain address tracked :
  repeatable (pairedTokenInfo W chain address tracked).
Proof. unfold pairedTokenInfo. repeatable_steps. Qed.

Lemma repeatable_addLPToken chain location status address rawBalance owner :
  repeatable (addLPToken W chain location status address rawBalance owner).
Proof.
  unfold addLPToken.
  repeat first [ apply repeatable_pairedTokenInfo | repeatable_step ].
Qed.

Lemma repeatable_addXToken chain location status address rawBalance owner
    underlyingAddress underlyingRawBalance :
  repeatable (addXToken W chain location status address rawBalance owner
                        underlyingAddress underlyingRawBalance).
Proof. unfold addXToken. repeatable_steps. Qed.

(** A repeatable computation, run again right after itself, has the
    same outcome. *)
Lemma repeatable_twice {A : Type} (m : M A) (s : Store) :
  repeatable m -> fst (m (snd (m s))) = fst (m s).
Proof.
  intros Hm. destruct (Hm s) as (r & s1 & Hrun & _ & Hlater).
  destruct (Hlater s1) as (s2 & Hrun2 & _); [reflexivity|].
  rewrite Hrun. simpl. rewrite Hrun2. reflexivity.
Qed.

End Repeatable.

(** C9.  [addToken], [addLPToken], [addXToken] and [addDebtToken], called
    a second time with the same arguments in the same on-chain state and
    with the same price source, from the store the first call left,
    return the same token (or throw the same exception). *)
Theorem classify_and_price_twice
    (W : World) (chain : EVMChain) (location : string) (status : TokenStatus)
    (address : Address) (rawBalance : number) (owner : Address)
    (underlyingAddress : Address) (underlyingRawBalance : number)
    (s : Store) :
  let call_addToken :=
    addToken W chain location status address rawBalance owner in
  let call_addLPToken :=
    addLPToken W chain location status address rawBalance owner in
  let call_addXToken :=
    addXToken W chain location status address rawBalance owner
              underlyingAddress underlyingRawBalance in
  let call_addDebtToken :=
    addDebtToken W chain location address rawBalance owner in
  fst (call_addToken (snd (call_addToken s))) = fst (call_addToken s)
  /\ fst (call_addLPToken (snd (call_addLPToken s))) = fst (call_addLPToken s)
  /\ fst (call_addXToken (snd (call_addXToken s))) = fst (call_addXToken s)
  /\ fst (call_addDebtToken (snd (call_addDebtToken s))) = fst (call_addDebtToken s).
Proof.
  simpl. repeat split; apply repeatable_twice.
  - apply repeatable_addToken.
  - apply repeatable_addLPToken.
  - apply repeatable_addXToken.
  - apply repeatable_addDebtToken.
Qed.

(* ===================================================================== *)
(** * Further properties *)
(* ===================================================================== *)

(* --------------------------------------------------------------------- *)
(** ** The query executor: schedule, bound and diagnostics *)
(* --------------------------------------------------------------------- *)

Module QueryScheduleFacts.
Import QueryExecutor.

Section Schedule.

Variable rpcs : EVMChain -> list URL.
Variable contract_call :
  nat -> option URL -> Address -> ABI -> string -> list JsVal -> Outcome.
Variables (chain : EVMChain) (address : Address) (abi : ABI)
          (method : string) (args : list JsVal).

Variable N : nat.
Hypothesis HN : N = length (rpcs chain).

(** The attempts are sent to the endpoints in list order, pass after
    pass: attempt [a] goes to endpoint [a mod N]. *)
Lemma loop_follows_the_list (m : nat) (v : JsVal) :
  (m < 3 * N)%nat ->
  (forall i, (i < m)%nat ->
     contract_call i (rpcs chain !! (i mod N)%nat) address abi method args
     = Throws) ->
  contract_call m (rpcs chain !! (m mod N)%nat) address abi method args
  = Returns v ->
  truthy v = true ->
  forall (fuel e r : nat) (log : list Diagnostic),
    (r < N)%nat -> (e * N + r <= m)%nat -> (m - (e * N + r) < fuel)%nat ->
    exists st',
      loop rpcs contract_call fuel chain address abi method args
           {| result := VUndefined; errors := e; rpcID := r;
              attempts := e * N + r; console := log |}
      = Some st'
      /\ result st' = v /\ attempts st' = S m /\ console st' = log.
Proof.
  intros Hm Hthrow Hret Htruthy.
  induction fuel as [|fuel IH]; intros e r log Hr Ha Hfuel; [lia|].
  assert (He : (e < 3)%nat) by nia.
  assert (Hmod : ((e * N + r) mod N = r)%nat).
  { rewrite Nat.add_comm, Nat.Div0.mod_add. apply Nat.mod_small. exact Hr. }
  cbn [loop]. unfold continues. cbn [result errors truthy negb andb].
  assert (Hlt : (e <? maxQueryRetries)%nat = true)
    by (apply Nat.ltb_lt; unfold maxQueryRetries; lia).
  rewrite Hlt. unfold body. cbn [result errors rpcID attempts console].
  rewrite <- HN.
  destruct (Nat.eq_dec (e * N + r) m) as [Heq|Hne].
  - rewrite Heq in Hmod |- *. rewrite <- Hmod, Hret.
    destruct fuel; cbn [loop]; unfold continues; cbn [result];
      rewrite Htruthy;
      (eexists; split; [reflexivity|]; simpl; auto).
  - pose proof (Hthrow (e * N + r)%nat) as Hcall.
    rewrite Hmod in Hcall. rewrite Hcall by lia.
    destruct (Nat.leb_spec N (S r)) as [Hwrap|Hin].
    + assert (Hr' : S r = N) by lia.
      assert (He' : (S e < 3)%nat) by nia.
      destruct (Nat.leb_spec maxQueryRetries (S e)) as [Hlast|_];
        [unfold maxQueryRetries in Hlast; lia|].
      assert (Hnext : S (e * N + r) = (S e * N + 0)%nat) by lia.
      rewrite Hnext. apply IH; lia.
    + assert (Hnext : S (e * N + r) = (e * N + S r)%nat) by lia.
      rewrite Hnext. apply IH; lia.
Qed.

End Schedule.

Section AnyNetwork.

Variable rpcs : EVMChain -> list URL.
Variable contract_call :
  nat -> option URL -> Address -> ABI -> string -> list JsVal -> Outcome.
Variables (chain : EVMChain) (address : Address) (abi : ABI)
          (method : string) (args : list JsVal).

(** Whatever the network does: while the loop runs the console is
    empty and every throw has been counted; when it ends, either the
    result is truthy, or the three passes are used up and the
    diagnostic has been written. *)
Lemma loop_ends_truthy_or_abandoned (fuel : nat) :
  forall st st' : Locals,
    (errors st < 3)%nat ->
    (rpcID st < Nat.max 1 (length (rpcs chain)))%nat ->
    (errors st * Nat.max 1 (length (rpcs chain)) + rpcID st <= attempts st)%nat ->
    console st = [] ->
    loop rpcs contract_call fuel chain address abi method args st = Some st' ->
    (truthy (result st') = true /\ console st' = [])
    \/ (truthy (result st') = false
        /\ console st' = abandoned_console chain address method args
        /\ (3 * Nat.max 1 (length (rpcs chain)) <= attempts st')%nat).
Proof.
  induction fuel as [|fuel IH]; intros st st' Herr Hrpc Hatt Hlog;
    cbn [loop]; destruct (continues st) eqn:Hcont;
    try discriminate;
    try (intros [= <-]; left; split; [|exact Hlog];
         unfold continues in Hcont;
         apply andb_false_iff in Hcont as [H|H];
         [apply negb_false_iff in H; exact H
         |apply Nat.ltb_ge in H; unfold maxQueryRetries in H; lia]).
  unfold continues in Hcont. apply andb_prop in Hcont as [Hfalsy _].
  apply negb_true_iff in Hfalsy.
  unfold body.
  destruct (contract_call (attempts st) (rpcs chain !! rpcID st)
                          address abi method args) as [v|].
  - apply IH; cbn [result errors rpcID attempts console];
      try assumption; lia.
  - destruct (Nat.leb_spec (length (rpcs chain)) (S (rpcID st))) as [Hwrap|Hin].
    + destruct (Nat.leb_spec maxQueryRetries (S (errors st))) as [Hlast|Hmore];
        unfold maxQueryRetries in *.
      * (* the third pass ends: the call is abandoned *)
        assert (He : errors st = 2%nat) by lia.
        destruct fuel as [|fuel']; cbn [loop]; unfold continues;
          cbn [result errors]; rewrite Hfalsy, He;
          change (3 <? maxQueryRetries)%nat with false; cbn [negb andb];
          (intros [= <-]; right; cbn [result console attempts];
           split; [exact Hfalsy|]; split;
           [unfold abandoned_console; rewrite Hlog;
            destruct (isIgnored chain address); reflexivity
           |rewrite He in Hatt; lia]).
      * apply IH; cbn [result errors rpcID attempts console];
          try assumption; lia.
    + apply IH; cbn [result errors rpcID attempts console];
        try assumption; lia.
Qed.

(** When no attempt decodes a value that is not truthy, the loop ends
    within the attempts that are left of the three passes. *)
Lemma loop_ends_within_three_passes :
  (forall n u v,
     contract_call n u address abi method args = Returns v ->
     truthy v = true) ->
  forall (fuel : nat) (st : Locals) (left : nat),
    result st = VUndefined ->
    (errors st < 3)%nat ->
    (rpcID st < Nat.max 1 (length (rpcs chain)))%nat ->
    left = ((3 - errors st) * Nat.max 1 (length (rpcs chain)) - rpcID st)%nat ->
    (left <= fuel)%nat ->
    exists st',
      loop rpcs contract_call fuel chain address abi method args st = Some st'
      /\ ((truthy (result st') = true
           /\ (attempts st' <= attempts st + left)%nat
           /\ console st' = console st)
          \/ (result st' = VUndefined
              /\ attempts st' = (attempts st + left)%nat
              /\ console st' =
                   console st ++ abandoned_console chain address method args)).
Proof.
  intros Htruthy.
  induction fuel as [|fuel IH]; intros st left Hres Herr Hrpc Hleft Hfuel.
  - exfalso. destruct (errors st) as [|[|[|e]]]; simpl in Hleft; lia.
  - cbn [loop]. unfold continues. rewrite Hres. cbn [truthy negb andb].
    assert (Hlt : (errors st <? maxQueryRetries)%nat = true)
      by (apply Nat.ltb_lt; unfold maxQueryRetries; lia).
    rewrite Hlt. unfold body.
    destruct (contract_call (attempts st) (rpcs chain !! rpcID st)
                            address abi method args) as [v|] eqn:Hcall.
    + (* a decoded value: it is truthy, and the loop ends *)
      apply Htruthy in Hcall.
      exists {| result := v; errors := errors st; rpcID := rpcID st;
                attempts := S (attempts st); console := console st |}.
      split.
      * destruct fuel; cbn [loop]; unfold continues; cbn [result];
          rewrite Hcall; reflexivity.
      * left. cbn [result attempts console]. split; [exact Hcall|].
        split; [|reflexivity].
        destruct (errors st) as [|[|[|e]]]; simpl in *; lia.
    + destruct (Nat.leb_spec (length (rpcs chain)) (S (rpcID st))) as [Hwrap|Hin].
      * destruct (Nat.leb_spec maxQueryRetries (S (errors st))) as [Hlast|Hmore];
          unfold maxQueryRetries in *.
        -- assert (He : errors st = 2%nat) by lia.
           rewrite He in Hleft. simpl in Hleft.
           eexists. split.
           ++ destruct fuel; cbn [loop]; unfold continues; cbn [result errors];
                rewrite Hres, He; reflexivity.
           ++ right. cbn [result attempts console].
              split; [reflexivity|]. split; [lia|].
              unfold abandoned_console.
              destruct (isIgnored chain address);
                [rewrite app_nil_r|]; reflexivity.
        -- destruct (IH {| result := result st; errors := S (errors st);
                           rpcID := 0; attempts := S (attempts st);
                           console := console st |} (left - 1)%nat)
             as (st' & Hrun & Hpost); cbn [result errors rpcID attempts console];
             try assumption; try lia;
             try (destruct (errors st) as [|[|[|e]]]; simpl in *; lia).
           exists st'. split; [exact Hrun|].
           cbn [result errors rpcID attempts console] in Hpost.
           destruct Hpost as [(Ht & Ha & Hc)|(Hr & Ha & Hc)]; [left|right];
             (split; [assumption|]; split; [|exact Hc]);
             destruct (errors st) as [|[|[|e]]]; simpl in *; lia.
      * destruct (IH {| result := result st; errors := errors st;
                        rpcID := S (rpcID st); attempts := S (attempts st);
                        console := console st |} (left - 1)%nat)
          as (st' & Hrun & Hpost); cbn [result errors rpcID attempts console];
          try assumption; try lia;
          try (destruct (errors st) as [|[|[|e]]]; simpl in *; lia).
        exists st'. split; [exact Hrun|].
        cbn [result errors rpcID attempts console] in Hpost.
        destruct Hpost as [(Ht & Ha & Hc)|(Hr & Ha & Hc)]; [left|right];
          (split; [assumption|]; split; [|exact Hc]);
          destruct (errors st) as [|[|[|e]]]; simpl in *; lia.
Qed.

End AnyNetwork.

(** X1.  While its attempts throw, [query] goes through the endpoints
    in list order, pass after pass.  When every attempt [i] before the
    [m]-th throws at endpoint [i mod N], and the [m]-th, still within
    the three passes, decodes a truthy value at endpoint [m mod N],
    that value is returned after exactly [m + 1] attempts and nothing
    is written to the console.  (The endpoint changes only when an
    attempt throws: a decoded value that is not truthy is asked for
    again at the same endpoint.) *)
Theorem query_failover_follows_the_list
    (rpcs : EVMChain -> list URL)
    (contract_call :
       nat -> option URL -> Address -> ABI -> string -> list JsVal -> Outcome)
    (chain : EVMChain) (address : Address) (abi : ABI)
    (method : string) (args : list JsVal) (m fuel : nat) (v : JsVal) :
  (m < 3 * length (rpcs chain))%nat ->
  (forall i, (i < m)%nat ->
     contract_call i (rpcs chain !! (i mod length (rpcs chain))%nat)
                   address abi method args = Throws) ->
  contract_call m (rpcs chain !! (m mod length (rpcs chain))%nat)
                address abi method args = Returns v ->
  truthy v = true ->
  (m < fuel)%nat ->
  query rpcs contract_call fuel chain address abi method args
  = Some (v, S m, []).
Proof.
  intros Hm Hthrow Hret Htruthy Hfuel. unfold query, init.
  destruct (loop_follows_the_list rpcs contract_call chain address abi
              method args (length (rpcs chain)) eq_refl m v Hm Hthrow Hret
              Htruthy fuel 0 0 [])
    as (st' & Hrun & Hr & Ha & Hc); try lia.
  simpl in Hrun. rewrite Hrun, Hr, Ha, Hc. reflexivity.
Qed.

Lemma query_failover_follows_the_list_witness :
  query two_endpoints (answers_from 3 (VString "USDC")) 10 eth
        sample_token minABI "symbol" []
  = Some (VString "USDC", 4%nat, []).
Proof.
  apply (query_failover_follows_the_list two_endpoints
           (answers_from 3 (VString "USDC")) eth sample_token minABI
           "symbol" [] 3 10 (VString "USDC")).
  - simpl. lia.
  - intros i Hi. unfold answers_from.
    destruct (Nat.ltb_spec i 3); [reflexivity|lia].
  - reflexivity.
  - reflexivity.
  - lia.
Defined.

(** X2.  When no attempt decodes a value that is not truthy, [query]
    returns after at most [3 * max 1 N] attempts: either a truthy value
    with nothing written to the console, or [undefined] after exactly
    that many attempts, with the diagnostic of an abandoned call. *)
Theorem query_returns_within_three_passes
    (rpcs : EVMChain -> list URL)
    (contract_call :
       nat -> option URL -> Address -> ABI -> string -> list JsVal -> Outcome)
    (chain : EVMChain) (address : Address) (abi : ABI)
    (method : string) (args : list JsVal) (fuel : nat) :
  (forall n u v,
     contract_call n u address abi method args = Returns v ->
     truthy v = true) ->
  (3 * Nat.max 1 (length (rpcs chain)) <= fuel)%nat ->
  exists (r : JsVal) (n : nat) (log : list Diagnostic),
    query rpcs contract_call fuel chain address abi method args
    = Some (r, n, log)
    /\ (n <= 3 * Nat.max 1 (length (rpcs chain)))%nat
    /\ ((truthy r = true /\ log = [])
        \/ (r = VUndefined
            /\ n = (3 * Nat.max 1 (length (rpcs chain)))%nat
            /\ log = abandoned_console chain address method args)).
Proof.
  intros Htruthy Hfuel. unfold query.
  destruct (loop_ends_within_three_passes rpcs contract_call chain address
              abi method args Htruthy fuel init
              (3 * Nat.max 1 (length (rpcs chain)))%nat)
    as (st' & Hrun & Hpost); simpl; try lia; try reflexivity.
  rewrite Hrun. exists (result st'), (attempts st'), (console st').
  split; [reflexivity|].
  simpl in Hpost.
  destruct Hpost as [(Ht & Ha & Hc)|(Hr & Ha & Hc)].
  - split; [lia|]. left. split; assumption.
  - split; [lia|]. right. split; [exact Hr|]. split; [lia|exact Hc].
Qed.

Lemma query_returns_within_three_passes_witness :
  exists (r : JsVal) (n : nat) (log : list Diagnostic),
    query two_endpoints (answers_from 3 (VString "USDC")) 6 eth
          sample_token minABI "symbol" []
    = Some (r, n, log)
    /\ (n <= 3 * Nat.max 1 (length (two_endpoints eth)))%nat
    /\ ((truthy r = true /\ log = [])
        \/ (r = VUndefined
            /\ n = (3 * Nat.max 1 (length (two_endpoints eth)))%nat
            /\ log = abandoned_console eth sample_token "symbol" [])).
Proof.
  apply (query_returns_within_three_passes two_endpoints
           (answers_from 3 (VString "USDC")) eth sample_token minABI
           "symbol" [] 6).
  - intros n u v. unfold answers_from.
    destruct (n <? 3)%nat; [discriminate|].
    intros [= <-]. reflexivity.
  - simpl. lia.
Defined.

(** X3.  Whatever the network answers, when [query] returns, either
    its result is truthy and nothing was written to the console, or the
    call was abandoned: the three passes were used up (at least
    [3 * max 1 N] attempts) and the console holds the diagnostic of an
    abandoned call (one line, or none for an ignored address).  A
    result that is not truthy is never returned without it. *)
Theorem query_diagnostic_only_when_abandoned
    (rpcs : EVMChain -> list URL)
    (contract_call :
       nat -> option URL -> Address -> ABI -> string -> list JsVal -> Outcome)
    (chain : EVMChain) (address : Address) (abi : ABI)
    (method : string) (args : list JsVal) (fuel : nat)
    (r : JsVal) (n : nat) (log : list Diagnostic) :
  query rpcs contract_call fuel chain address abi method args
  = Some (r, n, log) ->
  (truthy r = true /\ log = [])
  \/ (truthy r = false
      /\ log = abandoned_console chain address method args
      /\ (3 * Nat.max 1 (length (rpcs chain)) <= n)%nat).
Proof.
  unfold query.
  destruct (loop rpcs contract_call fuel chain address abi method args init)
    as [st'|] eqn:Hrun; [|discriminate].
  intros [= <- <- <-].
  apply (loop_ends_truthy_or_abandoned rpcs contract_call chain address abi
           method args fuel init st'); simpl; try lia; try reflexivity.
  exact Hrun.
Qed.

(** A first attempt that decodes the number 0, followed by throws: the
    0 is returned after the three passes, with the error line. *)
Lemma query_diagnostic_only_when_abandoned_witness :
  (truthy (VNumber (ofZ 0)) = true
   /\ [QueryError "decimals" [] sample_token "ETH"] = [])
  \/ (truthy (VNumber (ofZ 0)) = false
      /\ [QueryError "decimals" [] sample_token "ETH"]
         = abandoned_console eth sample_token "decimals" []
      /\ (3 * Nat.max 1 (length (two_endpoints eth)) <= 7)%nat).
Proof.
  apply (query_diagnostic_only_when_abandoned two_endpoints zero_then_throws
           eth sample_token minABI "decimals" [] 10
           (VNumber (ofZ 0)) 7
           [QueryError "decimals" [] sample_token "ETH"]).
  reflexivity.
Defined.

End QueryScheduleFacts.

(* --------------------------------------------------------------------- *)
(** ** The wallet's native balance *)
(* --------------------------------------------------------------------- *)

Module WalletNativeFacts.
Import WalletNative.

Section Loop.

Variable rpcs : EVMChain -> list URL.
Variable getBalance : nat -> option URL -> Address -> option Z.
Variables (chain : EVMChain) (wallet : Address).

(** When no attempt answers, the loop uses up its three passes. *)
Lemma loop_no_answer :
  (forall n u, getBalance n u wallet = None) ->
  forall (fuel : nat) (st : Locals) (left : nat),
    balance st = None ->
    (errors st < 3)%nat ->
    (rpcID st < Nat.max 1 (length (rpcs chain)))%nat ->
    left = ((3 - errors st) * Nat.max 1 (length (rpcs chain)) - rpcID st)%nat ->
    (left <= fuel)%nat ->
    exists st',
      loop rpcs getBalance fuel chain wallet st = Some st'
      /\ balance st' = None
      /\ attempts st' = (attempts st + left)%nat.
Proof.
  intros Hnone.
  induction fuel as [|fuel IH]; intros st left Hbal Herr Hrpc Hleft Hfuel.
  - exfalso. destruct (errors st) as [|[|[|e]]]; simpl in Hleft; lia.
  - cbn [loop]. unfold continues. rewrite Hbal. cbn [falsy andb].
    assert (Hlt : (errors st <? maxQueryRetries)%nat = true)
      by (apply Nat.ltb_lt; unfold maxQueryRetries; lia).
    rewrite Hlt. unfold body. rewrite Hnone.
    destruct (Nat.leb_spec (length (rpcs chain)) (S (rpcID st))) as [Hwrap|Hin].
    + destruct (Nat.eq_dec (errors st) 2) as [He|He].
      * (* the last endpoint of the third pass *)
        rewrite He in Hleft. simpl in Hleft.
        eexists. split.
        -- destruct fuel; cbn [loop]; unfold continues; cbn [balance errors];
             rewrite Hbal, He; reflexivity.
        -- cbn [balance attempts]. split; [reflexivity|lia].
      * destruct (IH {| balance := balance st; errors := S (errors st);
                        rpcID := 0; attempts := S (attempts st) |}
                     (left - 1)%nat)
          as (st' & Hrun & Hb & Ha); cbn [balance errors rpcID attempts];
          try assumption; try lia;
          try (destruct (errors st) as [|[|[|e]]]; simpl in *; lia).
        exists st'. split; [exact Hrun|]. split; [exact Hb|].
        cbn [attempts] in Ha. rewrite Ha.
        destruct (errors st) as [|[|[|e]]]; simpl in *; lia.
    + destruct (IH {| balance := balance st; errors := errors st;
                      rpcID := S (rpcID st); attempts := S (attempts st) |}
                   (left - 1)%nat)
        as (st' & Hrun & Hb & Ha); cbn [balance errors rpcID attempts];
        try assumption; try lia;
        try (destruct (errors st) as [|[|[|e]]]; simpl in *; lia).
      exists st'. split; [exact Hrun|]. split; [exact Hb|].
      cbn [attempts] in Ha. rewrite Ha.
      destruct (errors st) as [|[|[|e]]]; simpl in *; lia.
Qed.

(** A balance of 0 does not end the loop and moves none of its
    counters. *)
Lemma loop_zero_forever :
  (forall n u, getBalance n u wallet = Some 0%Z) ->
  forall (fuel : nat) (st : Locals),
    falsy (balance st) = true ->
    (errors st < maxQueryRetries)%nat ->
    loop rpcs getBalance fuel chain wallet st = None.
Proof.
  intros Hzero.
  induction fuel as [|fuel IH]; intros st Hbal Herr; cbn [loop];
    unfold continues; rewrite Hbal; cbn [andb];
    apply Nat.ltb_lt in Herr as Hlt; rewrite Hlt; [reflexivity|].
  unfold body. rewrite Hzero. apply IH; cbn [balance errors]; auto.
Qed.

(** While the first endpoints throw, the loop walks down the list. *)
Lemma loop_first_answer (k : nat) (z : Z) :
  (k < length (rpcs chain))%nat ->
  (forall i, (i < k)%nat -> getBalance i (rpcs chain !! i) wallet = None) ->
  getBalance k (rpcs chain !! k) wallet = Some z ->
  z <> 0%Z ->
  forall (fuel j : nat),
    (j <= k)%nat -> (k - j < fuel)%nat ->
    loop rpcs getBalance fuel chain wallet
         {| balance := None; errors := 0; rpcID := j; attempts := j |}
    = Some {| balance := Some z; errors := 0; rpcID := k; attempts := S k |}.
Proof.
  intros Hk Hnone Hsome Hz.
  assert (Hfalsy : falsy (Some z) = false) by (apply Z.eqb_neq; exact Hz).
  induction fuel as [|fuel IH]; intros j Hj Hfuel; [lia|].
  cbn [loop]. unfold continues. cbn [balance errors falsy andb].
  change (0 <? maxQueryRetries)%nat with true. cbv iota.
  unfold body. cbn [balance errors rpcID attempts].
  destruct (Nat.eq_dec j k) as [->|Hne].
  - rewrite Hsome.
    destruct fuel; cbn [loop]; unfold continues; cbn [balance];
      rewrite Hfalsy; reflexivity.
  - rewrite (Hnone j) by lia.
    destruct (Nat.leb_spec (length (rpcs chain)) (S j)); [lia|].
    apply IH; lia.
Qed.

End Loop.

(** X4.  For a wallet that holds no native coin, on a network whose
    every balance query answers 0, [getWalletNativeTokenBalance] does
    not return: the number 0 is not truthy, so the loop asks again and
    counts no error; no number of iterations ends it.  [getWalletBalance]
    awaits it first, so it does not return either, whatever the token
    balances are. *)
Theorem native_balance_of_empty_wallet_never_returns
    (W : World) (rpcs : EVMChain -> list URL)
    (getBalance : nat -> option URL -> Address -> option Z)
    (getWalletTokenBalance : EVMChain -> Address -> M (list AnyToken))
    (chain : EVMChain) (wallet : Address) :
  (forall n u, getBalance n u wallet = Some 0%Z) ->
  forall fuel : nat,
    getWalletNativeTokenBalance W rpcs getBalance fuel chain wallet = None
    /\ getWalletBalance W rpcs getBalance getWalletTokenBalance
                        fuel chain wallet = None.
Proof.
  intros Hzero fuel.
  assert (Hloop : loop rpcs getBalance fuel chain wallet init = None).
  { apply loop_zero_forever; [exact Hzero|reflexivity|].
    unfold maxQueryRetries. simpl. lia. }
  unfold getWalletBalance, getWalletNativeTokenBalance.
  rewrite Hloop. split; reflexivity.
Qed.

Lemma native_balance_of_empty_wallet_never_returns_witness :
  getWalletNativeTokenBalance (sample_world 1) two_endpoints empty_wallet
                              1000 eth sample_wallet = None
  /\ getWalletBalance (sample_world 1) two_endpoints empty_wallet
                      sample_getWalletTokenBalance 1000 eth sample_wallet
     = None.
Proof.
  apply (native_balance_of_empty_wallet_never_returns (sample_world 1)
           two_endpoints empty_wallet sample_getWalletTokenBalance eth
           sample_wallet).
  reflexivity.
Defined.

(** X5.  When every balance query throws, the loop makes exactly
    [3 * max 1 N] attempts, and [getWalletNativeTokenBalance] then
    returns the empty array: it does not raise, and unlike [query] it
    writes nothing to the console. *)
Theorem native_balance_unreachable_is_silent
    (W : World) (rpcs : EVMChain -> list URL)
    (getBalance : nat -> option URL -> Address -> option Z)
    (chain : EVMChain) (wallet : Address) (fuel : nat) :
  (forall n u, getBalance n u wallet = None) ->
  (3 * Nat.max 1 (length (rpcs chain)) <= fuel)%nat ->
  (exists st,
     loop rpcs getBalance fuel chain wallet init = Some st
     /\ attempts st = (3 * Nat.max 1 (length (rpcs chain)))%nat)
  /\ exists found,
       getWalletNativeTokenBalance W rpcs getBalance fuel chain wallet
       = Some found
       /\ forall s : Store, found s = (Ok [], s).
Proof.
  intros Hnone Hfuel.
  destruct (loop_no_answer rpcs getBalance chain wallet Hnone fuel init
              (3 * Nat.max 1 (length (rpcs chain)))%nat)
    as (st' & Hrun & Hb & Ha); simpl; try lia; try reflexivity.
  split.
  - exists st'. split; [exact Hrun|]. rewrite Ha. simpl. lia.
  - unfold getWalletNativeTokenBalance. rewrite Hrun, Hb.
    eexists. split; [reflexivity|]. intros s. reflexivity.
Qed.

Lemma native_balance_unreachable_is_silent_witness :
  (exists st,
     loop two_endpoints no_answer 6 eth sample_wallet init = Some st
     /\ attempts st = (3 * Nat.max 1 (length (two_endpoints eth)))%nat)
  /\ exists found,
       getWalletNativeTokenBalance (sample_world 1) two_endpoints no_answer
                                   6 eth sample_wallet
       = Some found
       /\ forall s : Store, found s = (Ok [], s).
Proof.
  apply (native_balance_unreachable_is_silent (sample_world 1) two_endpoints
           no_answer eth sample_wallet 6).
  - reflexivity.
  - simpl. lia.
Defined.

(** X6.  When the first [k] endpoints throw and endpoint [k] answers a
    balance of [z > 0] wei, [getWalletNativeTokenBalance] returns
    exactly one token: of type 'nativeToken', in the wallet, at the
    native sentinel address, with the chain's native symbol, the
    balance [z / 10^18] and the price the resolver gives for the
    sentinel address.  No contract is read and nothing is written to
    the console. *)
Theorem native_balance_of_funded_wallet
    (W : World) (rpcs : EVMChain -> list URL)
    (getBalance : nat -> option URL -> Address -> option Z)
    (chain : EVMChain) (wallet : Address) (k fuel : nat) (z : Z)
    (s : Store) :
  (k < length (rpcs chain))%nat ->
  (forall i, (i < k)%nat -> getBalance i (rpcs chain !! i) wallet = None) ->
  getBalance k (rpcs chain !! k) wallet = Some z ->
  (0 < z)%Z ->
  (k < fuel)%nat ->
  exists found price s',
    getWalletNativeTokenBalance W rpcs getBalance fuel chain wallet
    = Some found
    /\ getTokenPrice W chain defaultAddress (IntVal 18) s = (Ok price, s')
    /\ found s =
       (Ok [IsToken
              {| t_type := ty_nativeToken; t_chain := chain;
                 t_location := "wallet"; t_status := st_none;
                 t_owner := wallet;
                 t_symbol := Some (getNativeTokenSymbol chain);
                 t_address := defaultAddress;
                 t_balance := Fin (normalized z 18);
                 t_price := price;
                 t_logo := getTokenLogo W chain
                             (Some (getNativeTokenSymbol chain)) |}], s')
    /\ queryTrace s' = queryTrace s
    /\ consoleLog s' = consoleLog s.
Proof.
  intros Hk Hnone Hsome Hz Hfuel.
  assert (Hnz : z <> 0%Z) by lia.
  unfold getWalletNativeTokenBalance, init.
  rewrite (loop_first_answer rpcs getBalance chain wallet k z Hk Hnone Hsome
             Hnz fuel 0) by lia.
  cbn [balance falsy].
  assert (Hz0 : (z =? 0)%Z = false) by (apply Z.eqb_neq; exact Hnz).
  assert (Hzp : (0 <? z)%Z = true) by (apply Z.ltb_lt; exact Hz).
  rewrite Hz0, Hzp. cbn [negb andb].
  destruct (getTokenPrice_returns W chain defaultAddress (IntVal 18) s)
    as (price & s' & Hprice & Htrace & Hlog).
  eexists; exists price, s'. split; [reflexivity|]. split; [exact Hprice|].
  split; [|split; assumption].
  unfold addNativeToken. mstep. rewrite Hprice. mstep.
  rewrite num_div_pow10. reflexivity.
Qed.

Lemma native_balance_of_funded_wallet_witness :
  exists found price s',
    getWalletNativeTokenBalance (sample_world 1) two_endpoints
                                (funded_wallet 2500000000000000000)
                                5 poly sample_wallet
    = Some found
    /\ getTokenPrice (sample_world 1) poly defaultAddress (IntVal 18)
                     emptyStore = (Ok price, s')
    /\ found emptyStore =
       (Ok [IsToken
              {| t_type := ty_nativeToken; t_chain := poly;
                 t_location := "wallet"; t_status := st_none;
                 t_owner := sample_wallet;
                 t_symbol := Some (getNativeTokenSymbol poly);
                 t_address := defaultAddress;
                 t_balance := Fin (normalized 2500000000000000000 18);
                 t_price := price;
                 t_logo := getTokenLogo (sample_world 1) poly
                             (Some (getNativeTokenSymbol poly)) |}], s')
    /\ queryTrace s' = queryTrace emptyStore
    /\ consoleLog s' = consoleLog emptyStore.
Proof.
  apply (native_balance_of_funded_wallet (sample_world 1) two_endpoints
           (funded_wallet 2500000000000000000) poly sample_wallet 1 5
           2500000000000000000 emptyStore).
  - simpl. lia.
  - intros i Hi. unfold funded_wallet.
    destruct (Nat.ltb_spec i 1); [reflexivity|lia].
  - reflexivity.
  - lia.
  - lia.
Defined.

End WalletNativeFacts.

(* --------------------------------------------------------------------- *)
(** ** The token catalog *)
(* --------------------------------------------------------------------- *)

Lemma lower_upper_ascii (c : ascii) : lower_ascii (upper_ascii c) = lower_ascii c.
Proof. destruct c as [[] [] [] [] [] [] [] []]; reflexivity. Qed.

Lemma lower_lower_ascii (c : ascii) : lower_ascii (lower_ascii c) = lower_ascii c.
Proof. destruct c as [[] [] [] [] [] [] [] []]; reflexivity. Qed.

Lemma toLowerCase_toUpperCase (a : string) :
  toLowerCase (toUpperCase a) = toLowerCase a.
Proof.
  induction a as [|c a IH]; [reflexivity|].
  cbn [toUpperCase]. unfold toLowerCase; fold toLowerCase.
  rewrite lower_upper_ascii, IH. reflexivity.
Qed.

Lemma toLowerCase_idempotent (a : string) :
  toLowerCase (toLowerCase a) = toLowerCase a.
Proof.
  induction a as [|c a IH]; [reflexivity|].
  unfold toLowerCase; fold toLowerCase.
  rewrite lower_lower_ascii, IH. reflexivity.
Qed.

Lemma sameAddress_eq (a b : Address) :
  sameAddress a b = true <-> toLowerCase a = toLowerCase b.
Proof. unfold sameAddress. apply String.eqb_eq. Qed.

(** X7.  The catalog lookup ignores the letter case of the address: two
    spellings of one address find the same entry, and so do the
    upper-cased and the lower-cased address.  The entry found is a
    token of the chain's catalog with that address; when none is found,
    no token of the catalog has it. *)
Theorem getTrackedTokenInfo_ignores_case
    (W : World) (chain : EVMChain) (a b : Address) :
  sameAddress a b = true ->
  getTrackedTokenInfo W chain a = getTrackedTokenInfo W chain b
  /\ getTrackedTokenInfo W chain (toUpperCase a) = getTrackedTokenInfo W chain b
  /\ getTrackedTokenInfo W chain (toLowerCase a) = getTrackedTokenInfo W chain b
  /\ match getTrackedTokenInfo W chain a with
     | Some t =>
         In t (getTokens W chain) /\ sameAddress (td_address t) b = true
     | None =>
         forall t, In t (getTokens W chain) ->
                   sameAddress (td_address t) b = false
     end.
Proof.
  intros Hsame. apply sameAddress_eq in Hsame.
  unfold getTrackedTokenInfo, getTokens, sameAddress.
  rewrite toLowerCase_toUpperCase, toLowerCase_idempotent, Hsame.
  split; [reflexivity|]. split; [reflexivity|]. split; [reflexivity|].
  destruct (getChainTokenData W chain) as [data|]; [|intros t []].
  destruct (List.find _ (cd_tokens data)) as [t|] eqn:Hfind.
  - apply List.find_some in Hfind. exact Hfind.
  - intros t Hin. exact (List.find_none _ _ Hfind t Hin).
Qed.

Lemma getTrackedTokenInfo_ignores_case_witness :
  getTrackedTokenInfo (sample_world 1) poly sample_tokenB
  = getTrackedTokenInfo (sample_world 1) poly
      "0x2791bca1f2de4661ed88a30c99a7a9449aa84174"
  /\ getTrackedTokenInfo (sample_world 1) poly (toUpperCase sample_tokenB)
     = getTrackedTokenInfo (sample_world 1) poly
         "0x2791bca1f2de4661ed88a30c99a7a9449aa84174"
  /\ getTrackedTokenInfo (sample_world 1) poly (toLowerCase sample_tokenB)
     = getTrackedTokenInfo (sample_world 1) poly
         "0x2791bca1f2de4661ed88a30c99a7a9449aa84174"
  /\ match getTrackedTokenInfo (sample_world 1) poly sample_tokenB with
     | Some t =>
         In t (getTokens (sample_world 1) poly)
         /\ sameAddress (td_address t)
                        "0x2791bca1f2de4661ed88a30c99a7a9449aa84174" = true
     | None =>
         forall t, In t (getTokens (sample_world 1) poly) ->
                   sameAddress (td_address t)
                               "0x2791bca1f2de4661ed88a30c99a7a9449aa84174"
                   = false
     end.
Proof.
  apply (getTrackedTokenInfo_ignores_case (sample_world 1) poly sample_tokenB
           "0x2791bca1f2de4661ed88a30c99a7a9449aa84174").
  reflexivity.
Defined.

(** X8.  [getTokenLogo] falls back to the default logo: for a symbol
    that no token of the chain's catalog and no entry of its logo table
    carries (the comparison is exact, letter case included), and for an
    [undefined] symbol, which is what an abandoned [symbol()] read
    leaves. *)
Theorem getTokenLogo_of_unlisted_symbol
    (W : World) (chain : EVMChain) (symbol : Symbol) :
  (forall (s : string) (data : ChainTokenData),
     symbol = Some s ->
     getChainTokenData W chain = Some data ->
     (forall t, In t (cd_tokens data) -> td_symbol t <> s)
     /\ (forall l, In l (cd_logos data) -> ld_symbol l <> s)) ->
  getTokenLogo W chain symbol = defaultTokenLogo.
Proof.
  intros Hunlisted. unfold getTokenLogo.
  destruct (getChainTokenData W chain) as [data|] eqn:Hdata; [|reflexivity].
  destruct (List.find _ (cd_tokens data)) as [t|] eqn:Htok.
  - exfalso. apply List.find_some in Htok as [Hin Hsym].
    destruct symbol as [s|]; [|discriminate].
    apply String.eqb_eq in Hsym.
    exact (proj1 (Hunlisted s data eq_refl eq_refl) t Hin Hsym).
  - destruct (List.find _ (cd_logos data)) as [l|] eqn:Hlogo; [|reflexivity].
    exfalso. apply List.find_some in Hlogo as [Hin Hsym].
    destruct symbol as [s|]; [|discriminate].
    apply String.eqb_eq in Hsym.
    exact (proj2 (Hunlisted s data eq_refl eq_refl) l Hin Hsym).
Qed.

Lemma getTokenLogo_of_unlisted_symbol_witness :
  getTokenLogo (sample_world 1) poly (Some "usdc") = defaultTokenLogo.
Proof.
  apply (getTokenLogo_of_unlisted_symbol (sample_world 1) poly (Some "usdc")).
  intros s data [= <-] [= <-]. simpl.
  split; [intros t [<-|[]]; discriminate | intros l []].
Defined.

(* --------------------------------------------------------------------- *)
(** ** Single tokens *)
(* --------------------------------------------------------------------- *)

Section SingleTokenFacts.

Variable W : World.

(** What the "Finding Token Info" block reads. *)
Lemma findTokenInfo_reads chain address (s : Store) :
  exists info s',
    findTokenInfo W chain address s = (Ok info, s')
    /\ priceCache s' = priceCache s
    /\ queryTrace s' = queryTrace s ++ tokenInfoReads W chain address
    /\ consoleLog s' = consoleLog s.
Proof.
  unfold findTokenInfo, tokenInfoReads.
  destruct (String.eqb (toLowerCase address) defaultAddress).
  - eexists; exists s. rewrite app_nil_r. repeat split.
  - destruct (getTrackedTokenInfo W chain address) as [token|].
    + eexists; exists s. rewrite app_nil_r. repeat split.
    + unfold query. mstep. eexists; eexists. split; [reflexivity|].
      cbn [priceCache queryTrace consoleLog]. rewrite <- app_assoc.
      repeat split.
Qed.

End SingleTokenFacts.

(** X9.  [addToken] never throws, and itself writes nothing to the
    console (an error line for an abandoned read is written by [query],
    not by [addToken]).  It reads the chain only for an address that is
    neither the native sentinel nor in the chain's catalog, and then
    makes exactly two reads, [symbol()] and [decimals()], in this
    order.  The token it returns carries the address, location, status
    and owner it was given. *)
Theorem addToken_reads_only_unknown_tokens
    (W : World) (chain : EVMChain) (location : string) (status : TokenStatus)
    (address : Address) (rawBalance : number) (owner : Address) (s : Store) :
  exists tok s',
    addToken W chain location status address rawBalance owner s = (Ok tok, s')
    /\ queryTrace s' = queryTrace s ++ tokenInfoReads W chain address
    /\ consoleLog s' = consoleLog s
    /\ t_type tok = ty_token
    /\ t_address tok = address
    /\ t_location tok = location
    /\ t_status tok = status
    /\ t_owner tok = owner.
Proof.
  unfold addToken. mstep.
  destruct (findTokenInfo_reads W chain address s)
    as ([[symbol decimals] logo] & s0 & -> & _ & Ht0 & Hl0).
  mstep.
  destruct (getTokenPrice_returns W chain address decimals s0)
    as (price & s' & -> & Ht & Hl).
  eexists; exists s'. split; [reflexivity|]. cbn.
  rewrite Ht, Hl, Ht0, Hl0. repeat split.
Qed.

(** X10.  The native sentinel address is recognized in any letter
    case, ahead of the catalog: [addToken] then reads no contract, and
    returns the chain's native symbol and the raw balance divided by
    [10^18], under the address as it was given. *)
Theorem addToken_native_sentinel_any_case
    (W : World) (chain : EVMChain) (location : string) (status : TokenStatus)
    (address : Address) (b : Z) (owner : Address) (s : Store) :
  sameAddress address defaultAddress = true ->
  exists tok s',
    addToken W chain location status address (ofZ b) owner s = (Ok tok, s')
    /\ t_symbol tok = Some (getNativeTokenSymbol chain)
    /\ t_balance tok = Fin (normalized b 18)
    /\ t_logo tok = getTokenLogo W chain (Some (getNativeTokenSymbol chain))
    /\ t_address tok = address
    /\ queryTrace s' = queryTrace s.
Proof.
  intros Hnative.
  assert (Hn : String.eqb (toLowerCase address) defaultAddress = true)
    by exact Hnative.
  unfold addToken, findTokenInfo. rewrite Hn. mstep.
  destruct (getTokenPrice_returns W chain address (IntVal 18) s)
    as (price & s' & -> & Ht & _).
  eexists; exists s'. split; [reflexivity|]. cbn.
  rewrite num_div_pow10. repeat split. exact Ht.
Qed.

Lemma addToken_native_sentinel_any_case_witness :
  exists tok s',
    addToken (sample_world 1) poly "wallet" st_none
             "0xEeeeeEeeeEeEeeEeEeEeeEEEeeeeEeeeeeeeEEeE"
             (ofZ 3000000000000000000) sample_wallet emptyStore = (Ok tok, s')
    /\ t_symbol tok = Some (getNativeTokenSymbol poly)
    /\ t_balance tok = Fin (normalized 3000000000000000000 18)
    /\ t_logo tok = getTokenLogo (sample_world 1) poly
                      (Some (getNativeTokenSymbol poly))
    /\ t_address tok = "0xEeeeeEeeeEeEeeEeEeEeeEEEeeeeEeeeeeeeEEeE"
    /\ queryTrace s' = queryTrace emptyStore.
Proof.
  apply (addToken_native_sentinel_any_case (sample_world 1) poly "wallet"
           st_none "0xEeeeeEeeeEeEeeEeEeEeeEEEeeeeEeeeeeeeEEeE"
           3000000000000000000 sample_wallet emptyStore).
  reflexivity.
Defined.

(** X11.  [addDebtToken] is [addToken] with the type 'debt' and the
    status 'borrowed': for every address and raw balance, and from
    every state, it finds the same symbol, decimals, logo, balance and
    price, makes the same reads and leaves the same state. *)
Theorem addDebtToken_is_addToken_as_debt
    (W : World) (chain : EVMChain) (location : string) (status : TokenStatus)
    (address : Address) (rawBalance : number) (owner : Address) (s : Store) :
  addDebtToken W chain location address rawBalance owner s
  = (asDebt <$> addToken W chain location status address rawBalance owner) s.
Proof.
  unfold addDebtToken, addToken. mstep.
  destruct (findTokenInfo W chain address s) as [[[[symbol decimals] logo]|e] s0];
    [|reflexivity].
  mstep.
  destruct (getTokenPrice W chain address decimals s0) as [[price|e] s'];
    reflexivity.
Qed.

(** X12.  For a token of the catalog other than the native sentinel,
    [addTrackedToken] on the catalog entry and [addToken] on its
    address agree: same token, same state. *)
Theorem addTrackedToken_agrees_with_addToken
    (W : World) (chain : EVMChain) (location : string) (status : TokenStatus)
    (token : TokenData) (rawBalance : number) (owner : Address) (s : Store) :
  getTrackedTokenInfo W chain (td_address token) = Some token ->
  sameAddress (td_address token) defaultAddress = false ->
  addTrackedToken W chain location status token rawBalance owner s
  = addToken W chain location status (td_address token) rawBalance owner s.
Proof.
  intros Htracked Hnative.
  assert (Hn : String.eqb (toLowerCase (td_address token)) defaultAddress = false)
    by exact Hnative.
  unfold addTrackedToken, addToken, findTokenInfo.
  rewrite Hn, Htracked. mstep.
  destruct (getTokenPrice W chain (td_address token)
              (IntVal (td_decimals token)) s) as [[price|e] s'];
    reflexivity.
Qed.

Lemma addTrackedToken_agrees_with_addToken_witness :
  addTrackedToken (sample_world 1) poly "wallet" st_none sample_usdc
                  (ofZ 1000000) sample_wallet emptyStore
  = addToken (sample_world 1) poly "wallet" st_none (td_address sample_usdc)
             (ofZ 1000000) sample_wallet emptyStore.
Proof.
  apply (addTrackedToken_agrees_with_addToken (sample_world 1) poly "wallet"
           st_none sample_usdc (ofZ 1000000) sample_wallet emptyStore).
  - reflexivity.
  - reflexivity.
Defined.

(* --------------------------------------------------------------------- *)
(** ** Staked shares and pool shares *)
(* --------------------------------------------------------------------- *)

Lemma ofZ_nonzero (z : Z) : z <> 0%Z -> Q2Qc (inject_Z z) <> 0%Qc.
Proof.
  intros Hz H. apply Qceq_alt in H. rewrite ofZ_compare in H.
  apply Z.compare_eq_iff in H. contradiction.
Qed.

Lemma normalized_nonzero (raw d : Z) : raw <> 0%Z -> normalized raw d <> 0%Qc.
Proof. intros Hraw H. apply normalized_zero_iff in H. contradiction. Qed.

(** X13.  [addSpookyToken] reports, as the balance underlying [b] raw
    xBOO, the holder's share of the BOO the xBOO contract holds: with
    [J] raw BOO staked and a raw xBOO supply [X > 0], the underlying raw
    balance is [b * (J / X)], normalized by the decimals [addXToken]
    resolves (those of the catalog entry of xBOO when it has one, and
    else those read from BOO).  The token is reported at the xBOO
    address, over BOO.  [addSpookyToken] itself writes nothing to the
    console. *)
Theorem addSpookyToken_underlying_is_pro_rata
    (W : World) (chain : EVMChain) (location : string) (status : TokenStatus)
    (owner : Address) (s : Store) (b J X : Z) :
  let xboo : Address := "0xa48d959AE2E88f1dAA7D5F611E01908106dE7598" in
  let boo : Address := "0x841FAD6EAe12c286d1Fd18d1d525DFfA75C7EFFE" in
  onchain W chain boo (m_balanceOf xboo) = Some J ->
  onchain W chain xboo m_totalSupply = Some X ->
  (0 < X)%Z ->
  exists tok s',
    addSpookyToken W chain location status (ofZ b) owner s = (Ok tok, s')
    /\ x_address tok = xboo
    /\ x_status tok = status
    /\ pt_address (x_underlyingToken tok) = boo
    /\ pt_balance (x_underlyingToken tok)
       = num_div
           (Fin (Q2Qc (inject_Z b) * (Q2Qc (inject_Z J) / Q2Qc (inject_Z X))))
           (pow10 match getTrackedTokenInfo W chain xboo with
                  | Some token => IntVal (td_decimals token)
                  | None => parseInt (onchain W chain boo m_decimals)
                  end)
    /\ consoleLog s' = consoleLog s.
Proof.
  intros xboo boo HJ HX Hpos.
  unfold addSpookyToken, addXToken, query. fold xboo boo. mstep. simpl. mstep.
  rewrite HJ, HX. cbn [parseInt int_to_number].
  assert (Hraw : num_mul (ofZ b) (num_div (ofZ J) (ofZ X))
                 = Fin (Q2Qc (inject_Z b)
                        * (Q2Qc (inject_Z J) / Q2Qc (inject_Z X)))).
  { unfold ofZ. rewrite num_div_fin by (apply ofZ_nonzero; lia). reflexivity. }
  rewrite Hraw.
  destruct (getTrackedTokenInfo W chain xboo) as [token|]; mstep; simpl; mstep;
    match goal with
    | |- context [getTokenPrice W chain boo ?d ?st] =>
        destruct (getTokenPrice_returns W chain boo d st)
          as (p & s' & -> & _ & Hl)
    end;
    mstep; eexists; exists s'; (split; [reflexivity|]); cbn;
    rewrite Hl; repeat split.
Qed.

Lemma addSpookyToken_underlying_is_pro_rata_witness :
  exists tok s',
    addSpookyToken (sample_world 8000000000000000000) ftm "spookyswap"
                   st_staked (ofZ 4000000000000000000) sample_wallet
                   emptyStore = (Ok tok, s')
    /\ x_address tok = "0xa48d959AE2E88f1dAA7D5F611E01908106dE7598"
    /\ x_status tok = st_staked
    /\ pt_address (x_underlyingToken tok)
       = "0x841FAD6EAe12c286d1Fd18d1d525DFfA75C7EFFE"
    /\ pt_balance (x_underlyingToken tok)
       = num_div
           (Fin (Q2Qc (inject_Z 4000000000000000000)
                 * (Q2Qc (inject_Z 2000000000000000000)
                    / Q2Qc (inject_Z 8000000000000000000))))
           (pow10 match getTrackedTokenInfo (sample_world 8000000000000000000)
                          ftm "0xa48d959AE2E88f1dAA7D5F611E01908106dE7598" with
                  | Some token => IntVal (td_decimals token)
                  | None =>
                      parseInt (onchain (sample_world 8000000000000000000) ftm
                                  "0x841FAD6EAe12c286d1Fd18d1d525DFfA75C7EFFE"
                                  m_decimals)
                  end)
    /\ consoleLog s' = consoleLog emptyStore.
Proof.
  apply (addSpookyToken_underlying_is_pro_rata
           (sample_world 8000000000000000000) ftm "spookyswap" st_staked
           sample_wallet emptyStore 4000000000000000000 2000000000000000000
           8000000000000000000).
  - reflexivity.
  - reflexivity.
  - lia.
Defined.

(** X14.  For a Balancer-like pool of two assets, [addBalancerLikeToken]
    returns an LP token whose holder share is taken against the raw
    total supply, not the normalized one: with normalized reserves
    [r0], [r1], normalized holder balance [h] and normalized supply
    [S > 0] (the pool token having [d] decimals), the two constituent
    balances are [r0 * (h / S) / 10^d] and [r1 * (h / S) / 10^d], the
    pro-rata amounts divided by [10^d].  (Exact arithmetic.) *)
Theorem addBalancerLikeToken_pair_share_is_scaled
    (W : World) (chain : EVMChain) (location : string) (status : TokenStatus)
    (address owner id vault : Address) (s : Store) (poolInfo : PoolInfo)
    (address0 address1 : Address) (b St B0 B1 d d0 d1 : Z) :
  onchain W chain vault (m_getPoolTokens id) = Some poolInfo ->
  pi_tokens poolInfo = [address0; address1] ->
  pi_balances poolInfo !! 0%nat = Some B0 ->
  pi_balances poolInfo !! 1%nat = Some B1 ->
  onchain W chain address m_decimals = Some d ->
  onchain W chain address m_totalSupply = Some St ->
  onchain W chain address0 m_decimals = Some d0 ->
  onchain W chain address1 m_decimals = Some d1 ->
  (0 < St)%Z ->
  let S := normalized St d in
  let h := normalized b d in
  let r0 := normalized B0 d0 in
  let r1 := normalized B1 d1 in
  exists lp s',
    addBalancerLikeToken W chain location status address (ofZ b) owner
                         id vault s = (Ok (IsLPToken lp), s')
    /\ lp_balance lp = Fin h
    /\ pt_address (lp_token0 lp) = address0
    /\ pt_address (lp_token1 lp) = address1
    /\ pt_balance (lp_token0 lp)
       = Fin (r0 * (h / S) / Q2Qc (Qpower (inject_Z 10) d))
    /\ pt_balance (lp_token1 lp)
       = Fin (r1 * (h / S) / Q2Qc (Qpower (inject_Z 10) d)).
Proof.
  intros Hpool Htokens HB0 HB1 Hd HSt Hd0 Hd1 Hpos S h r0 r1.
  assert (Hscaled : forall (B d' : Z),
            num_div (num_mul (ofZ B)
                       (num_div (num_div (ofZ b) (pow10 (IntVal d))) (ofZ St)))
                    (pow10 (IntVal d'))
            = Fin (normalized B d' * (h / S) / Q2Qc (Qpower (inject_Z 10) d))).
  { intros B d'. rewrite num_div_pow10. unfold ofZ at 2.
    rewrite num_div_fin by (apply ofZ_nonzero; lia).
    unfold ofZ, num_mul, pow10. rewrite num_div_fin by apply pow10_nonzero.
    f_equal. unfold S, h, normalized.
    pose proof (pow10_nonzero d). pose proof (pow10_nonzero d').
    assert (Q2Qc (inject_Z St) <> 0%Qc) by (apply ofZ_nonzero; lia).
    field. repeat split; assumption. }
  unfold addBalancerLikeToken, query. mstep. simpl. mstep.
  rewrite Hpool, Hd, HSt. simpl. rewrite Htokens. mstep. simpl. mstep.
  rewrite Hd0, Hd1. cbn [parseInt].
  match goal with
  | |- context [getTokenPrice W chain address0 ?dd ?st] =>
      destruct (getTokenPrice_returns W chain address0 dd st)
        as (p0 & sa & -> & _ & _)
  end.
  mstep.
  match goal with
  | |- context [getTokenPrice W chain address1 ?dd ?st] =>
      destruct (getTokenPrice_returns W chain address1 dd st)
        as (p1 & sb & -> & _ & _)
  end.
  mstep. eexists; exists sb. split; [reflexivity|].
  cbn [lp_balance lp_token0 lp_token1 pt_address pt_balance].
  unfold parseIntAt. rewrite HB0, HB1. cbn [parseInt int_to_number].
  rewrite !Hscaled. rewrite num_div_pow10. repeat split.
Qed.

Lemma addBalancerLikeToken_pair_share_is_scaled_witness :
  exists lp s',
    addBalancerLikeToken sample_world2 eth "balancer" st_staked sample_pair
                         (ofZ 1000000000000000000) sample_wallet
                         sample_pool2 sample_vault emptyStore
    = (Ok (IsLPToken lp), s')
    /\ lp_balance lp = Fin (normalized 1000000000000000000 18)
    /\ pt_address (lp_token0 lp) = sample_tokenA
    /\ pt_address (lp_token1 lp) = sample_tokenC
    /\ pt_balance (lp_token0 lp)
       = Fin (normalized 6000000000000000000 18
              * (normalized 1000000000000000000 18
                 / normalized 4000000000000000000 18)
              / Q2Qc (Qpower (inject_Z 10) 18))
    /\ pt_balance (lp_token1 lp)
       = Fin (normalized 8000000000000000000 18
              * (normalized 1000000000000000000 18
                 / normalized 4000000000000000000 18)
              / Q2Qc (Qpower (inject_Z 10) 18)).
Proof.
  apply (addBalancerLikeToken_pair_share_is_scaled sample_world2 eth
           "balancer" st_staked sample_pair sample_wallet sample_pool2
           sample_vault emptyStore
           {| pi_tokens := [sample_tokenA; sample_tokenC];
              pi_balances := [6000000000000000000; 8000000000000000000]%Z |}
           sample_tokenA sample_tokenC
           1000000000000000000 4000000000000000000
           6000000000000000000 8000000000000000000 18 18 18).
  - reflexivity.
  - reflexivity.
  - reflexivity.
  - reflexivity.
  - reflexivity.
  - reflexivity.
  - reflexivity.
  - reflexivity.
  - lia.
Defined.

(* --------------------------------------------------------------------- *)
(** ** Curve tokens *)
(* --------------------------------------------------------------------- *)

Section CurveFacts.

Variable W : World.

(** One side of the Ethereum pair branch always resolves. *)
Lemma curveEthSide_returns chain address (s : Store) :
  exists info s',
    curveEthSide W chain address s = (Ok info, s')
    /\ consoleLog s' = consoleLog s.
Proof.
  unfold curveEthSide.
  destruct (String.eqb (toLowerCase address) defaultAddress).
  - eexists; exists s. split; reflexivity.
  - unfold query. mstep. eexists; eexists. split; reflexivity.
Qed.

End CurveFacts.

(** X15.  Off Ethereum, for an address that has no branch of its own on
    its chain, [addCurveToken] returns the placeholder token and writes
    one warning.  The placeholder has the symbol "???", balance 0 and
    price 0 whatever the raw balance, and the status 'none' whatever
    the status given.  On Polygon, Fantom and Avalanche the token's
    [symbol()] and [decimals()] have been read by then; on the other
    chains no contract is read.  The price resolver is not called. *)
Theorem addCurveToken_without_a_branch
    (W : World) (chain : EVMChain) (location : string) (status : TokenStatus)
    (address : Address) (rawBalance : number) (owner : Address) (s : Store) :
  chain <> eth ->
  matchesNoCurveRule chain address = true ->
  exists tok s',
    addCurveToken W chain location status address rawBalance owner s
    = (Ok (IsToken tok), s')
    /\ tok = unidentifiedToken chain location owner address
    /\ t_symbol tok = Some "???"
    /\ t_balance tok = ofZ 0
    /\ t_price tok = ofZ 0
    /\ t_status tok = st_none
    /\ consoleLog s' = consoleLog s ++ [UnidentifiedCurveToken address]
    /\ queryTrace s' = queryTrace s ++
         match chain with
         | poly | ftm | avax =>
             [readOf chain address minABI m_symbol;
              readOf chain address minABI m_decimals]
         | _ => []
         end
    /\ priceCache s' = priceCache s.
Proof.
  intros Hchain Hnone. unfold matchesNoCurveRule, knownCurveTokens in Hnone.
  destruct chain; try congruence; simpl in Hnone;
    repeat match goal with
           | H : (_ && _)%bool = true |- _ =>
               apply andb_prop in H; destruct H as [? H]
           | H : negb _ = true |- _ => apply negb_true_iff in H
           end;
    unfold addCurveToken, curveSideChainToken, query; mstep; simpl; mstep;
    repeat match goal with
           | H : sameAddress address _ = false |- _ => rewrite H; clear H
           end;
    mstep; eexists; eexists; (split; [reflexivity|]);
    cbn [logged consoleLog queryTrace priceCache];
    rewrite <- ?app_assoc, ?app_nil_r; repeat split.
Qed.

Lemma addCurveToken_without_a_branch_witness :
  exists tok s',
    addCurveToken (sample_world 1) poly "curve" st_staked sample_pair
                  (ofZ 1000000000000000000) sample_wallet emptyStore
    = (Ok (IsToken tok), s')
    /\ tok = unidentifiedToken poly "curve" sample_wallet sample_pair
    /\ t_symbol tok = Some "???"
    /\ t_balance tok = ofZ 0
    /\ t_price tok = ofZ 0
    /\ t_status tok = st_none
    /\ consoleLog s' = consoleLog emptyStore ++ [UnidentifiedCurveToken sample_pair]
    /\ queryTrace s' = queryTrace emptyStore ++
         [readOf poly sample_pair minABI m_symbol;
          readOf poly sample_pair minABI m_decimals]
    /\ priceCache s' = priceCache emptyStore.
Proof.
  apply (addCurveToken_without_a_branch (sample_world 1) poly "curve"
           st_staked sample_pair (ofZ 1000000000000000000) sample_wallet
           emptyStore).
  - discriminate.
  - reflexivity.
Defined.

(** X16.  On Ethereum the registry decides.  When it lists fewer than
    two non-zero underlying coins for the LP token (an LP token it does
    not know), and the balances can be read, [addCurveToken] returns the
    placeholder token and writes one warning, after seven contract
    reads; the price resolver is not called. *)
Theorem addCurveToken_eth_unknown_to_registry
    (W : World) (location : string) (status : TokenStatus)
    (address : Address) (rawBalance : number) (owner : Address) (s : Store)
    (coins : list Address) (reserves : list Z) :
  registryCoins W address = Some coins ->
  registryBalances W address = Some reserves ->
  (length coins < 2)%nat ->
  exists s',
    addCurveToken W eth location status address rawBalance owner s
    = (Ok (IsToken (unidentifiedToken eth location owner address)), s')
    /\ consoleLog s' = consoleLog s ++ [UnidentifiedCurveToken address]
    /\ length (queryTrace s') = (length (queryTrace s) + 7)%nat
    /\ priceCache s' = priceCache s.
Proof.
  unfold registryCoins, registryBalances, curveRegistry.
  intros Hcoins Hreserves Hlen.
  destruct (onchain W eth "0x90E00ACe148ca3b23Ac1bC8C240C2a7Dd9c2d7f5"
              (m_get_underlying_coins _)) as [allCoins|] eqn:Hc;
    [|discriminate].
  destruct (onchain W eth "0x90E00ACe148ca3b23Ac1bC8C240C2a7Dd9c2d7f5"
              (m_get_underlying_balances _)) as [allBalances|] eqn:Hb;
    [|discriminate].
  cbn [fmap option_fmap option_map] in Hcoins, Hreserves.
  injection Hcoins as Hcoins. injection Hreserves as Hreserves.
  unfold addCurveToken, curveEthToken, query. mstep. simpl. mstep.
  rewrite Hc. simpl. mstep. rewrite Hb. simpl. mstep.
  rewrite Hcoins.
  destruct coins as [|c0 [|c1 rest]]; simpl in Hlen; try lia;
    mstep; eexists; (split; [reflexivity|]);
    cbn [logged consoleLog queryTrace priceCache];
    rewrite ?length_app; simpl; repeat split; lia.
Qed.

Lemma addCurveToken_eth_unknown_to_registry_witness :
  exists s',
    addCurveToken sample_world_unlisted eth "curve" st_staked sample_pair
                  (ofZ 1000000000000000000) sample_wallet emptyStore
    = (Ok (IsToken (unidentifiedToken eth "curve" sample_wallet sample_pair)), s')
    /\ consoleLog s' = consoleLog emptyStore ++ [UnidentifiedCurveToken sample_pair]
    /\ length (queryTrace s') = (length (queryTrace emptyStore) + 7)%nat
    /\ priceCache s' = priceCache emptyStore.
Proof.
  apply (addCurveToken_eth_unknown_to_registry sample_world_unlisted "curve"
           st_staked sample_pair (ofZ 1000000000000000000) sample_wallet
           emptyStore [] []).
  - reflexivity.
  - reflexivity.
  - simpl. lia.
Defined.

(** X17.  In the Ethereum pair branch the reserves are indexed after
    their zero entries have been dropped.  When the registry lists two
    non-zero coins and only one non-zero balance [r], that balance is
    attributed to the first coin, whichever coin it belongs to, and the
    balance of the second coin is [NaN]; nothing is written to the
    console.  The reserve is divided by [10^18], whatever the decimals
    of the coin.  (Here the LP token has [d] decimals and a raw total
    supply [St > 0].) *)
Theorem addCurveToken_eth_pair_with_an_empty_reserve
    (W : World) (location : string) (status : TokenStatus)
    (address owner : Address) (s : Store)
    (address0 address1 : Address) (b St r d : Z) :
  onchain W eth address m_decimals = Some d ->
  onchain W eth address m_totalSupply = Some St ->
  (0 < St)%Z ->
  registryCoins W address = Some [address0; address1] ->
  registryBalances W address = Some [r] ->
  exists lp s',
    addCurveToken W eth location status address (ofZ b) owner s
    = (Ok (IsLPToken lp), s')
    /\ lp_balance lp = Fin (normalized b d)
    /\ pt_address (lp_token0 lp) = address0
    /\ pt_address (lp_token1 lp) = address1
    /\ pt_balance (lp_token0 lp)
       = Fin (normalized r 18 * (normalized b d / normalized St d))
    /\ pt_balance (lp_token1 lp) = NaN
    /\ consoleLog s' = consoleLog s.
Proof.
  unfold registryCoins, registryBalances, curveRegistry.
  intros Hd HSt Hpos Hcoins Hreserves.
  destruct (onchain W eth "0x90E00ACe148ca3b23Ac1bC8C240C2a7Dd9c2d7f5"
              (m_get_underlying_coins _)) as [allCoins|] eqn:Hc;
    [|discriminate].
  destruct (onchain W eth "0x90E00ACe148ca3b23Ac1bC8C240C2a7Dd9c2d7f5"
              (m_get_underlying_balances _)) as [allBalances|] eqn:Hb;
    [|discriminate].
  cbn [fmap option_fmap option_map] in Hcoins, Hreserves.
  injection Hcoins as Hcoins. injection Hreserves as Hreserves.
  unfold addCurveToken, curveEthToken, query. mstep. simpl. mstep.
  rewrite Hd, HSt, Hc. simpl. mstep. rewrite Hb. simpl. mstep.
  rewrite Hcoins, Hreserves. mstep.
  match goal with
  | |- context [curveEthSide W eth address0 ?st] =>
      destruct (curveEthSide_returns W eth address0 st)
        as ([symbol0 decimals0] & sa & -> & Hla)
  end.
  mstep.
  match goal with
  | |- context [curveEthSide W eth address1 ?st] =>
      destruct (curveEthSide_returns W eth address1 st)
        as ([symbol1 decimals1] & sb & -> & Hlb)
  end.
  mstep.
  match goal with
  | |- context [getTokenPrice W eth address0 ?dd ?st] =>
      destruct (getTokenPrice_returns W eth address0 dd st)
        as (p0 & sc & -> & _ & Hlc)
  end.
  mstep.
  match goal with
  | |- context [getTokenPrice W eth address1 ?dd ?st] =>
      destruct (getTokenPrice_returns W eth address1 dd st)
        as (p1 & sd & -> & _ & Hld)
  end.
  mstep. eexists; exists sd. split; [reflexivity|].
  cbn [curveLPToken lp_balance lp_token0 lp_token1 pt_address pt_balance].
  unfold parseIntAt. cbn [lookup list_lookup parseInt int_to_number toNumber].
  rewrite !num_div_pow10.
  rewrite num_div_fin
    by (apply normalized_nonzero; lia).
  split; [reflexivity|]. split; [reflexivity|]. split; [reflexivity|].
  split; [reflexivity|]. split; [reflexivity|].
  rewrite Hld, Hlc, Hlb, Hla. reflexivity.
Qed.

Lemma addCurveToken_eth_pair_with_an_empty_reserve_witness :
  exists lp s',
    addCurveToken sample_world2 eth "curve" st_staked sample_pair
                  (ofZ 1000000000000000000) sample_wallet emptyStore
    = (Ok (IsLPToken lp), s')
    /\ lp_balance lp = Fin (normalized 1000000000000000000 18)
    /\ pt_address (lp_token0 lp) = sample_tokenA
    /\ pt_address (lp_token1 lp) = sample_tokenC
    /\ pt_balance (lp_token0 lp)
       = Fin (normalized 9000000000000000000 18
              * (normalized 1000000000000000000 18
                 / normalized 4000000000000000000 18))
    /\ pt_balance (lp_token1 lp) = NaN
    /\ consoleLog s' = consoleLog emptyStore.
Proof.
  apply (addCurveToken_eth_pair_with_an_empty_reserve sample_world2 "curve"
           st_staked sample_pair sample_wallet emptyStore
           sample_tokenA sample_tokenC
           1000000000000000000 4000000000000000000 9000000000000000000 18).
  - reflexivity.
  - reflexivity.
  - lia.
  - reflexivity.
  - reflexivity.
Defined.

(* --------------------------------------------------------------------- *)
(** ** Project handlers and the dispatcher *)
(* --------------------------------------------------------------------- *)

Section PositionFacts.

Variable W : World.

(** [addToken], with the state it leaves. *)
Lemma addToken_run chain location status address rawBalance owner (s : Store) :
  exists tok s',
    addToken W chain location status address rawBalance owner s = (Ok tok, s')
    /\ t_type tok = ty_token
    /\ t_chain tok = chain
    /\ t_location tok = location
    /\ t_status tok = status
    /\ t_owner tok = owner
    /\ t_address tok = address
    /\ t_balance tok = num_div rawBalance (pow10 (tokenDecimals W chain address))
    /\ queryTrace s' = queryTrace s ++ tokenInfoReads W chain address
    /\ consoleLog s' = consoleLog s.
Proof.
  unfold addToken, findTokenInfo, tokenDecimals, tokenInfoReads, query.
  destruct (String.eqb (toLowerCase address) defaultAddress);
    [|destruct (getTrackedTokenInfo W chain address) as [token|]];
    mstep;
    match goal with
    | |- context [getTokenPrice W chain address ?d ?st] =>
        destruct (getTokenPrice_returns W chain address d st)
          as (p & s' & -> & Ht & Hl)
    end;
    eexists; exists s'; (split; [reflexivity|]); cbn;
    rewrite Ht, Hl; cbn; rewrite <- ?app_assoc, ?app_nil_r; repeat split.
Qed.

(** The shape shared by [getPoolBalanceV4] of PoolTogether and
    [getMarketRewards] of Iron: one read, and one token when it is
    positive. *)
Lemma single_position chain project status (token wallet : Address)
    (read : M (option Z)) (s s1 : Store) (v : option Z) :
  read s = (Ok v, s1) ->
  exists found s',
    (balance ← parseInt <$> read;
     if int_gt0 balance then
       newToken ← addToken W chain project status token
                    (int_to_number balance) wallet;
       mret [IsToken newToken]
     else mret []) s = (Ok found, s')
    /\ consoleLog s' = consoleLog s1
    /\ match v with
       | Some z =>
           if (0 <? z)%Z then
             exists tok,
               found = [IsToken tok]
               /\ t_type tok = ty_token
               /\ t_location tok = project
               /\ t_status tok = status
               /\ t_owner tok = wallet
               /\ t_address tok = token
               /\ t_balance tok
                  = num_div (ofZ z) (pow10 (tokenDecimals W chain token))
               /\ queryTrace s' = queryTrace s1 ++ tokenInfoReads W chain token
           else found = [] /\ s' = s1
       | None => found = [] /\ s' = s1
       end.
Proof.
  intros Hread. mstep. rewrite Hread.
  destruct v as [z|]; cbn [parseInt int_gt0]; [destruct (0 <? z)%Z|].
  - destruct (addToken_run chain project status token
                (int_to_number (IntVal z)) wallet s1)
      as (tok & s' & Hrun & Hty & _ & Hloc & Hst & Hown & Haddr & Hbal
          & Htrace & Hlog).
    mstep. rewrite Hrun. exists [IsToken tok], s'. split; [reflexivity|].
    split; [exact Hlog|].
    exists tok. cbn [int_to_number] in Hbal. repeat split; assumption.
  - exists [], s1. repeat split.
  - exists [], s1. repeat split.
Qed.

End PositionFacts.

(** X18.  PoolTogether's [get] (Polygon and Ethereum alike) makes one
    [balanceOf] read on the prize pool and never throws; neither [get]
    nor the functions it calls write to the console themselves (an
    abandoned read leaves the error line of [query], and nothing
    else).  When the read is abandoned or not positive the result
    is the empty array: no token is built, no further contract is read
    and the price resolver is not called.  Otherwise the result is
    exactly one token: USDC, with the status 'staked', located in
    'pooltogether', owned by the wallet, its balance the deposit
    divided by [10^decimals] for the decimals resolved for USDC. *)
Theorem PoolTogether_get_reports_the_deposit
    (W : World) (chain : EVMChain) (poolV4 usdc wallet : Address) (s : Store) :
  exists found s',
    PoolTogether.get W chain poolV4 usdc wallet s = (Ok found, s')
    /\ consoleLog s' = consoleLog s
    /\ match onchain W chain poolV4 (m_balanceOf wallet) with
       | Some z =>
           if (0 <? z)%Z then
             exists tok,
               found = [IsToken tok]
               /\ t_type tok = ty_token
               /\ t_location tok = "pooltogether"
               /\ t_status tok = st_staked
               /\ t_owner tok = wallet
               /\ t_address tok = usdc
               /\ t_balance tok
                  = num_div (ofZ z) (pow10 (tokenDecimals W chain usdc))
               /\ queryTrace s' = queryTrace s ++
                    readOf chain poolV4 minABI (m_balanceOf wallet)
                    :: tokenInfoReads W chain usdc
           else
             found = []
             /\ queryTrace s' = queryTrace s ++
                  [readOf chain poolV4 minABI (m_balanceOf wallet)]
             /\ priceCache s' = priceCache s
       | None =>
           found = []
           /\ queryTrace s' = queryTrace s ++
                [readOf chain poolV4 minABI (m_balanceOf wallet)]
           /\ priceCache s' = priceCache s
       end.
Proof.
  destruct (single_position W chain PoolTogether.project st_staked usdc wallet
              (query W chain poolV4 minABI (m_balanceOf wallet)) s _ _ eq_refl)
    as (found & s' & Hrun & Hlog & Hcase).
  exists found, s'.
  unfold PoolTogether.get, handlerGet, PoolTogether.getPoolBalanceV4.
  cbn [tryPushAll]. rewrite Hrun. cbn [tryPushAll app].
  split; [reflexivity|]. split; [exact Hlog|].
  destruct (onchain W chain poolV4 (m_balanceOf wallet)) as [z|];
    [destruct (0 <? z)%Z|].
  - destruct Hcase as (tok & Hf & Hty & Hloc & Hst & Hown & Haddr & Hbal & Htr).
    exists tok. rewrite Htr. cbn [queryTrace]. rewrite <- app_assoc.
    repeat split; assumption.
  - destruct Hcase as [-> ->]. repeat split.
  - destruct Hcase as [-> ->]. repeat split.
Qed.

(** X19.  Iron's [getMarketRewards] makes one [rewardAccrued] read on
    the lending contract and never throws; it writes nothing to the
    console itself (an abandoned read leaves the error line of
    [query], and nothing else).  When the read is abandoned
    or not positive it returns the empty array and does nothing else;
    otherwise it returns exactly one token: ICE, with the status
    'unclaimed', located in 'iron', its balance the accrued amount
    divided by [10^decimals] for the decimals resolved for ICE. *)
Theorem Iron_getMarketRewards_reports_the_rewards
    (W : World) (wallet : Address) (s : Store) :
  exists found s',
    Iron.getMarketRewards W wallet s = (Ok found, s')
    /\ consoleLog s' = consoleLog s
    /\ match onchain W poly Iron.lending (m_rewardAccrued wallet) with
       | Some z =>
           if (0 <? z)%Z then
             exists tok,
               found = [IsToken tok]
               /\ t_type tok = ty_token
               /\ t_location tok = "iron"
               /\ t_status tok = st_unclaimed
               /\ t_owner tok = wallet
               /\ t_address tok = Iron.ice
               /\ t_balance tok
                  = num_div (ofZ z) (pow10 (tokenDecimals W poly Iron.ice))
               /\ queryTrace s' = queryTrace s ++
                    readOf poly Iron.lending iron_lendingABI
                           (m_rewardAccrued wallet)
                    :: tokenInfoReads W poly Iron.ice
           else
             found = []
             /\ queryTrace s' = queryTrace s ++
                  [readOf poly Iron.lending iron_lendingABI
                          (m_rewardAccrued wallet)]
             /\ priceCache s' = priceCache s
       | None =>
           found = []
           /\ queryTrace s' = queryTrace s ++
                [readOf poly Iron.lending iron_lendingABI
                        (m_rewardAccrued wallet)]
           /\ priceCache s' = priceCache s
       end.
Proof.
  destruct (single_position W Iron.chain Iron.project st_unclaimed Iron.ice
              wallet
              (query W Iron.chain Iron.lending iron_lendingABI
                     (m_rewardAccrued wallet)) s _ _ eq_refl)
    as (found & s' & Hrun & Hlog & Hcase).
  exists found, s'. unfold Iron.getMarketRewards.
  split; [exact Hrun|]. split; [exact Hlog|].
  change Iron.chain with poly in *.
  destruct (onchain W poly Iron.lending (m_rewardAccrued wallet)) as [z|];
    [destruct (0 <? z)%Z|].
  - destruct Hcase as (tok & Hf & Hty & Hloc & Hst & Hown & Haddr & Hbal & Htr).
    exists tok. rewrite Htr. cbn [queryTrace]. rewrite <- app_assoc.
    repeat split; assumption.
  - destruct Hcase as [-> ->]. repeat split.
  - destruct Hcase as [-> ->]. repeat split.
Qed.

(** X20.  Iron's [getStakedICE], for a wallet holding [z > 0] raw
    blueICE whose lock can be read: it returns exactly one composite
    token, blueICE over ICE, with the status 'staked', whose
    [info.unlock] is the end of the lock and whose underlying balance
    is the locked amount, normalized by the decimals [addXToken]
    resolves.  [getStakedICE] and [addXToken] write nothing to the
    console themselves.  When the balance read is not positive, the
    lock is not read and the result is the empty array. *)
Theorem Iron_getStakedICE_reports_the_lock
    (W : World) (wallet : Address) (s : Store) (z : Z) (locked : LockedBalance) :
  onchain W poly Iron.blueice (m_balanceOf wallet) = Some z ->
  onchain W poly Iron.blueice (m_locked wallet) = Some locked ->
  (if (0 <? z)%Z then
     exists x s',
       Iron.getStakedICE W wallet s = (Ok [IsXToken x], s')
       /\ x_type x = ty_xToken
       /\ x_location x = "iron"
       /\ x_status x = st_staked
       /\ x_owner x = wallet
       /\ x_address x = Iron.blueice
       /\ x_balance x
          = num_div (ofZ z)
              (pow10 (parseInt (onchain W poly Iron.blueice m_decimals)))
       /\ x_info x = Some (IntVal (lk_end locked))
       /\ pt_address (x_underlyingToken x) = Iron.ice
       /\ pt_balance (x_underlyingToken x)
          = num_div (ofZ (lk_amount locked))
              (pow10 match getTrackedTokenInfo W poly Iron.blueice with
                     | Some token => IntVal (td_decimals token)
                     | None => parseInt (onchain W poly Iron.ice m_decimals)
                     end)
       /\ consoleLog s' = consoleLog s
   else
     exists s',
       Iron.getStakedICE W wallet s = (Ok [], s')
       /\ queryTrace s' = queryTrace s ++
            [readOf poly Iron.blueice minABI (m_balanceOf wallet)]
       /\ priceCache s' = priceCache s
       /\ consoleLog s' = consoleLog s).
Proof.
  intros Hbalance Hlocked.
  unfold Iron.getStakedICE, addXToken, query. change Iron.chain with poly.
  mstep. cbn [fst snd]. rewrite Hbalance. cbn [parseInt int_gt0].
  destruct (0 <? z)%Z.
  - mstep. cbn [fst snd queryTrace priceCache consoleLog].
    rewrite Hlocked. cbn [defined]. mstep.
    cbn [fst snd queryTrace priceCache consoleLog].
    destruct (getTrackedTokenInfo W poly Iron.blueice) as [token|];
      mstep; cbn [fst snd queryTrace priceCache consoleLog]; mstep;
      match goal with
      | |- context [getTokenPrice W poly Iron.ice ?d ?st] =>
          destruct (getTokenPrice_returns W poly Iron.ice d st)
            as (p & s' & -> & _ & Hl)
      end;
      mstep; eexists; exists s'; (split; [reflexivity|]); cbn;
      rewrite Hl; repeat split.
  - eexists. split; [reflexivity|]. repeat split.
Qed.

Lemma Iron_getStakedICE_reports_the_lock_witness :
  exists x s',
    Iron.getStakedICE sample_world2 sample_wallet emptyStore
    = (Ok [IsXToken x], s')
    /\ x_info x = Some (IntVal 1700000000)
    /\ pt_address (x_underlyingToken x) = Iron.ice
    /\ pt_balance (x_underlyingToken x) = Fin (normalized 5000000000000000000 18).
Proof.
  destruct (Iron_getStakedICE_reports_the_lock sample_world2 sample_wallet
              emptyStore 1000000
              {| lk_amount := 5000000000000000000; lk_end := 1700000000 |}
              eq_refl eq_refl)
    as (x & s' & Hrun & _ & _ & _ & _ & _ & _ & Hinfo & Haddr & Hbal & _).
  exists x, s'. split; [exact Hrun|]. split; [exact Hinfo|].
  split; [exact Haddr|]. rewrite Hbal. apply num_div_pow10.
Defined.

(** X21.  When its four steps return, Iron's [get] returns their
    results concatenated in the order farms, markets, rewards, staked
    ICE; each step runs from the state the one before left, and [get]
    itself writes nothing to the console. *)
Theorem Iron_get_concatenates_in_order
    (W : World) (getFarmBalances getMarketBalances : Address -> M (list AnyToken))
    (wallet : Address) (s s1 s2 s3 s4 : Store)
    (farms markets rewards staked : list AnyToken) :
  getFarmBalances wallet s = (Ok farms, s1) ->
  getMarketBalances wallet s1 = (Ok markets, s2) ->
  Iron.getMarketRewards W wallet s2 = (Ok rewards, s3) ->
  Iron.getStakedICE W wallet s3 = (Ok staked, s4) ->
  Iron.get W getFarmBalances getMarketBalances wallet s
  = (Ok (farms ++ markets ++ rewards ++ staked), s4).
Proof.
  intros Hfarms Hmarkets Hrewards Hstaked.
  unfold Iron.get, handlerGet. cbn [tryPushAll].
  rewrite Hfarms. cbn [tryPushAll]. rewrite Hmarkets. cbn [tryPushAll].
  rewrite Hrewards. cbn [tryPushAll]. rewrite Hstaked. cbn [tryPushAll].
  rewrite <- !app_assoc. reflexivity.
Qed.

Lemma Iron_get_concatenates_in_order_witness :
  exists (staked : list AnyToken) (s3 s4 : Store),
    Iron.getMarketRewards sample_world2 sample_wallet emptyStore = (Ok [], s3)
    /\ Iron.getStakedICE sample_world2 sample_wallet s3 = (Ok staked, s4)
    /\ length staked = 1%nat
    /\ Iron.get sample_world2 sample_getFarmBalances sample_getMarketBalances
                sample_wallet emptyStore
       = (Ok ([sample_farm_token] ++ [] ++ [] ++ staked), s4).
Proof.
  destruct (Iron.getMarketRewards sample_world2 sample_wallet emptyStore)
    as [[rewards|e] s3] eqn:Hrewards; [|discriminate Hrewards].
  assert (Hnone : rewards = [])
    by (vm_compute in Hrewards; injection Hrewards as <- _; reflexivity).
  subst rewards.
  destruct (Iron.getStakedICE sample_world2 sample_wallet s3)
    as [[staked|e] s4] eqn:Hstaked.
  - exists staked, s3, s4. split; [reflexivity|]. split; [exact Hstaked|].
    split.
    + vm_compute in Hrewards. injection Hrewards as <-.
      vm_compute in Hstaked. injection Hstaked as <- _. reflexivity.
    + apply (Iron_get_concatenates_in_order sample_world2
               sample_getFarmBalances sample_getMarketBalances sample_wallet
               emptyStore emptyStore emptyStore s3 s4
               [sample_farm_token] [] [] staked).
      * reflexivity.
      * reflexivity.
      * exact Hrewards.
      * exact Hstaked.
  - exfalso. vm_compute in Hrewards. injection Hrewards as <-.
    vm_compute in Hstaked. discriminate Hstaked.
Defined.

(** X22.  For a project of the chain's list, [getProjectBalance] is the
    handler's [get]: it returns the handler's positions unchanged, it
    passes a rejection of the handler on to its caller (there is no
    [catch] of its own), and it adds nothing to the console. *)
Theorem getProjectBalance_is_the_handler
    (W : World) (dapp : EVMChain -> string -> Address -> M (list AnyToken))
    (chain : EVMChain) (wallet : Address) (project : string) (s : Store) :
  In project (projects W chain) ->
  getProjectBalance W dapp chain wallet project s
  = dapp chain project wallet s.
Proof.
  intros Hin. unfold getProjectBalance.
  assert (Hex : existsb (String.eqb project) (projects W chain) = true).
  { apply existsb_exists. exists project. split; [exact Hin|].
    apply String.eqb_refl. }
  rewrite Hex. mstep.
  destruct (dapp chain project wallet s) as [[balance|e] s']; reflexivity.
Qed.

Lemma getProjectBalance_is_the_handler_witness :
  getProjectBalance (sample_world 1) sample_dapp poly sample_wallet "iron"
                    emptyStore
  = (Throw (Rejected "Cannot find module"), emptyStore)
  /\ getProjectBalance (sample_world 1) sample_dapp_found poly sample_wallet
                       "pooltogether" emptyStore
     = (Ok [sample_farm_token], emptyStore).
Proof.
  split.
  - apply (getProjectBalance_is_the_handler (sample_world 1) sample_dapp poly
             sample_wallet "iron" emptyStore).
    simpl. auto.
  - apply (getProjectBalance_is_the_handler (sample_world 1) sample_dapp_found
             poly sample_wallet "pooltogether" emptyStore).
    simpl. auto.
Defined.

(** X23.  Over handlers of the shape of the source (a [get] that runs
    its steps in one [try] block and catches), [getProjectBalance]
    never throws, whether the project is on the chain's list or not,
    and whatever the steps do. *)
Theorem getProjectBalance_never_throws_over_handlers
    (W : World) (dapp : EVMChain -> string -> Address -> M (list AnyToken))
    (chain : EVMChain) (wallet : Address) (project : string) (s : Store) :
  (forall c p w, exists steps, dapp c p w = handlerGet c p steps) ->
  exists found s',
    getProjectBalance W dapp chain wallet project s = (Ok found, s').
Proof.
  intros Hshape. unfold getProjectBalance.
  destruct (existsb (String.eqb project) (projects W chain)).
  - destruct (Hshape chain project wallet) as (steps & Hdapp).
    destruct (handlerGet_never_throws chain project steps s)
      as (balance & s' & Hget).
    mstep. rewrite Hdapp, Hget. eexists; eexists; reflexivity.
  - eexists; eexists; reflexivity.
Qed.

Lemma getProjectBalance_never_throws_over_handlers_witness :
  exists found s',
    getProjectBalance sample_world2 (sample_handlers sample_world2) poly
                      sample_wallet "iron" emptyStore = (Ok found, s').
Proof.
  apply (getProjectBalance_never_throws_over_handlers sample_world2
           (sample_handlers sample_world2) poly sample_wallet "iron"
           emptyStore).
  intros c p w. eexists. reflexivity.
Defined.

(* --------------------------------------------------------------------- *)
(** ** What the engine writes to the console *)
(* --------------------------------------------------------------------- *)

Section Silent.

Variable W : World.

Lemma silent_ret {A : Type} (a : A) : silent (mret a : M A).
Proof. intros s. reflexivity. Qed.

Lemma silent_throw {A : Type} (e : Exn) : silent (throw e : M A).
Proof. intros s. reflexivity. Qed.

Lemma silent_defined {A : Type} (what : string) (x : option A) :
  silent (defined what x).
Proof. destruct x; [apply silent_ret | apply silent_throw]. Qed.

Lemma silent_query chain address abi (m : Method) :
  silent (query W chain address abi m).
Proof. intros s. reflexivity. Qed.

Lemma silent_query_at chain address abi (m : Method) :
  silent (query_at W chain address abi m).
Proof.
  intros s. destruct address as [a|]; [reflexivity|].
  unfold query_at.
  destruct (existsb (fun i => chain_eqb (ie_chain i) chain) ignoredErrors);
    reflexivity.
Qed.

Lemma silent_getTrackedTokenInfo_at chain address :
  silent (getTrackedTokenInfo_at W chain address).
Proof.
  unfold getTrackedTokenInfo_at.
  destruct address as [a|]; [apply silent_ret|].
  destruct (getTokens W chain); [apply silent_ret|apply silent_throw].
Qed.

Lemma silent_getTokenPrice chain address decimals :
  silent (getTokenPrice W chain address decimals).
Proof.
  intros s. unfold getTokenPrice.
  destruct (priceCache s !! (chain, toLowerCase address)); reflexivity.
Qed.

Lemma silent_bind {A B : Type} (m : M A) (f : A -> M B) :
  silent m -> (forall a, silent (f a)) -> silent (m ≫= f).
Proof.
  intros Hm Hf s. rewrite bind_run. specialize (Hm s).
  destruct (m s) as [[a|e] s1]; simpl in Hm.
  - rewrite Hf. exact Hm.
  - exact Hm.
Qed.

Lemma silent_fmap {A B : Type} (g : A -> B) (m : M A) :
  silent m -> silent (g <$> m).
Proof.
  intros Hm s. rewrite fmap_run. specialize (Hm s).
  destruct (m s) as [[a|e] s1]; exact Hm.
Qed.

Lemma silent_getTokenPrice_at chain address decimals :
  silent (getTokenPrice_at W chain address decimals).
Proof.
  unfold getTokenPrice_at. apply silent_bind; [apply silent_defined|].
  intros a. apply silent_getTokenPrice.
Qed.

Lemma silent_getPrice chain address decimals :
  silent (getPrice W chain address decimals).
Proof.
  unfold getPrice.
  repeat match goal with
         | |- silent (if ?b then _ else _) => destruct b
         end; apply silent_getTokenPrice.
Qed.

(** Decompose a computation of the engine into its reads, price
    look-ups and pure steps. *)
Ltac silent_step :=
  lazymatch goal with
  | |- silent (mbind _ _) => apply silent_bind; [|intros ?]
  | |- silent (fmap _ _) => apply silent_fmap
  | |- silent (mret _) => apply silent_ret
  | |- silent (throw _) => apply silent_throw
  | |- silent (defined _ _) => apply silent_defined
  | |- silent (query _ ?c ?a ?abi ?m) => exact (silent_query c a abi m)
  | |- silent (query_at _ ?c ?a ?abi ?m) => exact (silent_query_at c a abi m)
  | |- silent (getTrackedTokenInfo_at _ _ _) =>
      apply silent_getTrackedTokenInfo_at
  | |- silent (getTokenPrice _ _ _ _) => apply silent_getTokenPrice
  | |- silent (getTokenPrice_at _ _ _ _) => apply silent_getTokenPrice_at
  | |- silent (getPrice _ _ _ _) => apply silent_getPrice
  | |- silent (let '(_, _) := ?x in _) => destruct x
  | |- silent (match ?x with _ => _ end) => destruct x
  | |- silent (if ?b then _ else _) => destruct b
  | |- silent (let _ := _ in _) => cbv zeta
  end.

Ltac silent_steps := repeat silent_step.

Lemma silent_findTokenInfo chain address :
  silent (findTokenInfo W chain address).
Proof. unfold findTokenInfo. silent_steps. Qed.

Lemma silent_addToken chain location status address rawBalance owner :
  silent (addToken W chain location status address rawBalance owner).
Proof.
  unfold addToken. apply silent_bind; [apply silent_findTokenInfo|].
  intros [[symbol decimals] logo]. silent_steps.
Qed.

Lemma silent_addDebtToken chain location address rawBalance owner :
  silent (addDebtToken W chain location address rawBalance owner).
Proof.
  unfold addDebtToken. apply silent_bind; [apply silent_findTokenInfo|].
  intros [[symbol decimals] logo]. silent_steps.
Qed.

Lemma silent_addTrackedToken chain location status token rawBalance owner :
  silent (addTrackedToken W chain location status token rawBalance owner).
Proof. unfold addTrackedToken. silent_steps. Qed.

Lemma silent_addNativeToken chain rawBalance owner :
  silent (addNativeToken W chain rawBalance owner).
Proof. unfold addNativeToken. silent_steps. Qed.

Lemma silent_pairedTokenInfo chain address tracked :
  silent (pairedTokenInfo W chain address tracked).
Proof. unfold pairedTokenInfo. silent_steps. Qed.

Lemma silent_addLPToken chain location status address rawBalance owner :
  silent (addLPToken W chain location status address rawBalance owner).
Proof.
  unfold addLPToken.
  repeat first [ apply silent_pairedTokenInfo | silent_step ].
Qed.

Lemma silent_addXToken chain location status address rawBalance owner
    underlyingAddress underlyingRawBalance :
  silent (addXToken W chain location status address rawBalance owner
                    underlyingAddress underlyingRawBalance).
Proof. unfold addXToken. silent_steps. Qed.

Lemma silent_addTraderJoeToken chain location status rawBalance owner :
  silent (addTraderJoeToken W chain location status rawBalance owner).
Proof.
  unfold addTraderJoeToken.
  repeat first [ apply silent_addXToken | silent_step ].
Qed.

Lemma silent_addSpookyToken chain location status rawBalance owner :
  silent (addSpookyToken W chain location status rawBalance owner).
Proof.
  unfold addSpookyToken.
  repeat first [ apply silent_addXToken | silent_step ].
Qed.

Lemma silent_balancerPriceSum chain poolInfo (todo : list Address) :
  forall (i : nat) (priceSum : number),
    silent (balancerPriceSum W chain poolInfo i todo priceSum).
Proof.
  induction todo as [|token rest IH]; intros i priceSum; cbn [balancerPriceSum].
  - apply silent_ret.
  - repeat first [ apply IH | silent_step ].
Qed.

Lemma silent_addBalancerLikeToken chain location status address rawBalance
    owner id vault :
  silent (addBalancerLikeToken W chain location status address rawBalance
                               owner id vault).
Proof.
  unfold addBalancerLikeToken.
  repeat first [ apply silent_balancerPriceSum | silent_step ].
Qed.

Lemma silent_curvePriceSum chain reserves (todo : list Address) :
  forall (i : nat) (price : number),
    silent (curvePriceSum W chain reserves i todo price).
Proof.
  induction todo as [|token rest IH]; intros i price; cbn [curvePriceSum].
  - apply silent_ret.
  - repeat first [ apply IH | silent_step ].
Qed.

Lemma silent_curvePairedToken chain symbol address supply balance
    lpTokenSupply decimals :
  silent (curvePairedToken W chain symbol address supply balance
                           lpTokenSupply decimals).
Proof. unfold curvePairedToken. silent_steps. Qed.

Lemma silent_curveEthSide chain address :
  silent (curveEthSide W chain address).
Proof. unfold curveEthSide. silent_steps. Qed.

Lemma silent_curveEthToken chain location status address rawBalance owner :
  silent (curveEthToken W chain location status address rawBalance owner).
Proof.
  unfold curveEthToken.
  repeat first [ apply silent_curvePriceSum | apply silent_curveEthSide
               | silent_step ].
Qed.

Lemma silent_curveSideChainToken chain location status address rawBalance
    owner :
  silent (curveSideChainToken W chain location status address rawBalance owner).
Proof.
  unfold curveSideChainToken, curveAtricryptoToken, curveVirtualPriceToken,
    curveRenToken, curveEURTUSDToken, curve2poolToken, curveTricryptoToken.
  repeat first [ apply silent_curvePairedToken | silent_step ].
Qed.

End Silent.

(** X24.  The functions that build a token write nothing to the
    console, whether they return or throw: [addNativeToken],
    [addToken], [addDebtToken], [addTrackedToken], [addLPToken],
    [addXToken], [addTraderJoeToken], [addSpookyToken],
    [addBalancerLikeToken] and [addBalancerToken].  Of a failed read
    they report nothing themselves: the only error lines are those of
    [query]. *)
Theorem token_builders_are_silent
    (W : World) (chain : EVMChain) (location : string) (status : TokenStatus)
    (address : Address) (rawBalance : number) (owner : Address)
    (token : TokenData) (underlyingAddress : Address)
    (underlyingRawBalance : number) (id vault : Address) :
  silent (addNativeToken W chain rawBalance owner)
  /\ silent (addToken W chain location status address rawBalance owner)
  /\ silent (addDebtToken W chain location address rawBalance owner)
  /\ silent (addTrackedToken W chain location status token rawBalance owner)
  /\ silent (addLPToken W chain location status address rawBalance owner)
  /\ silent (addXToken W chain location status address rawBalance owner
                       underlyingAddress underlyingRawBalance)
  /\ silent (addTraderJoeToken W chain location status rawBalance owner)
  /\ silent (addSpookyToken W chain location status rawBalance owner)
  /\ silent (addBalancerLikeToken W chain location status address rawBalance
                                  owner id vault)
  /\ silent (addBalancerToken W chain location status address rawBalance
                              owner id).
Proof.
  split; [apply silent_addNativeToken|].
  split; [apply silent_addToken|].
  split; [apply silent_addDebtToken|].
  split; [apply silent_addTrackedToken|].
  split; [apply silent_addLPToken|].
  split; [apply silent_addXToken|].
  split; [apply silent_addTraderJoeToken|].
  split; [apply silent_addSpookyToken|].
  split; [apply silent_addBalancerLikeToken|].
  unfold addBalancerToken. apply silent_addBalancerLikeToken.
Qed.

(** X25.  [addCurveToken] writes at most one line to the console, the
    'Unidentified Curve Token' warning, and writes it only when it
    returns the placeholder token: on every chain, for every address
    and from every state, whether it returns or throws, either the
    console is left as it was, or the warning for the address has been
    appended and the result is the placeholder. *)
Theorem addCurveToken_warns_only_with_the_placeholder
    (W : World) (chain : EVMChain) (location : string) (status : TokenStatus)
    (address : Address) (rawBalance : number) (owner : Address) (s : Store) :
  let outcome :=
    addCurveToken W chain location status address rawBalance owner s in
  consoleLog (snd outcome) = consoleLog s
  \/ (consoleLog (snd outcome)
      = consoleLog s ++ [UnidentifiedCurveToken address]
      /\ fst outcome
         = Ok (IsToken (unidentifiedToken chain location owner address))).
Proof.
  cbv zeta. unfold addCurveToken. rewrite bind_run.
  assert (Hinner : silent
            match chain with
            | eth => curveEthToken W chain location status address rawBalance owner
            | poly | ftm | avax =>
                curveSideChainToken W chain location status address
                                    rawBalance owner
            | _ => mret None
            end).
  { destruct chain;
      first [ apply silent_curveEthToken | apply silent_curveSideChainToken
            | apply silent_ret ]. }
  specialize (Hinner s).
  destruct (match chain with
            | eth => curveEthToken W chain location status address rawBalance owner
            | poly | ftm | avax =>
                curveSideChainToken W chain location status address
                                    rawBalance owner
            | _ => mret None
            end s) as [[[newToken|]|e] s1]; cbn [snd] in Hinner.
  - left. exact Hinner.
  - right. rewrite bind_run. unfold console_log.
    cbn [logged snd fst consoleLog]. rewrite ret_run.
    cbn [logged snd fst consoleLog]. rewrite Hinner. split; reflexivity.
  - left. exact Hinner.
Qed.
